(** * Analytics engine of the CoinMarketCap MCP server: model and properties

    The technical-analysis tools (RSI, EMA, MACD, signal aggregation) and the
    historical-analysis tools (returns, VaR, expected shortfall, drawdown,
    beta, correlation) are embedded as Rocq functions, one per TypeScript
    method, keeping the method names.

    Numbers.  A JavaScript number is modelled in two layers.

    The exact layer, [JS.num], is a real number, one of the two
    infinities, or NaN.  Finite arithmetic is exact (no rounding, no
    overflow, a single zero); the special values follow IEEE-754 as
    JavaScript exposes them.  It carries the properties that hold for all
    inputs and that rounding does not disturb: guards, loop structure,
    orderings that every monotone rounding keeps.

    The binary64 layer, [B64], is the kernel's IEEE-754 double: every sum,
    difference, product, quotient and square root is rounded to nearest
    even, as JavaScript rounds it.  It carries the properties whose truth
    turns on the last bit: the rank of the value at risk, the comparison
    of a percentage with its threshold, the expected shortfall, the
    correlation of a flat series.

    Reading an array outside its bounds gives [None] (undefined), which
    arithmetic turns into NaN. *)

From Stdlib Require Import String Ascii DecimalString.
From Stdlib Require Import Reals Lra Lia ZArith Bool List.
From Stdlib Require Import Permutation Sorted.
From Stdlib Require Floats.
Import ListNotations.

Open Scope R_scope.

(* ------------------------------------------------------------------ *)
(** ** JavaScript numbers and arrays *)

Module JS.

Inductive num : Type :=
| Fin (r : R)
| PInf
| NInf
| NaN.

(** The one-bit tests on reals the operations branch on. *)
Definition Rltb (a b : R) : bool := if Rlt_dec a b then true else false.
Definition Rleb (a b : R) : bool := if Rle_dec a b then true else false.
Definition Reqb (a b : R) : bool := if Req_dec_T a b then true else false.

(** An integer (a length, a period, an index) as a number. *)
Definition ofZ (z : Z) : num := Fin (IZR z).

Definition add (a b : num) : num :=
  match a, b with
  | NaN, _ => NaN
  | _, NaN => NaN
  | Fin x, Fin y => Fin (x + y)
  | Fin _, PInf => PInf
  | Fin _, NInf => NInf
  | PInf, NInf => NaN
  | NInf, PInf => NaN
  | PInf, _ => PInf
  | NInf, _ => NInf
  end.

Definition sub (a b : num) : num :=
  match a, b with
  | NaN, _ => NaN
  | _, NaN => NaN
  | Fin x, Fin y => Fin (x - y)
  | Fin _, PInf => NInf
  | Fin _, NInf => PInf
  | PInf, PInf => NaN
  | NInf, NInf => NaN
  | PInf, _ => PInf
  | NInf, _ => NInf
  end.

(** Sign of an infinite product or quotient: [pos] tells whether the
    infinite operand is positive, [r] is the finite one. *)
Definition signed_inf (pos : bool) (r : R) : num :=
  if Reqb r 0 then NaN
  else if Bool.eqb pos (Rltb 0 r) then PInf else NInf.

Definition mul (a b : num) : num :=
  match a, b with
  | NaN, _ => NaN
  | _, NaN => NaN
  | Fin x, Fin y => Fin (x * y)
  | Fin x, PInf => signed_inf true x
  | Fin x, NInf => signed_inf false x
  | PInf, Fin y => signed_inf true y
  | NInf, Fin y => signed_inf false y
  | PInf, PInf => PInf
  | NInf, NInf => PInf
  | PInf, NInf => NInf
  | NInf, PInf => NInf
  end.

(** Division.  With a single zero, [x / 0] takes the sign of [x]. *)
Definition div (a b : num) : num :=
  match a, b with
  | NaN, _ => NaN
  | _, NaN => NaN
  | Fin x, Fin y =>
      if Reqb y 0 then
        (if Reqb x 0 then NaN else if Rltb 0 x then PInf else NInf)
      else Fin (x / y)
  | Fin _, _ => Fin 0
  | PInf, Fin y => if Rltb y 0 then NInf else PInf
  | NInf, Fin y => if Rltb y 0 then PInf else NInf
  | _, _ => NaN
  end.

(** [Math.abs], [Math.min], [Math.max], [Math.floor], [Math.sqrt]. *)
Definition abs (a : num) : num :=
  match a with
  | Fin r => Fin (Rabs r)
  | PInf | NInf => PInf
  | NaN => NaN
  end.

Definition lt (a b : num) : bool :=
  match a, b with
  | NaN, _ => false
  | _, NaN => false
  | Fin x, Fin y => Rltb x y
  | NInf, NInf => false
  | NInf, _ => true
  | _, PInf => match a with PInf => false | _ => true end
  | _, _ => false
  end.

Definition gt (a b : num) : bool := lt b a.

Definition le (a b : num) : bool :=
  match a, b with
  | NaN, _ => false
  | _, NaN => false
  | Fin x, Fin y => Rleb x y
  | NInf, _ => true
  | _, PInf => true
  | _, _ => false
  end.

(** Strict equality [===] on numbers. *)
Definition eqb (a b : num) : bool :=
  match a, b with
  | Fin x, Fin y => Reqb x y
  | PInf, PInf => true
  | NInf, NInf => true
  | _, _ => false
  end.

Definition min (a b : num) : num :=
  match a, b with
  | NaN, _ => NaN
  | _, NaN => NaN
  | _, _ => if lt b a then b else a
  end.

Definition max (a b : num) : num :=
  match a, b with
  | NaN, _ => NaN
  | _, NaN => NaN
  | _, _ => if lt a b then b else a
  end.

Definition floor (a : num) : num :=
  match a with
  | Fin r => Fin (IZR (Int_part r))
  | _ => a
  end.

Definition sqrt (a : num) : num :=
  match a with
  | Fin r => if Rltb r 0 then NaN else Fin (R_sqrt.sqrt r)
  | PInf => PInf
  | _ => NaN
  end.

(** Truthiness of a number, and the [||] operator on numbers. *)
Definition truthy (a : num) : bool :=
  match a with
  | Fin r => negb (Reqb r 0)
  | NaN => false
  | _ => true
  end.

Definition or_else (a b : num) : num := if truthy a then a else b.

(** Array reads.  [get l i] is [l[i]] for an integer [i]; [None] is
    undefined.  [toNum] is the coercion arithmetic applies to the read. *)
Definition get {A : Type} (l : list A) (i : Z) : option A :=
  if (i <? 0)%Z then None else nth_error l (Z.to_nat i).

Definition toNum (v : option num) : num :=
  match v with
  | Some n => n
  | None => NaN
  end.

Definition getN (l : list num) (i : Z) : num := toNum (get l i).

(** Comparison of two array reads: an undefined side compares as NaN. *)
Definition gtv (a b : option num) : bool := gt (toNum a) (toNum b).
Definition ltv (a b : option num) : bool := lt (toNum a) (toNum b).

Definition len {A : Type} (l : list A) : Z := Z.of_nat (length l).

(** The index range of [for (let i = lo; i < hi; i++)]. *)
Definition range (lo hi : Z) : list Z :=
  map (fun k => (lo + Z.of_nat k)%Z) (seq 0 (Z.to_nat (hi - lo))).

(** [l.slice(start, end)] and [l.slice(start)], negative indexes counting
    from the end. *)
Definition rel_index (n k : Z) : Z :=
  if (k <? 0)%Z then Z.max (n + k) 0 else Z.min k n.

Definition slice {A : Type} (l : list A) (s e : Z) : list A :=
  let n := len l in
  let from := rel_index n s in
  let to := rel_index n e in
  firstn (Z.to_nat (to - from)) (skipn (Z.to_nat from) l).

Definition slice_from {A : Type} (l : list A) (s : Z) : list A :=
  slice l s (len l).

(** [l.reduce((sum, x) => sum + x, 0)]. *)
Definition sum (l : list num) : num := fold_left add l (Fin 0).

(** What a method call produces: a value, or a thrown [Error]. *)
Inductive result (A : Type) : Type :=
| Ok (a : A)
| Throw (msg : string).
Arguments Ok {A} a.
Arguments Throw {A} msg.

(** The members every object literal inherits from [Object.prototype].
    Looked up under one of these names, an object literal answers with a
    function or an object, which is truthy, and which converts to NaN
    where a number is expected. *)
Definition inherited_member (name : string) : bool :=
  existsb (String.eqb name)
    ["constructor"; "hasOwnProperty"; "isPrototypeOf";
     "propertyIsEnumerable"; "toLocaleString"; "toString"; "valueOf";
     "__defineGetter__"; "__defineSetter__"; "__lookupGetter__";
     "__lookupSetter__"; "__proto__"]%string.

End JS.

Import JS.

(** A candle as the tools build it from a provider quote.  The historical
    tools add the [date] field; the technical tools never read it. *)
Record Candle : Type := mkCandle {
  timestamp : string;
  date : string;
  open : R;
  high : R;
  low : R;
  close : R;
  volume : R
}.

Definition closes (data : list Candle) : list num :=
  map (fun d => Fin (close d)) data.

(* ------------------------------------------------------------------ *)
(** ** Technical analysis tools: RSI, EMA, MACD, signal aggregation *)

Module TechnicalAnalysis.

Record RSIResult : Type := mkRSI {
  current_value : option num;
  rsi_signal : string;
  strength : num;
  historical_values : list num
}.

(** [data[i].close - data[i - 1].close] for [i = 1 .. length - 1]. *)
Fixpoint changes (prices : list num) : list num :=
  match prices with
  | [] => []
  | p :: rest =>
      match rest with
      | [] => []
      | q :: _ => sub q p :: changes rest
      end
  end.

Definition gain_of (change : num) : num :=
  if gt change (Fin 0) then change else Fin 0.

Definition loss_of (change : num) : num :=
  if lt change (Fin 0) then abs change else Fin 0.

(** State of the smoothing loop: the two averages and the values pushed
    so far. *)
Record RSIState : Type := mkRSIState {
  avgGain : num;
  avgLoss : num;
  rsiValues : list num
}.

Definition smooth (avg : num) (period : Z) (x : num) : num :=
  div (add (mul avg (sub (ofZ period) (Fin 1))) x) (ofZ period).

Definition rsi_of (g l : num) : num :=
  let rs := div g (or_else l (Fin 0.01)) in
  sub (Fin 100) (div (Fin 100) (add (Fin 1) rs)).

Definition rsi_step (period : Z) (gains losses : list num)
    (st : RSIState) (i : Z) : RSIState :=
  let g := smooth (avgGain st) period (getN gains i) in
  let l := smooth (avgLoss st) period (getN losses i) in
  mkRSIState g l (rsiValues st ++ [rsi_of g l]).

Definition rsi_class (currentRSI : option num) : string :=
  if gtv currentRSI (Some (Fin 70)) then "overbought"%string
  else if ltv currentRSI (Some (Fin 30)) then "oversold"%string
  else "neutral"%string.

Definition calculateRSI (data : list Candle) (period : Z) : result RSIResult :=
  if (len data <? period + 1)%Z then
    Throw "Insufficient data for RSI calculation"
  else
    let cs := changes (closes data) in
    let gains := map gain_of cs in
    let losses := map loss_of cs in
    let g0 := div (sum (slice gains 0 period)) (ofZ period) in
    let l0 := div (sum (slice losses 0 period)) (ofZ period) in
    let st := fold_left (rsi_step period gains losses)
                (range period (len gains)) (mkRSIState g0 l0 []) in
    let currentRSI := get (rsiValues st) (len (rsiValues st) - 1) in
    Ok (mkRSI currentRSI
          (rsi_class currentRSI)
          (div (abs (sub (Fin 50) (toNum currentRSI))) (Fin 50))
          (slice_from (rsiValues st) (-10))).

(** [ema = (prices[i] - emaValues[i - 1]) * multiplier + emaValues[i - 1]]. *)
Fixpoint ema_from (multiplier prev : num) (prices : list num) : list num :=
  match prices with
  | [] => []
  | p :: rest =>
      let ema := add (mul (sub p prev) multiplier) prev in
      ema :: ema_from multiplier ema rest
  end.

(** The result starts with [prices[0]].  For an empty input that read is
    undefined and the source returns a one-element array holding it; the
    element is kept as NaN, which is what every use of it computes with. *)
Definition calculateEMAValues (prices : list num) (period : Z) : list num :=
  let multiplier := div (Fin 2) (add (ofZ period) (Fin 1)) in
  match prices with
  | [] => [NaN]
  | p0 :: rest => p0 :: ema_from multiplier p0 rest
  end.

Definition calculateTrendDirection (values : list num) : string :=
  if (len values <? 2)%Z then "unknown"%string
  else
    let first := getN values 0 in
    let last := getN values (len values - 1) in
    let change := div (sub last first) first in
    if gt change (Fin 0.02) then "up"%string
    else if lt change (Fin (- 0.02)) then "down"%string
    else "sideways"%string.

Definition detectMACDCrossover (macdLine signalLine : list num) : string :=
  if ((len macdLine <? 2) || (len signalLine <? 2))%Z then "none"%string
  else
    let currentMACD := getN macdLine (len macdLine - 1) in
    let previousMACD := getN macdLine (len macdLine - 2) in
    let currentSignal := getN signalLine (len signalLine - 1) in
    let previousSignal := getN signalLine (len signalLine - 2) in
    if lt previousMACD previousSignal && gt currentMACD currentSignal
    then "bullish"%string
    else if gt previousMACD previousSignal && lt currentMACD currentSignal
    then "bearish"%string
    else "none"%string.

Definition detectMACDDivergence (priceData : list Candle)
    (macdLine : list num) : string :=
  if ((len priceData <? 10) || (len macdLine <? 10))%Z then "none"%string
  else
    let recentPrices := closes (slice_from priceData (-10)) in
    let recentMACD := slice_from macdLine (-10) in
    let priceDirection := calculateTrendDirection recentPrices in
    let macdDirection := calculateTrendDirection recentMACD in
    if String.eqb priceDirection "up" && String.eqb macdDirection "down"
    then "bearish"%string
    else if String.eqb priceDirection "down" && String.eqb macdDirection "up"
    then "bullish"%string
    else "none"%string.

Record MACDResult : Type := mkMACD {
  macd_line : option num;
  signal_line : option num;
  histogram : option num;
  macd_signal : string;
  crossover : string;
  divergence : string
}.

Definition macd_values (fastEMA slowEMA : list num)
    (fastPeriod slowPeriod : Z) : list num :=
  map (fun i => sub (getN fastEMA i)
                    (getN slowEMA (i - (fastPeriod - slowPeriod))))
      (range (slowPeriod - 1) (len fastEMA)).

Definition histogram_values (macdLine signalLine : list num)
    (signalPeriod : Z) : list num :=
  map (fun i => sub (getN macdLine i)
                    (getN signalLine (i - (signalPeriod - 1))))
      (range (signalPeriod - 1) (len macdLine)).

Definition calculateMACD (data : list Candle)
    (fastPeriod slowPeriod signalPeriod : Z) : result MACDResult :=
  if (len data <? slowPeriod + signalPeriod)%Z then
    Throw "Insufficient data for MACD calculation"
  else
    let prices := closes data in
    let fastEMA := calculateEMAValues prices fastPeriod in
    let slowEMA := calculateEMAValues prices slowPeriod in
    let macdLine := macd_values fastEMA slowEMA fastPeriod slowPeriod in
    let signalLine := calculateEMAValues macdLine signalPeriod in
    let hist := histogram_values macdLine signalLine signalPeriod in
    let currentMACD := get macdLine (len macdLine - 1) in
    let currentSignal := get signalLine (len signalLine - 1) in
    let currentHistogram := get hist (len hist - 1) in
    Ok (mkMACD currentMACD currentSignal currentHistogram
          (if gtv currentMACD currentSignal
           then "bullish"%string else "bearish"%string)
          (detectMACDCrossover macdLine signalLine)
          (detectMACDDivergence data macdLine)).

(** The default periods of [calculateMACD]. *)
Definition calculateMACD_default (data : list Candle) : result MACDResult :=
  calculateMACD data 12 26 9.

(** A weighted signal as [generateIndicatorSignals], [generateTrendSignals]
    and [generateVolumeSignals] build it. *)
Record Signal : Type := mkSignal {
  type : string;
  indicator : string;
  signal : string;
  weight : num
}.

Definition is_bullish (s : Signal) : bool :=
  String.eqb (signal s) "bullish" || String.eqb (signal s) "buy".

Definition is_bearish (s : Signal) : bool :=
  String.eqb (signal s) "bearish" || String.eqb (signal s) "sell".

(** [thresholds[strategy] || 60], as the number the comparisons see: an
    inherited member is truthy and compares as NaN. *)
Definition getSignalThreshold (strategy : string) : num :=
  if String.eqb strategy "conservative" then Fin 70
  else if String.eqb strategy "moderate" then Fin 60
  else if String.eqb strategy "aggressive" then Fin 55
  else if inherited_member strategy then NaN
  else Fin 60.

Record Scores : Type := mkScores {
  bullishScore : num;
  bearishScore : num;
  totalWeight : num
}.

Definition score_step (acc : Scores) (s : Signal) : Scores :=
  let total := add (totalWeight acc) (weight s) in
  if is_bullish s then
    mkScores (add (bullishScore acc) (weight s)) (bearishScore acc) total
  else if is_bearish s then
    mkScores (bullishScore acc) (add (bearishScore acc) (weight s)) total
  else
    mkScores (bullishScore acc) (bearishScore acc) total.

Record OverallSignal : Type := mkOverall {
  overall_signal : string;
  confidence : num
}.

Definition calculateOverallSignal (signals : list Signal)
    (strategy : string) : OverallSignal :=
  let acc := fold_left score_step signals
               (mkScores (Fin 0) (Fin 0) (Fin 0)) in
  let bullishPercentage :=
    mul (div (bullishScore acc) (totalWeight acc)) (Fin 100) in
  let bearishPercentage :=
    mul (div (bearishScore acc) (totalWeight acc)) (Fin 100) in
  let threshold := getSignalThreshold strategy in
  let conf := abs (sub bullishPercentage bearishPercentage) in
  mkOverall
    (if gt bullishPercentage threshold then "buy"%string
     else if gt bearishPercentage threshold then "sell"%string
     else "hold"%string)
    (min conf (Fin 100)).

(** The two percentages as the aggregation rule words them: the weight of
    the signals of one direction over the weight of all signals, times
    100. *)
Definition weight_of (p : Signal -> bool) (signals : list Signal) : num :=
  sum (map weight (filter p signals)).

Definition bullish_percent (signals : list Signal) : num :=
  mul (div (weight_of is_bullish signals) (sum (map weight signals)))
      (Fin 100).

Definition bearish_percent (signals : list Signal) : num :=
  mul (div (weight_of is_bearish signals) (sum (map weight signals)))
      (Fin 100).

(** *** Moving averages and bands *)

(** [Math.pow(x, 2)]. *)
Definition sq (x : num) : num := mul x x.

(** [values.slice(i - period + 1, i + 1)], the trailing window at [i]. *)
Definition window (values : list num) (period i : Z) : list num :=
  slice values (i - period + 1) (i + 1).

Definition sma_at (values : list num) (period i : Z) : num :=
  div (sum (window values period i)) (ofZ period).

Definition sma_values (values : list num) (period : Z) : list num :=
  map (sma_at values period) (range (period - 1) (len values)).

Record SMAResult : Type := mkSMA {
  sma_current_value : option num;
  sma_current_price : option num;
  price_vs_sma : num;
  sma_signal : string;
  sma_trend : string
}.

Definition price_signal (currentPrice currentAverage : option num) : string :=
  if gtv currentPrice currentAverage then "bullish"%string
  else "bearish"%string.

Definition price_vs (currentPrice currentAverage : option num) : num :=
  mul (div (sub (toNum currentPrice) (toNum currentAverage))
           (toNum currentAverage))
      (Fin 100).

Definition calculateSMA (data : list Candle) (period : Z) : result SMAResult :=
  if (len data <? period)%Z then
    Throw "Insufficient data for SMA calculation"
  else
    let prices := closes data in
    let smaValues := sma_values prices period in
    let currentSMA := get smaValues (len smaValues - 1) in
    let currentPrice := get prices (len prices - 1) in
    Ok (mkSMA currentSMA currentPrice
          (price_vs currentPrice currentSMA)
          (price_signal currentPrice currentSMA)
          (calculateTrendDirection (slice_from smaValues (-5)))).

Record EMAResult : Type := mkEMA {
  ema_current_value : option num;
  ema_current_price : option num;
  price_vs_ema : num;
  ema_signal : string;
  ema_trend : string
}.

(** [calculateEMA] has no length guard.  On an empty input the one stored
    element is the undefined [prices[0]], read back as undefined. *)
Definition calculateEMA (data : list Candle) (period : Z) : EMAResult :=
  let prices := closes data in
  let emaValues := calculateEMAValues prices period in
  let currentEMA :=
    match prices with
    | [] => None
    | _ => get emaValues (len emaValues - 1)
    end in
  let currentPrice := get prices (len prices - 1) in
  mkEMA currentEMA currentPrice
        (price_vs currentPrice currentEMA)
        (price_signal currentPrice currentEMA)
        (calculateTrendDirection (slice_from emaValues (-5))).

(** One pass of the Bollinger loop: the values pushed to [smaValues],
    [upperBands] and [lowerBands] at index [i]. *)
Record Band : Type := mkBand {
  band_middle : num;
  band_upper : num;
  band_lower : num
}.

Definition band_at (prices : list num) (period : Z) (stdDev : num) (i : Z)
    : Band :=
  let w := window prices period i in
  let sma := div (sum w) (ofZ period) in
  let variance :=
    div (fold_left (fun s price => add s (sq (sub price sma))) w (Fin 0))
        (ofZ period) in
  let standardDeviation := sqrt variance in
  mkBand sma
         (add sma (mul standardDeviation stdDev))
         (sub sma (mul standardDeviation stdDev)).

Record BollingerResult : Type := mkBollinger {
  upper_band : option num;
  middle_band : option num;
  lower_band : option num;
  bb_current_price : option num;
  band_width : num;
  price_position : num;
  bb_signal : string;
  squeeze : string
}.

Definition calculateBollingerBands (data : list Candle) (period : Z)
    (stdDev : num) : result BollingerResult :=
  if (len data <? period)%Z then
    Throw "Insufficient data for Bollinger Bands calculation"
  else
    let prices := closes data in
    let bands := map (band_at prices period stdDev)
                     (range (period - 1) (len prices)) in
    let last := get bands (len bands - 1) in
    let currentPrice := get prices (len prices - 1) in
    let currentUpper := option_map band_upper last in
    let currentMiddle := option_map band_middle last in
    let currentLower := option_map band_lower last in
    let bandWidth :=
      mul (div (sub (toNum currentUpper) (toNum currentLower))
               (toNum currentMiddle))
          (Fin 100) in
    let pricePosition :=
      mul (div (sub (toNum currentPrice) (toNum currentLower))
               (sub (toNum currentUpper) (toNum currentLower)))
          (Fin 100) in
    Ok (mkBollinger currentUpper currentMiddle currentLower currentPrice
          bandWidth pricePosition
          (if gt pricePosition (Fin 80) then "overbought"%string
           else if lt pricePosition (Fin 20) then "oversold"%string
           else "neutral"%string)
          (if lt bandWidth (Fin 10) then "tight"%string
           else if gt bandWidth (Fin 20) then "wide"%string
           else "normal"%string)).

Record VolumeSMAResult : Type := mkVolumeSMA {
  vs_current_volume : option num;
  volume_sma : option num;
  volume_vs_average : num;
  vs_signal : string;
  vs_trend : string
}.

Definition volumes (data : list Candle) : list num :=
  map (fun d => Fin (volume d)) data.

Definition calculateVolumeSMA (data : list Candle) (period : Z)
    : result VolumeSMAResult :=
  if (len data <? period)%Z then
    Throw "Insufficient data for Volume SMA calculation"
  else
    let vols := volumes data in
    let volumeSMAValues := sma_values vols period in
    let currentVolume := get vols (len vols - 1) in
    let currentVolumeSMA := get volumeSMAValues (len volumeSMAValues - 1) in
    Ok (mkVolumeSMA currentVolume currentVolumeSMA
          (price_vs currentVolume currentVolumeSMA)
          (if gt (toNum currentVolume)
                 (mul (toNum currentVolumeSMA) (Fin 1.5))
           then "high"%string
           else if lt (toNum currentVolume)
                      (mul (toNum currentVolumeSMA) (Fin 0.5))
           then "low"%string
           else "normal"%string)
          (calculateTrendDirection (slice_from volumeSMAValues (-5)))).

(** *** Price action *)

(** [Math.floor(prices.length / 2)] splits the series in two halves. *)
Definition determineTrendDirection (prices : list num) : string :=
  let half := (len prices / 2)%Z in
  let firstHalf := slice prices 0 half in
  let secondHalf := slice_from prices half in
  let firstAvg := div (sum firstHalf) (ofZ (len firstHalf)) in
  let secondAvg := div (sum secondHalf) (ofZ (len secondHalf)) in
  if gt secondAvg (mul firstAvg (Fin 1.05)) then "bullish"%string
  else if lt secondAvg (mul firstAvg (Fin 0.95)) then "bearish"%string
  else "sideways"%string.

Record VolumeProfile : Type := mkVolumeProfile {
  vp_current_volume : option num;
  average_volume : num;
  volume_trend : string;
  volume_spike : bool;
  volume_ratio : num
}.

Definition analyzeVolumeProfile (data : list Candle) : VolumeProfile :=
  let vols := volumes data in
  let avgVolume := div (sum vols) (ofZ (len vols)) in
  let currentVolume := get vols (len vols - 1) in
  mkVolumeProfile currentVolume avgVolume
    (calculateTrendDirection (slice_from vols (-10)))
    (gt (toNum currentVolume) (mul avgVolume (Fin 2)))
    (div (toNum currentVolume) avgVolume).

(** The fields of [analyzePriceAction] the signal generation reads, after
    its length guard; the outer [catch] re-throws under the tool's
    prefix. *)
Record PriceAction : Type := mkPriceAction {
  pa_current_price : option num;
  trend_direction : string;
  short_term : string;
  medium_term : string;
  long_term : string;
  volume_analysis : VolumeProfile
}.

Definition analyzePriceAction (symbol : string) (historicalData : list Candle)
    : result PriceAction :=
  if (len historicalData <? 20)%Z then
    Throw ("Failed to analyze price action for " ++ symbol ++
           ": Error: Insufficient data for price action analysis")%string
  else
    let prices := closes historicalData in
    Ok (mkPriceAction
          (get prices (len prices - 1))
          (determineTrendDirection prices)
          (calculateTrendDirection (slice_from prices (-7)))
          (calculateTrendDirection (slice_from prices (-20)))
          (calculateTrendDirection prices)
          (analyzeVolumeProfile historicalData)).

(** *** Indicator set and trading signals *)

Inductive IndicatorData : Type :=
| RSIData (r : RSIResult)
| MACDData (r : MACDResult)
| SMAData (r : SMAResult)
| EMAData (r : EMAResult)
| BollingerData (r : BollingerResult)
| VolumeSMAData (r : VolumeSMAResult)
| ErrorData (error : string).

(** [data.signal] and [data.error]; a missing property is [None]. *)
Definition data_signal (d : IndicatorData) : option string :=
  match d with
  | RSIData r => Some (rsi_signal r)
  | MACDData r => Some (macd_signal r)
  | SMAData r => Some (sma_signal r)
  | EMAData r => Some (ema_signal r)
  | BollingerData r => Some (bb_signal r)
  | VolumeSMAData r => Some (vs_signal r)
  | ErrorData _ => None
  end.

Definition data_error (d : IndicatorData) : option string :=
  match d with
  | ErrorData e => Some e
  | _ => None
  end.

(** The [try]/[catch] around one indicator. *)
Definition attempt {A : Type} (wrap : A -> IndicatorData) (r : result A)
    : IndicatorData :=
  match r with
  | Ok a => wrap a
  | Throw msg => ErrorData ("Calculation failed: Error: " ++ msg)
  end.

(** The [switch] over the indicator name; other names assign nothing.
    Bollinger bands take the default multiplier 2, MACD its default
    periods. *)
Definition compute_indicator (data : list Candle) (period : Z)
    (name : string) : option IndicatorData :=
  if String.eqb name "rsi" then
    Some (attempt RSIData (calculateRSI data period))
  else if String.eqb name "macd" then
    Some (attempt MACDData (calculateMACD_default data))
  else if String.eqb name "sma" then
    Some (attempt SMAData (calculateSMA data period))
  else if String.eqb name "ema" then
    Some (EMAData (calculateEMA data period))
  else if String.eqb name "bollinger" then
    Some (attempt BollingerData (calculateBollingerBands data period (Fin 2)))
  else if String.eqb name "volume_sma" then
    Some (attempt VolumeSMAData (calculateVolumeSMA data period))
  else None.

(** [obj[key] = v] on an object kept in insertion order. *)
Fixpoint obj_set {V : Type} (key : string) (v : V)
    (obj : list (string * V)) : list (string * V) :=
  match obj with
  | [] => [(key, v)]
  | (k, old) :: rest =>
      if String.eqb k key then (k, v) :: rest
      else (k, old) :: obj_set key v rest
  end.

Definition show_Z (z : Z) : string := NilZero.string_of_int (Z.to_int z).

(** [calculateTechnicalIndicators] once the candles are fetched: its
    guard, then one entry per requested indicator. *)
Definition calculateTechnicalIndicators (symbol : string)
    (historicalData : list Candle) (indicators : list string) (period : Z)
    : result (list (string * IndicatorData)) :=
  if (len historicalData <? period + 5)%Z then
    Throw ("Failed to calculate technical indicators for " ++ symbol ++
           ": Error: Insufficient data for calculation. Need at least " ++
           show_Z (period + 5) ++ " data points.")%string
  else
    Ok (fold_left
          (fun obj name =>
             match compute_indicator historicalData period name with
             | Some d => obj_set name d obj
             | None => obj
             end)
          indicators []).

(** [name.toUpperCase()] on the ASCII names of the indicators. *)
Definition upper_char (c : ascii) : ascii :=
  let n := nat_of_ascii c in
  if (97 <=? n)%nat && (n <=? 122)%nat then ascii_of_nat (n - 32) else c.

Fixpoint toUpperCase (s : string) : string :=
  match s with
  | EmptyString => EmptyString
  | String c rest => String (upper_char c) (toUpperCase rest)
  end.

(** [weights[strategy]?.[indicator] || 0.2] and its two siblings, for
    names that are not members inherited by every object literal. *)
Definition getIndicatorWeight (name strategy : string) : num :=
  let row (rsi macd sma ema bollinger : R) : num :=
    if String.eqb name "rsi" then Fin rsi
    else if String.eqb name "macd" then Fin macd
    else if String.eqb name "sma" then Fin sma
    else if String.eqb name "ema" then Fin ema
    else if String.eqb name "bollinger" then Fin bollinger
    else Fin 0.2 in
  if String.eqb strategy "conservative" then row 0.3 0.4 0.3 0.2 0.1
  else if String.eqb strategy "moderate" then row 0.25 0.35 0.2 0.25 0.15
  else if String.eqb strategy "aggressive" then row 0.2 0.3 0.15 0.3 0.2
  else Fin 0.2.

Definition getTrendWeight (strategy : string) : num :=
  if String.eqb strategy "conservative" then Fin 0.4
  else if String.eqb strategy "moderate" then Fin 0.3
  else if String.eqb strategy "aggressive" then Fin 0.2
  else Fin 0.3.

Definition getVolumeWeight (strategy : string) : num :=
  if String.eqb strategy "conservative" then Fin 0.2
  else if String.eqb strategy "moderate" then Fin 0.2
  else if String.eqb strategy "aggressive" then Fin 0.3
  else Fin 0.2.

(** An entry becomes a signal when [data && data.signal && !data.error]:
    it has a non-empty signal and no error. *)
Definition indicator_signal (strategy : string)
    (entry : string * IndicatorData) : list Signal :=
  match data_signal (snd entry), data_error (snd entry) with
  | Some sig, None =>
      if String.eqb sig "" then []
      else [mkSignal "technical_indicator" (toUpperCase (fst entry)) sig
              (getIndicatorWeight (fst entry) strategy)]
  | _, _ => []
  end.

Definition generateIndicatorSignals (indicators : list (string * IndicatorData))
    (strategy : string) : list Signal :=
  flat_map (indicator_signal strategy) indicators.

Definition generateTrendSignals (direction strategy : string) : list Signal :=
  [mkSignal "trend" "TREND_ANALYSIS" direction (getTrendWeight strategy)].

Definition generateVolumeSignals (volumeTrend strategy : string)
    : list Signal :=
  [mkSignal "volume" "VOLUME_ANALYSIS" volumeTrend (getVolumeWeight strategy)].

(** [s.signal === 'bullish' || s.signal === 'buy'] and its bearish
    twin, on signals that may be undefined. *)
Definition calculateOverallSentiment (signals : list (option string))
    : string :=
  let reads (a b : string) (s : option string) : bool :=
    match s with
    | Some x => String.eqb x a || String.eqb x b
    | None => false
    end in
  let bullishCount :=
    length (filter (reads "bullish"%string "buy"%string) signals) in
  let bearishCount :=
    length (filter (reads "bearish"%string "sell"%string) signals) in
  if (bearishCount <? bullishCount)%nat then "bullish"%string
  else if (bullishCount <? bearishCount)%nat then "bearish"%string
  else "neutral"%string.

(** [obj[key]]; a missing property is undefined. *)
Definition obj_get {V : Type} (key : string) (obj : list (string * V))
    : option V :=
  match find (fun e => String.eqb (fst e) key) obj with
  | Some e => Some (snd e)
  | None => None
  end.

(** [data.current_value]; the MACD, Bollinger and volume results and the
    error entry have no such property. *)
Definition data_current_value (d : IndicatorData) : option num :=
  match d with
  | RSIData r => current_value r
  | SMAData r => sma_current_value r
  | EMAData r => ema_current_value r
  | _ => None
  end.

(** [!data.error]: no error property, or an empty one. *)
Definition has_no_error (d : IndicatorData) : bool :=
  match data_error d with
  | None => true
  | Some e => String.eqb e ""
  end.

(** [analyzeCurrentTechnicals]: the RSI and MACD entries, computed or
    failed, each with its [signal] property, and the sentiment over
    them.  The [strength] copied beside each signal is left out. *)
Record CurrentAnalysis : Type := mkCurrent {
  ca_signals : list (string * option string);
  overall_sentiment : string
}.

Definition analyzeCurrentTechnicals
    (indicators : list (string * IndicatorData)) : CurrentAnalysis :=
  let rsi :=
    match obj_get "rsi" indicators with
    | Some d => [("RSI"%string, data_signal d)]
    | None => []
    end in
  let macd :=
    match obj_get "macd" indicators with
    | Some d => [("MACD"%string, data_signal d)]
    | None => []
    end in
  let signals := rsi ++ macd in
  mkCurrent signals (calculateOverallSentiment (map snd signals)).

(** [calculateTechnicalStrengthScore] over the indicator object and the
    price action of one symbol. *)
Record StrengthScore : Type := mkStrength {
  overall_score : num;
  breakdown : list (string * num);
  momentum : string
}.

Definition calculateTechnicalStrengthScore
    (technical : list (string * IndicatorData)) (priceAction : PriceAction)
    : StrengthScore :=
  let usable (key : string) : option IndicatorData :=
    match obj_get key technical with
    | Some d => if has_no_error d then Some d else None
    | None => None
    end in
  let rsiScore :=
    option_map
      (fun d => sub (Fin 100)
                    (abs (sub (toNum (data_current_value d)) (Fin 50))))
      (usable "rsi"%string) in
  let macdScore :=
    option_map
      (fun d =>
         match data_signal d with
         | Some sig => if String.eqb sig "bullish" then Fin 75 else Fin 25
         | None => Fin 25
         end)
      (usable "macd"%string) in
  let trendScore :=
    if String.eqb (trend_direction priceAction) "bullish" then Fin 80
    else if String.eqb (trend_direction priceAction) "bearish" then Fin 20
    else Fin 50 in
  let contribution (part : option num) (factor : R) (score : num) : num :=
    match part with
    | Some v => add score (mul (sub v (Fin 50)) (Fin factor))
    | None => score
    end in
  let score :=
    add (contribution macdScore 0.3 (contribution rsiScore 0.2 (Fin 50)))
        (mul (sub trendScore (Fin 50)) (Fin 0.4)) in
  let entry (key : string) (part : option num) : list (string * num) :=
    match part with
    | Some v => [(key, v)]
    | None => []
    end in
  mkStrength
    (max (Fin 0) (min (Fin 100) score))
    (entry "rsi"%string rsiScore ++ entry "macd"%string macdScore ++
     [("trend"%string, trendScore)])
    (if gt score (Fin 60) then "strong"%string
     else if lt score (Fin 40) then "weak"%string
     else "moderate"%string).

Record Recommendation : Type := mkRecommendation {
  action : string;
  rec_confidence : num;
  reasoning : string
}.

Definition generateActionableRecommendations (overall : OverallSignal)
    : list Recommendation :=
  if String.eqb (overall_signal overall) "buy" then
    [mkRecommendation "Consider buying" (confidence overall)
       "Technical indicators show bullish signals"]
  else if String.eqb (overall_signal overall) "sell" then
    [mkRecommendation "Consider selling" (confidence overall)
       "Technical indicators show bearish signals"]
  else
    [mkRecommendation "Hold position" (confidence overall)
       "Mixed signals suggest waiting for clearer direction"].

Record TradingSignals : Type := mkTrading {
  ts_signals : list Signal;
  ts_overall_signal : string;
  confidence_score : num;
  ts_recommendations : list Recommendation
}.

Definition failed_trading (symbol inner : string) : string :=
  ("Failed to generate trading signals for " ++ symbol ++ ": Error: "
   ++ inner)%string.

(** [generateTradingSignals] from the candles its two sub-analyses work
    on ([technicalCandles] for the indicators, [priceCandles] for the price
    action; both come from the same symbol and timeframe).  The signal
    breakdown and risk assessment added under [include_confidence] are
    outside. *)
Definition generateTradingSignals (symbol strategy : string)
    (technicalCandles priceCandles : list Candle) : result TradingSignals :=
  match calculateTechnicalIndicators symbol technicalCandles
          ["rsi"; "macd"; "sma"; "ema"; "bollinger"]%string 14 with
  | Throw msg => Throw (failed_trading symbol msg)
  | Ok indicators =>
      match analyzePriceAction symbol priceCandles with
      | Throw msg => Throw (failed_trading symbol msg)
      | Ok priceAction =>
          let signals :=
            generateIndicatorSignals indicators strategy ++
            generateTrendSignals (trend_direction priceAction) strategy ++
            generateVolumeSignals
              (volume_trend (volume_analysis priceAction)) strategy in
          let overall := calculateOverallSignal signals strategy in
          Ok (mkTrading signals (overall_signal overall) (confidence overall)
                (generateActionableRecommendations overall))
      end
  end.

(** The signal list of one run of [generateTradingSignals]: one signal
    per computed indicator (MACD is absent when its calculation failed),
    then the trend and the volume signal. *)
Definition run_signals (strategy rsi : string) (macd : list string)
    (sma ema bollinger trend volume : string) : list Signal :=
  [mkSignal "technical_indicator" "RSI" rsi
     (getIndicatorWeight "rsi" strategy)] ++
  map (fun m => mkSignal "technical_indicator" "MACD" m
                  (getIndicatorWeight "macd" strategy)) macd ++
  [mkSignal "technical_indicator" "SMA" sma
     (getIndicatorWeight "sma" strategy);
   mkSignal "technical_indicator" "EMA" ema
     (getIndicatorWeight "ema" strategy);
   mkSignal "technical_indicator" "BOLLINGER" bollinger
     (getIndicatorWeight "bollinger" strategy)] ++
  generateTrendSignals trend strategy ++
  generateVolumeSignals volume strategy.

(** The signals whose direction can be bullish or bearish. *)
Definition directional (s : Signal) : bool :=
  String.eqb (indicator s) "MACD" || String.eqb (indicator s) "SMA" ||
  String.eqb (indicator s) "EMA" || String.eqb (indicator s) "TREND_ANALYSIS".

(** The signals that can read 'bullish': the two price-against-average
    comparisons and the trend of the two halves. *)
Definition can_be_bullish (s : Signal) : bool :=
  String.eqb (indicator s) "SMA" || String.eqb (indicator s) "EMA" ||
  String.eqb (indicator s) "TREND_ANALYSIS".

(** The weight of a signal as a real, 0 when it is not finite. *)
Definition weight_value (s : Signal) : R :=
  match weight s with
  | Fin r => r
  | _ => 0
  end.

End TechnicalAnalysis.

(* ------------------------------------------------------------------ *)
(** ** Historical analysis tools: returns, VaR, drawdown, beta, correlation *)

Module HistoricalAnalysis.

(** [[...l].sort(cmp)]: [x] goes before [y] unless [cmp(x, y) > 0]. *)
Fixpoint insert_by (cmp : num -> num -> num) (x : num) (l : list num)
    : list num :=
  match l with
  | [] => [x]
  | y :: rest =>
      if gt (cmp x y) (Fin 0) then y :: insert_by cmp x rest
      else x :: y :: rest
  end.

Definition sort_by (cmp : num -> num -> num) (l : list num) : list num :=
  fold_right (insert_by cmp) [] l.

(** [l[i]] for an index that is itself a number. *)
Definition get_at (l : list num) (i : num) : option num :=
  match i with
  | Fin r => if Reqb r (IZR (Int_part r)) then get l (Int_part r) else None
  | _ => None
  end.

(** [Math.pow(x, n)] for a whole exponent [n >= 1], as a product. *)
Fixpoint pow_n (x : num) (n : nat) : num :=
  match n with
  | O => Fin 1
  | S O => x
  | S n' => mul x (pow_n x n')
  end.

(** [Math.pow(x, 2)]. *)
Definition pow2 (x : num) : num := mul x x.

Fixpoint returns_of (prices : list num) : list num :=
  match prices with
  | [] => []
  | p :: rest =>
      match rest with
      | [] => []
      | q :: _ => div (sub q p) p :: returns_of rest
      end
  end.

Definition calculateReturns (data : list Candle) : list num :=
  returns_of (closes data).

Definition mean_of (l : list num) : num := div (sum l) (ofZ (len l)).

Definition calculateVariance (returns : list num) : num :=
  let mean := mean_of returns in
  div (fold_left (fun s ret => add s (pow2 (sub ret mean))) returns (Fin 0))
      (ofZ (len returns)).

Definition calculateVolatility (returns : list num) : num :=
  sqrt (calculateVariance returns).

Record DrawdownDescriptor : Type := mkDrawdown {
  max_drawdown_percent : num;
  peak_price : option num;
  trough_price : option num;
  start_date : string;
  end_date : string;
  duration_days : num
}.

Record DDState : Type := mkDD {
  maxDrawdown : num;
  peak : option num;
  peakIndex : Z;
  troughIndex : Z;
  maxDrawdownStart : string;
  maxDrawdownEnd : string
}.

(** [data[i].date]; the loop only reads indexes inside the array. *)
Definition date_at (data : list Candle) (i : Z) : string :=
  match get data i with
  | Some d => date d
  | None => ""%string
  end.

Definition dd_step (data : list Candle) (prices : list num)
    (st : DDState) (i : Z) : DDState :=
  let st1 :=
    if gtv (get prices i) (peak st)
    then mkDD (maxDrawdown st) (get prices i) i (troughIndex st)
              (maxDrawdownStart st) (maxDrawdownEnd st)
    else st in
  let drawdown :=
    div (sub (toNum (peak st1)) (getN prices i)) (toNum (peak st1)) in
  if gt drawdown (maxDrawdown st1)
  then mkDD drawdown (peak st1) (peakIndex st1) i
            (date_at data (peakIndex st1)) (date_at data i)
  else st1.

Definition dd_loop (data : list Candle) : DDState :=
  let prices := closes data in
  fold_left (dd_step data prices) (range 1 (len prices))
    (mkDD (Fin 0) (get prices 0) 0 0 ""%string ""%string).

Definition calculateMaxDrawdown (data : list Candle) : DrawdownDescriptor :=
  let prices := closes data in
  let st := dd_loop data in
  mkDrawdown (mul (maxDrawdown st) (Fin 100))
             (peak st)
             (get prices (troughIndex st))
             (maxDrawdownStart st)
             (maxDrawdownEnd st)
             (ofZ (troughIndex st - peakIndex st)).

(** [returns1.reduce((sum, ret, i) => sum + (ret - mean1) * (returns2[i] - mean2), 0)]. *)
Definition calculateCovariance (returns1 returns2 : list num) : num :=
  let mean1 := mean_of returns1 in
  let mean2 := mean_of returns2 in
  div (fold_left
         (fun s ir => add s (mul (sub (snd ir) mean1)
                                 (sub (getN returns2 (fst ir)) mean2)))
         (combine (range 0 (len returns1)) returns1) (Fin 0))
      (ofZ (len returns1)).

Definition calculateBeta (returns benchmarkReturns : list num) : num :=
  if negb (len returns =? len benchmarkReturns)%Z || (len returns <? 2)%Z
  then Fin 1
  else
    let minLength := Z.min (len returns) (len benchmarkReturns) in
    let assetReturns := slice_from returns (- minLength) in
    let marketReturns := slice_from benchmarkReturns (- minLength) in
    let covariance := calculateCovariance assetReturns marketReturns in
    let marketVariance := calculateVariance marketReturns in
    if eqb marketVariance (Fin 0) then Fin 1
    else div covariance marketVariance.

Record CorrState : Type := mkCorr {
  numerator : num;
  sumSquares1 : num;
  sumSquares2 : num
}.

Definition corr_step (r1 r2 : list num) (mean1 mean2 : num)
    (st : CorrState) (i : Z) : CorrState :=
  let diff1 := sub (getN r1 i) mean1 in
  let diff2 := sub (getN r2 i) mean2 in
  mkCorr (add (numerator st) (mul diff1 diff2))
         (add (sumSquares1 st) (mul diff1 diff1))
         (add (sumSquares2 st) (mul diff2 diff2)).

Definition calculateCorrelation (returns1 returns2 : list num) : num :=
  if negb (len returns1 =? len returns2)%Z || (len returns1 <? 2)%Z
  then Fin 0
  else
    let minLength := Z.min (len returns1) (len returns2) in
    let r1 := slice_from returns1 (- minLength) in
    let r2 := slice_from returns2 (- minLength) in
    let mean1 := mean_of r1 in
    let mean2 := mean_of r2 in
    let st := fold_left (corr_step r1 r2 mean1 mean2)
                (range 0 (len r1)) (mkCorr (Fin 0) (Fin 0) (Fin 0)) in
    let denominator := sqrt (mul (sumSquares1 st) (sumSquares2 st)) in
    if eqb denominator (Fin 0) then Fin 0
    else div (numerator st) denominator.

(** The rank [Math.floor((1 - confidence) * n)], of the exact product in
    this layer; [B64.calculateVaR] takes it from the rounded product. *)
Definition var_index (n : Z) (confidence : num) : num :=
  floor (mul (sub (Fin 1) confidence) (ofZ n)).

Definition calculateVaR (returns : list num) (confidence : num) : num :=
  let sortedReturns := sort_by sub returns in
  let index := var_index (len sortedReturns) confidence in
  mul (toNum (get_at sortedReturns index)) (Fin 100).

(** In this layer [varValue] is the VaR element again; as rounded, in
    [B64.calculateExpectedShortfall], it need not be. *)
Definition calculateExpectedShortfall (returns : list num)
    (confidence : num) : num :=
  let varValue := div (calculateVaR returns confidence) (Fin 100) in
  let exceedances := filter (fun ret => le ret varValue) returns in
  if (len exceedances =? 0)%Z then mul varValue (Fin 100)
  else mul (div (sum exceedances) (ofZ (len exceedances))) (Fin 100).

Definition calculateDownsideDeviation (returns : list num) (target : num)
    : num :=
  let downsideReturns := filter (fun ret => lt ret target) returns in
  if (len downsideReturns =? 0)%Z then Fin 0
  else
    let variance :=
      div (fold_left (fun s ret => add s (pow2 (sub ret target)))
             downsideReturns (Fin 0))
          (ofZ (len downsideReturns)) in
    sqrt variance.

Definition calculateSkewness (returns : list num) : num :=
  let mean := mean_of returns in
  let stdDev := sqrt (calculateVariance returns) in
  if eqb stdDev (Fin 0) then Fin 0
  else
    div (fold_left (fun s ret => add s (pow_n (div (sub ret mean) stdDev) 3))
           returns (Fin 0))
        (ofZ (len returns)).

Definition calculateKurtosis (returns : list num) : num :=
  let mean := mean_of returns in
  let stdDev := sqrt (calculateVariance returns) in
  if eqb stdDev (Fin 0) then Fin 0
  else
    sub (div (fold_left
                (fun s ret => add s (pow_n (div (sub ret mean) stdDev) 4))
                returns (Fin 0))
             (ofZ (len returns)))
        (Fin 3).

Record RiskAssessment : Type := mkAssessment {
  risk_score : num;
  risk_level : string;
  key_concerns : list string;
  recommendations : list string
}.

Definition identifyKeyRiskConcerns (vol mdd sharpe skew kurt : num)
    : list string :=
  (if gt vol (Fin 0.5) then ["high_volatility"%string] else []) ++
  (if gt mdd (Fin 40) then ["large_drawdowns"%string] else []) ++
  (if lt sharpe (Fin 0) then ["negative_risk_adjusted_returns"%string]
   else []) ++
  (if lt skew (Fin (-1)) then ["negative_skewness"%string] else []) ++
  (if gt kurt (Fin 3) then ["fat_tails"%string] else []).

Definition generateRiskRecommendations (riskScore : num) : list string :=
  if gt riskScore (Fin 70) then
    ["Consider position sizing carefully"%string;
     "Implement strict stop-loss strategies"%string;
     "Diversify to reduce concentration risk"%string]
  else if lt riskScore (Fin 40) then
    ["Asset shows relatively stable risk profile"%string;
     "Consider as part of balanced portfolio"%string]
  else
    ["Monitor risk metrics regularly"%string;
     "Maintain balanced position sizing"%string].

Definition assessOverallRisk (vol mdd sharpe skew kurt : num)
    : RiskAssessment :=
  let s0 := Fin 50 in
  let s1 := if gt vol (Fin 0.3) then add s0 (Fin 20)
            else if lt vol (Fin 0.1) then sub s0 (Fin 10) else s0 in
  let s2 := if lt sharpe (Fin 0) then add s1 (Fin 15)
            else if gt sharpe (Fin 1) then sub s1 (Fin 15) else s1 in
  let s3 := if gt mdd (Fin 50) then add s2 (Fin 25)
            else if lt mdd (Fin 10) then sub s2 (Fin 10) else s2 in
  let finalScore := max (Fin 0) (min (Fin 100) s3) in
  mkAssessment finalScore
    (if gt finalScore (Fin 70) then "high"%string
     else if lt finalScore (Fin 40) then "low"%string
     else "moderate"%string)
    (identifyKeyRiskConcerns vol mdd sharpe skew kurt)
    (generateRiskRecommendations finalScore).

(** The part of [calculateRiskMetrics] that runs once the candles of the
    requested window are fetched: the length guard, then the metrics, with
    the outer [catch] re-throwing under the tool's prefix.  The cache
    lookup, the descriptive fields (symbol, timeframe, calculation date)
    and the benchmark block, whose failures are logged and dropped, are
    outside.  [return_count] is the length of the return series the
    metrics are computed from. *)
Record RiskMetrics : Type := mkRisk {
  data_points : Z;
  return_count : Z;
  volatility : num;
  downside_deviation : num;
  skewness : num;
  kurtosis : num;
  value_at_risk : list (num * num);
  expected_shortfall : list (num * num);
  sharpe_ratio : num;
  sortino_ratio : num;
  max_drawdown : DrawdownDescriptor;
  risk_assessment : RiskAssessment
}.

Definition insufficient_risk_data (symbol : string) : string :=
  ("Failed to calculate risk metrics for " ++ symbol ++
   ": Error: Insufficient data for risk calculations")%string.

Definition calculateRiskMetrics (symbol : string)
    (historicalData : list Candle) (confidence_levels : list num)
    (risk_free_rate : num) : result RiskMetrics :=
  if (len historicalData <? 10)%Z then
    Throw (insufficient_risk_data symbol)
  else
    let returns := calculateReturns historicalData in
    let vol := calculateVolatility returns in
    let downside := calculateDownsideDeviation returns (Fin 0) in
    let skew := calculateSkewness returns in
    let kurt := calculateKurtosis returns in
    let avgReturn := mean_of returns in
    let annualizedReturn :=
      mul (sub (pow_n (add (Fin 1) avgReturn) 365) (Fin 1)) (Fin 100) in
    let annualizedVolatility :=
      mul (mul vol (sqrt (Fin 365))) (Fin 100) in
    let sharpe := div (sub annualizedReturn risk_free_rate)
                      annualizedVolatility in
    let sortino := div (sub annualizedReturn risk_free_rate)
                       (mul (mul downside (sqrt (Fin 365))) (Fin 100)) in
    let mdd := calculateMaxDrawdown historicalData in
    Ok (mkRisk (len historicalData)
               (len returns)
               vol downside skew kurt
               (map (fun c => (mul c (Fin 100), calculateVaR returns c))
                    confidence_levels)
               (map (fun c => (mul c (Fin 100),
                               calculateExpectedShortfall returns c))
                    confidence_levels)
               sharpe sortino mdd
               (assessOverallRisk vol (max_drawdown_percent mdd)
                  sharpe skew kurt)).

(** The default confidence levels and risk-free rate of the tool. *)
Definition default_confidence_levels : list num := [Fin 0.95; Fin 0.99].
Definition default_risk_free_rate : num := Fin 5.

(** The drawdown descriptor as its documentation words it: one decline,
    from the candle at [p] to a later candle at [t]. *)
Definition describes_decline (data : list Candle) (r : DrawdownDescriptor)
    : Prop :=
  exists (p t : nat) (cp ct : Candle),
    (p < t)%nat /\
    nth_error data p = Some cp /\ nth_error data t = Some ct /\
    start_date r = date cp /\ end_date r = date ct /\
    peak_price r = Some (Fin (close cp)) /\
    trough_price r = Some (Fin (close ct)) /\
    duration_days r = ofZ (Z.of_nat t - Z.of_nat p).

(** [assetReturns.map((ret, i) => ret - marketReturns[i])] after both
    series are cut to the shorter length from the most recent end. *)
Definition calculateTrackingError (returns benchmarkReturns : list num)
    : num :=
  let minLength := Z.min (len returns) (len benchmarkReturns) in
  let assetReturns := slice_from returns (- minLength) in
  let marketReturns := slice_from benchmarkReturns (- minLength) in
  let differences :=
    map (fun ir => sub (snd ir) (getN marketReturns (fst ir)))
        (combine (range 0 (len assetReturns)) assetReturns) in
  mul (mul (calculateVolatility differences) (sqrt (Fin 365))) (Fin 100).

(** [calculateSharpeRatio(returns, riskFreeRate = 0.05)], the variant the
    period-performance path uses. *)
Definition calculateSharpeRatio (returns : list num) (riskFreeRate : num)
    : num :=
  let avgReturn := mean_of returns in
  let annualizedReturn := sub (pow_n (add (Fin 1) avgReturn) 365) (Fin 1) in
  let vol := mul (calculateVolatility returns) (sqrt (Fin 365)) in
  if eqb vol (Fin 0) then Fin 0
  else div (sub annualizedReturn riskFreeRate) vol.

(** The running peak of a finite price series at index [j]: the highest
    price among the first [j + 1], and the decline from it at [j]. *)
Fixpoint running_peak (prices : list R) (j : nat) : R :=
  match j with
  | O => nth 0 prices 0
  | S j' => Rmax (running_peak prices j') (nth j prices 0)
  end.

Definition decline_at (prices : list R) (j : nat) : num :=
  div (Fin (running_peak prices j - nth j prices 0))
      (Fin (running_peak prices j)).

(** What the drawdown loop maintains once the first [k] candles are
    processed: the running peak and where it stands, a non-negative
    maximum that no decline so far exceeds, and either no recorded decline
    or the recorded one with its peak and trough candles. *)
Definition dd_inv (data : list Candle) (k : nat) (st : DDState) : Prop :=
  let cl := map close data in
  (exists p cp,
      peakIndex st = Z.of_nat p /\ (p < k)%nat /\
      nth_error data p = Some cp /\
      peak st = Some (Fin (close cp)) /\
      close cp = running_peak cl (k - 1)) /\
  le (Fin 0) (maxDrawdown st) = true /\
  (forall j, (1 <= j < k)%nat ->
             gt (decline_at cl j) (maxDrawdown st) = false) /\
  ((maxDrawdown st = Fin 0 /\
    maxDrawdownStart st = ""%string /\ maxDrawdownEnd st = ""%string) \/
   (exists q t cq ct,
       (q < t < k)%nat /\ troughIndex st = Z.of_nat t /\
       nth_error data q = Some cq /\ nth_error data t = Some ct /\
       maxDrawdownStart st = date cq /\ maxDrawdownEnd st = date ct /\
       close cq = running_peak cl t /\
       maxDrawdown st = decline_at cl t /\
       gt (maxDrawdown st) (Fin 0) = true)).

End HistoricalAnalysis.

(* ------------------------------------------------------------------ *)
(** ** The binary64 layer

    Where the outcome of a method turns on rounding (a rank taken from a
    rounded product, a percentage compared with a threshold it may
    equal, a division that is expected to undo a multiplication), the
    method is embedded a second time over the kernel's binary64 numbers,
    which add, subtract, multiply, divide and take square roots as
    JavaScript does.  Array helpers ([JS.get], [JS.slice_from],
    [JS.range]) are shared with the exact layer. *)

Module B64.

Import PrimFloat SpecFloat FloatOps.
#[local] Set Warnings "-inexact-float".
Local Open Scope float_scope.

(** [a > b], [a < b], [a <= b]; [===] is [PrimFloat.eqb]. *)
Definition gt (a b : float) : bool := b <? a.
Definition lt (a b : float) : bool := a <? b.
Definition le (a b : float) : bool := a <=? b.

(** [Math.min]: NaN when either side is, and -0 below +0. *)
Definition min (a b : float) : float :=
  if is_nan a || is_nan b then nan
  else if a <? b then a
  else if b <? a then b
  else if get_sign a then a else b.

(** An array length as a number (lengths stay far below 2^53). *)
Definition ofZ (z : Z) : float := of_uint63 (Uint63Axioms.of_Z z).
Definition len {A : Type} (l : list A) : float := ofZ (JS.len l).

Definition toNum (v : option float) : float :=
  match v with
  | Some x => x
  | None => nan
  end.

Definition getN (l : list float) (i : Z) : float := toNum (JS.get l i).

(** [Math.floor(x)] read as an array index: the whole part of a number
    that is not negative; a negative number, an infinity or NaN indexes
    nothing. *)
Definition floor_index (x : float) : option Z :=
  match Prim2SF x with
  | S754_zero _ => Some 0%Z
  | S754_finite false m e =>
      Some (if (0 <=? e)%Z then Z.shiftl (Zpos m) e
            else Z.shiftr (Zpos m) (- e))
  | _ => None
  end.

Definition get_at (l : list float) (i : option Z) : option float :=
  match i with
  | Some k => JS.get l k
  | None => None
  end.

(** [l.reduce((sum, x) => sum + x, 0)]. *)
Definition sum (l : list float) : float := fold_left add l 0.

Definition mean_of (l : list float) : float := sum l / len l.

(** [[...l].sort(cmp)]: [x] goes before [y] unless [cmp(x, y) > 0]. *)
Fixpoint insert_by (cmp : float -> float -> float) (x : float)
    (l : list float) : list float :=
  match l with
  | [] => [x]
  | y :: rest =>
      if gt (cmp x y) 0 then y :: insert_by cmp x rest
      else x :: y :: rest
  end.

Definition sort_by (cmp : float -> float -> float) (l : list float)
    : list float :=
  fold_right (insert_by cmp) [] l.

(** *** Value at risk and expected shortfall *)

Definition calculateVaR (returns : list float) (confidence : float)
    : float :=
  let sortedReturns := sort_by sub returns in
  let index := floor_index ((1 - confidence) * len sortedReturns) in
  toNum (get_at sortedReturns index) * 100.

Definition calculateExpectedShortfall (returns : list float)
    (confidence : float) : float :=
  let varValue := calculateVaR returns confidence / 100 in
  let exceedances := filter (fun ret => le ret varValue) returns in
  if (JS.len exceedances =? 0)%Z then varValue * 100
  else sum exceedances / len exceedances * 100.

(** *** Correlation *)

Record CorrState : Type := mkCorr {
  numerator : float;
  sumSquares1 : float;
  sumSquares2 : float
}.

Definition corr_step (r1 r2 : list float) (mean1 mean2 : float)
    (st : CorrState) (i : Z) : CorrState :=
  let diff1 := getN r1 i - mean1 in
  let diff2 := getN r2 i - mean2 in
  mkCorr (numerator st + diff1 * diff2)
         (sumSquares1 st + diff1 * diff1)
         (sumSquares2 st + diff2 * diff2).

Definition calculateCorrelation (returns1 returns2 : list float) : float :=
  if negb (JS.len returns1 =? JS.len returns2)%Z
     || (JS.len returns1 <? 2)%Z
  then 0
  else
    let minLength := Z.min (JS.len returns1) (JS.len returns2) in
    let r1 := JS.slice_from returns1 (- minLength) in
    let r2 := JS.slice_from returns2 (- minLength) in
    let mean1 := mean_of r1 in
    let mean2 := mean_of r2 in
    let st := fold_left (corr_step r1 r2 mean1 mean2)
                (JS.range 0 (JS.len r1)) (mkCorr 0 0 0) in
    let denominator := sqrt (sumSquares1 st * sumSquares2 st) in
    if denominator =? 0 then 0
    else numerator st / denominator.

(** *** Signal aggregation *)

Record Signal : Type := mkSignal {
  type : string;
  indicator : string;
  signal : string;
  weight : float
}.

Definition is_bullish (s : Signal) : bool :=
  String.eqb (signal s) "bullish" || String.eqb (signal s) "buy".

Definition is_bearish (s : Signal) : bool :=
  String.eqb (signal s) "bearish" || String.eqb (signal s) "sell".

(** [thresholds[strategy] || 60], as the number the comparisons see. *)
Definition getSignalThreshold (strategy : string) : float :=
  if String.eqb strategy "conservative" then 70
  else if String.eqb strategy "moderate" then 60
  else if String.eqb strategy "aggressive" then 55
  else if JS.inherited_member strategy then nan
  else 60.

Record Scores : Type := mkScores {
  bullishScore : float;
  bearishScore : float;
  totalWeight : float
}.

Definition score_step (acc : Scores) (s : Signal) : Scores :=
  let total := totalWeight acc + weight s in
  if is_bullish s then
    mkScores (bullishScore acc + weight s) (bearishScore acc) total
  else if is_bearish s then
    mkScores (bullishScore acc) (bearishScore acc + weight s) total
  else
    mkScores (bullishScore acc) (bearishScore acc) total.

Record OverallSignal : Type := mkOverall {
  overall_signal : string;
  confidence : float
}.

Definition calculateOverallSignal (signals : list Signal)
    (strategy : string) : OverallSignal :=
  let acc := fold_left score_step signals (mkScores 0 0 0) in
  let bullishPercentage := bullishScore acc / totalWeight acc * 100 in
  let bearishPercentage := bearishScore acc / totalWeight acc * 100 in
  let threshold := getSignalThreshold strategy in
  let conf := abs (bullishPercentage - bearishPercentage) in
  mkOverall
    (if gt bullishPercentage threshold then "buy"%string
     else if gt bearishPercentage threshold then "sell"%string
     else "hold"%string)
    (min conf 100).

(** The percentages in the words of the aggregation rule: the weight of
    the signals of one direction over the weight of all signals, times
    100, each sum, quotient and product rounded as the code rounds it. *)
Definition weight_of (p : Signal -> bool) (signals : list Signal) : float :=
  sum (map weight (filter p signals)).

Definition bullish_percent (signals : list Signal) : float :=
  weight_of is_bullish signals / sum (map weight signals) * 100.

Definition bearish_percent (signals : list Signal) : float :=
  weight_of is_bearish signals / sum (map weight signals) * 100.



(** *** Sample series *)

(** The seven returns of the value-at-risk scenario. *)
Definition scenario_returns : list float :=
  [0.01; -0.02; 0.015; -0.01; 0.02; -0.03; 0.005].


(** Bullish weights 0.3 and 0.39 beside a sideways 0.31. *)
Definition bullish_69 : list Signal :=
  [ mkSignal "technical_indicator" "RSI" "bullish" 0.3;
    mkSignal "technical_indicator" "MACD" "bullish" 0.39;
    mkSignal "trend" "TREND_ANALYSIS" "sideways" 0.31 ].

(** Bullish weight 11 of 20. *)
Definition bullish_11_of_20 : list Signal :=
  [ mkSignal "technical_indicator" "SMA" "bullish" 11;
    mkSignal "trend" "TREND_ANALYSIS" "sideways" 9 ].

End B64.

(* ------------------------------------------------------------------ *)
(** ** Finite series *)

(** A series of finite numbers, as the array of numbers the tools see. *)
Definition finite (l : list R) : list num := map Fin l.

(** The value of [l.reduce((sum, x) => sum + x, 0)] on a finite series. *)
Definition Rsum (l : list R) : R := fold_left Rplus l 0.

(** Sum of the squared deviations of a finite series from [m]. *)
Definition sq_dev (m : R) (l : list R) : R :=
  Rsum (map (fun r => (r - m) * (r - m)) l).


(** An array with its indexes, counted from [lo]. *)
Fixpoint indexed_from {A : Type} (lo : Z) (l : list A) : list (Z * A) :=
  match l with
  | [] => []
  | a :: rest => (lo, a) :: indexed_from (lo + 1) rest
  end.

(** A finite number that is not negative, and one between 0 and 100. *)
Definition nonneg (x : num) : Prop := exists r, x = Fin r /\ 0 <= r.

Definition percent (x : num) : Prop := exists r, x = Fin r /\ 0 <= r <= 100.

(* ------------------------------------------------------------------ *)
(** ** Sample inputs *)

Module Samples.

(** A candle on day [d] that opens, trades and closes at [c]. *)
Definition candle_at (d : string) (c : R) : Candle :=
  mkCandle d d c c c c 0.

(** [n] daily candles whose closes rise 1, 2, ..., n. *)
Definition rising (n : nat) : list Candle :=
  map (fun k => candle_at "2024-01-01" (INR k)) (seq 1 n).

(** An indicator set that is bullish throughout, next to a sideways trend
    reading: 69 of 100 weight units are bullish. *)
Definition bullish_69 : list TechnicalAnalysis.Signal :=
  [ TechnicalAnalysis.mkSignal "technical_indicator" "RSI" "bullish" (Fin 0.3);
    TechnicalAnalysis.mkSignal "technical_indicator" "MACD" "bullish" (Fin 0.39);
    TechnicalAnalysis.mkSignal "trend" "TREND_ANALYSIS" "sideways" (Fin 0.31) ].

(** An asset whose last two returns are twice the benchmark's two. *)
Definition asset_returns_3 : list num := [Fin 0.01; Fin 0.02; Fin 0.04].
Definition benchmark_returns_2 : list num := [Fin 0.01; Fin 0.02].

(** The seven returns of the value-at-risk scenario. *)
Definition scenario_returns : list R :=
  [0.01; -0.02; 0.015; -0.01; 0.02; -0.03; 0.005].

(** Two days of rising prices, and a dip followed by a new high. *)
Definition rally : list Candle :=
  [candle_at "2024-01-01" 100; candle_at "2024-01-02" 110].

Definition dip_then_high : list Candle :=
  [candle_at "2024-01-01" 100; candle_at "2024-01-02" 50;
   candle_at "2024-01-03" 200].

(** The fifteen closes of the RSI scenario, one candle a day. *)
Definition scenario_closes : list R :=
  [100; 102; 104; 103; 105; 107; 106; 108; 110; 109; 111; 113; 112; 114; 116].

Definition scenario_candles : list Candle :=
  map (candle_at "2024-01-01") scenario_closes.

(** [n] candles that all close at 100. *)
Definition flat_candles (n : nat) : list Candle :=
  repeat (candle_at "2024-01-01" 100) n.

End Samples.

(* ------------------------------------------------------------------ *)
(** ** Facts about the number and array model *)

Section NumFacts.

Lemma Rltb_true (a b : R) : a < b -> Rltb a b = true.
Proof. intros H. unfold Rltb. destruct (Rlt_dec a b); [reflexivity | contradiction]. Qed.

Lemma Rltb_false (a b : R) : b <= a -> Rltb a b = false.
Proof. intros H. unfold Rltb. destruct (Rlt_dec a b); [lra | reflexivity]. Qed.

Lemma Rleb_true (a b : R) : a <= b -> Rleb a b = true.
Proof. intros H. unfold Rleb. destruct (Rle_dec a b); [reflexivity | contradiction]. Qed.

Lemma Rleb_false (a b : R) : b < a -> Rleb a b = false.
Proof. intros H. unfold Rleb. destruct (Rle_dec a b); [lra | reflexivity]. Qed.

Lemma Reqb_true (a b : R) : a = b -> Reqb a b = true.
Proof. intros H. unfold Reqb. destruct (Req_dec_T a b); [reflexivity | contradiction]. Qed.

Lemma Reqb_false (a b : R) : a <> b -> Reqb a b = false.
Proof. intros H. unfold Reqb. destruct (Req_dec_T a b); [contradiction | reflexivity]. Qed.

Lemma Rltb_iff (a b : R) : Rltb a b = true <-> a < b.
Proof. unfold Rltb. destruct (Rlt_dec a b); split; intros; try assumption; try reflexivity; try contradiction; discriminate. Qed.

Lemma Rleb_iff (a b : R) : Rleb a b = true <-> a <= b.
Proof. unfold Rleb. destruct (Rle_dec a b); split; intros; try assumption; try reflexivity; try contradiction; discriminate. Qed.

Lemma div_fin (x y : R) : y <> 0 -> div (Fin x) (Fin y) = Fin (x / y).
Proof. intros H. simpl. now rewrite Reqb_false. Qed.

Lemma sub_nan_r (a : num) : sub a NaN = NaN.
Proof. now destruct a. Qed.

Lemma add_nan_r (a : num) : add a NaN = NaN.
Proof. now destruct a. Qed.

Lemma mul_nan_r (a : num) : mul a NaN = NaN.
Proof. now destruct a. Qed.

Lemma gt_nan_r (a : num) : gt a NaN = false.
Proof. now destruct a. Qed.

Lemma len_nonneg {A : Type} (l : list A) : (0 <= len l)%Z.
Proof. unfold len. lia. Qed.

Lemma len_map {A B : Type} (f : A -> B) (l : list A) : len (map f l) = len l.
Proof. unfold len. now rewrite length_map. Qed.

Lemma len_app {A : Type} (l k : list A) : len (l ++ k) = (len l + len k)%Z.
Proof. unfold len. rewrite length_app. lia. Qed.

Lemma get_nat {A : Type} (l : list A) (n : nat) :
  get l (Z.of_nat n) = nth_error l n.
Proof.
  unfold get. destruct (Z.ltb_spec (Z.of_nat n) 0); [lia|].
  now rewrite Nat2Z.id.
Qed.

Lemma get_out {A : Type} (l : list A) (i : Z) : (len l <= i)%Z -> get l i = None.
Proof.
  intros H. unfold get. destruct (Z.ltb_spec i 0); [reflexivity|].
  apply nth_error_None. unfold len in H. lia.
Qed.

Lemma get_map {A B : Type} (f : A -> B) (l : list A) (i : Z) :
  get (map f l) i = option_map f (get l i).
Proof.
  unfold get. destruct (i <? 0)%Z; [reflexivity|]. apply nth_error_map.
Qed.

Lemma get_app_last {A : Type} (l : list A) (x : A) :
  get (l ++ [x]) (len l) = Some x.
Proof.
  unfold len. rewrite get_nat, nth_error_app2 by lia.
  now rewrite Nat.sub_diag.
Qed.

Lemma get_app_last_cons {A : Type} (l k : list A) (x : A) :
  get (l ++ x :: k) (len l) = Some x.
Proof.
  unfold len. rewrite get_nat, nth_error_app2 by lia.
  now rewrite Nat.sub_diag.
Qed.

Lemma get_last_snoc {A : Type} (l : list A) (x : A) :
  get (l ++ [x]) (len (l ++ [x]) - 1) = Some x.
Proof.
  rewrite len_app. replace (len l + len [x] - 1)%Z with (len l).
  - apply get_app_last.
  - unfold len. simpl. lia.
Qed.

Lemma range_empty (lo hi : Z) : (hi <= lo)%Z -> range lo hi = [].
Proof.
  intros H. unfold range. replace (Z.to_nat (hi - lo)) with 0%nat by lia.
  reflexivity.
Qed.

Lemma range_length (lo hi : Z) : length (range lo hi) = Z.to_nat (hi - lo).
Proof. unfold range. now rewrite length_map, length_seq. Qed.

Lemma range_snoc (lo hi : Z) :
  (lo <= hi)%Z -> range lo (hi + 1) = range lo hi ++ [hi].
Proof.
  intros H. unfold range.
  replace (Z.to_nat (hi + 1 - lo)) with (S (Z.to_nat (hi - lo))) by lia.
  rewrite seq_S, map_app. simpl. do 2 f_equal. lia.
Qed.

Lemma range_last (lo hi : Z) :
  (lo < hi)%Z -> range lo hi = range lo (hi - 1) ++ [(hi - 1)%Z].
Proof.
  intros H. rewrite <- range_snoc by lia. f_equal. lia.
Qed.

Lemma range_cons (lo hi : Z) :
  (lo < hi)%Z -> range lo hi = lo :: range (lo + 1) hi.
Proof.
  intros H. unfold range.
  replace (Z.to_nat (hi - lo)) with (S (Z.to_nat (hi - (lo + 1)))) by lia.
  simpl. f_equal; [lia|].
  rewrite <- seq_shift, map_map. apply map_ext. intros k. lia.
Qed.

(** Loop rule: an invariant indexed by the loop counter. *)
Lemma fold_range_inv {St : Type} (step : St -> Z -> St) (P : Z -> St -> Prop)
    (lo hi : Z) (s0 : St) :
  (lo <= hi)%Z ->
  P lo s0 ->
  (forall i s, (lo <= i < hi)%Z -> P i s -> P (i + 1)%Z (step s i)) ->
  P hi (fold_left step (range lo hi) s0).
Proof.
  intros Hle H0 Hstep.
  assert (forall n : nat,
             (lo + Z.of_nat n <= hi)%Z ->
             P (lo + Z.of_nat n)%Z
               (fold_left step (range lo (lo + Z.of_nat n)) s0)) as Hn.
  { induction n as [|n IH]; intros Hb.
    - simpl Z.of_nat. rewrite Z.add_0_r, range_empty by lia. exact H0.
    - replace (lo + Z.of_nat (S n))%Z with (lo + Z.of_nat n + 1)%Z by lia.
      rewrite range_snoc by lia. rewrite fold_left_app. simpl.
      apply Hstep; [lia|]. apply IH. lia. }
  specialize (Hn (Z.to_nat (hi - lo))).
  replace (lo + Z.of_nat (Z.to_nat (hi - lo)))%Z with hi in Hn by lia.
  apply Hn. lia.
Qed.

Lemma slice_from_whole {A : Type} (l : list A) :
  slice_from l (- len l) = l.
Proof.
  unfold slice_from, slice, rel_index.
  pose proof (len_nonneg l) as Hn.
  destruct (Z.ltb_spec (len l) 0); [lia|].
  destruct (Z.ltb_spec (- len l) 0).
  - replace (Z.max (len l + - len l) 0) with 0%Z by lia.
    rewrite Z.min_id, Z.sub_0_r. simpl skipn. unfold len.
    rewrite Nat2Z.id. apply firstn_all.
  - assert (len l = 0%Z) as Hz by lia. rewrite Hz. simpl.
    destruct l; [reflexivity | unfold len in Hz; simpl in Hz; lia].
Qed.



End NumFacts.

(** Evaluation of the tests on reals met on concrete inputs. *)
Ltac js_test :=
  match goal with
  | |- context [Reqb ?a ?b] =>
      first [ rewrite (Reqb_true a b) by lra | rewrite (Reqb_false a b) by lra ]
  | |- context [Rltb ?a ?b] =>
      first [ rewrite (Rltb_true a b) by lra | rewrite (Rltb_false a b) by lra ]
  | |- context [Rleb ?a ?b] =>
      first [ rewrite (Rleb_true a b) by lra | rewrite (Rleb_false a b) by lra ]
  end.

Ltac js_eval := unfold len, ofZ, getN; simpl; repeat (js_test; simpl).

(* ------------------------------------------------------------------ *)
(** ** EMA and MACD *)

Section MACD.

Import TechnicalAnalysis.

Lemma ema_from_length (k prev : num) (prices : list num) :
  length (ema_from k prev prices) = length prices.
Proof.
  revert prev. induction prices as [|p rest IH]; intros prev; simpl; [reflexivity|].
  now rewrite IH.
Qed.

Lemma calculateEMAValues_length (prices : list num) (period : Z) :
  prices <> [] -> length (calculateEMAValues prices period) = length prices.
Proof.
  destruct prices as [|p0 rest]; [congruence|]. intros _. simpl.
  now rewrite ema_from_length.
Qed.

(** A NaN at the end of the input is a NaN at the end of the average. *)
Lemma ema_from_nan_last (k prev : num) (prices : list num) :
  ema_from k prev (prices ++ [NaN]) = ema_from k prev prices ++ [NaN].
Proof.
  revert prev. induction prices as [|p rest IH]; intros prev; simpl; [reflexivity|].
  now rewrite IH.
Qed.

Lemma calculateEMAValues_nan_last (prices : list num) (period : Z) :
  exists body,
    calculateEMAValues (prices ++ [NaN]) period = body ++ [NaN] /\
    length body = length prices.
Proof.
  destruct prices as [|p0 rest].
  - exists []. split; reflexivity.
  - exists (p0 :: ema_from (div (Fin 2) (add (ofZ period) (Fin 1))) p0 rest).
    split.
    + simpl. now rewrite ema_from_nan_last.
    + simpl. now rewrite ema_from_length.
Qed.

(** With the default periods the slow average is read 14 places past the
    index of the fast one, so the last MACD value reads past the end. *)
Lemma macd_values_default_nan_last (fastEMA slowEMA : list num) :
  (26 <= len fastEMA)%Z -> len slowEMA = len fastEMA ->
  exists body,
    macd_values fastEMA slowEMA 12 26 = body ++ [NaN] /\
    len body = (len fastEMA - 26)%Z.
Proof.
  intros Hn Hs. unfold macd_values.
  rewrite range_last by lia. rewrite map_app. simpl map at 2.
  eexists. split.
  - f_equal. f_equal. unfold getN at 2. rewrite get_out by lia.
    simpl toNum. apply sub_nan_r.
  - rewrite len_map. unfold len at 1. rewrite range_length. lia.
Qed.

End MACD.

Section MACDClaims.

Import TechnicalAnalysis.

(** C1.  With the default periods (12, 26, 9), every candle series of at
    least 35 points, strictly increasing or not, makes [calculateMACD]
    report a NaN MACD line and a NaN signal line, hence the signal
    'bearish': the bullish reading the uptrend scenario asks for is never
    produced. *)
Theorem calculateMACD_default_bearish (data : list Candle) :
  (35 <= length data)%nat ->
  exists r,
    calculateMACD_default data = Ok r /\
    macd_line r = Some NaN /\
    signal_line r = Some NaN /\
    macd_signal r = "bearish"%string.
Proof.
  intros Hlen. unfold calculateMACD_default, calculateMACD.
  assert (len data = Z.of_nat (length data)) as Hl by reflexivity.
  destruct (Z.ltb_spec (len data) (26 + 9)); [lia|].
  assert (closes data <> []) as Hne.
  { unfold closes. destruct data; simpl in *; [lia | discriminate]. }
  destruct (macd_values_default_nan_last
              (calculateEMAValues (closes data) 12)
              (calculateEMAValues (closes data) 26)) as [body [Hm Hb]].
  - unfold len. rewrite calculateEMAValues_length by exact Hne.
    unfold closes. rewrite length_map. lia.
  - unfold len. now rewrite !calculateEMAValues_length by exact Hne.
  - rewrite Hm.
    destruct (calculateEMAValues_nan_last body 9) as [sbody [Hs _]].
    rewrite Hs. eexists. split; [reflexivity|].
    cbn [macd_line signal_line macd_signal].
    rewrite !get_last_snoc. repeat split; reflexivity.
Qed.

Lemma calculateMACD_default_bearish_witness :
  exists r,
    calculateMACD_default (Samples.rising 35) = Ok r /\
    macd_line r = Some NaN /\
    signal_line r = Some NaN /\
    macd_signal r = "bearish"%string.
Proof.
  apply calculateMACD_default_bearish.
  unfold Samples.rising. rewrite length_map, length_seq. lia.
Defined.

End MACDClaims.

(* ------------------------------------------------------------------ *)
(** ** Returns and the risk-metrics guard *)

Section RiskGuard.

Import HistoricalAnalysis.

Lemma returns_of_length (prices : list num) :
  length (returns_of prices) = pred (length prices).
Proof.
  induction prices as [|p rest IH]; [reflexivity|].
  destruct rest as [|q rest']; [reflexivity|].
  change (returns_of (p :: q :: rest'))
    with (div (sub q p) p :: returns_of (q :: rest')).
  simpl length in *. now rewrite IH.
Qed.

Lemma calculateReturns_length (data : list Candle) :
  length (calculateReturns data) = (length data - 1)%nat.
Proof.
  unfold calculateReturns, closes. rewrite returns_of_length, length_map. lia.
Qed.

(** C2 (as the guard is written).  [calculateRiskMetrics] rejects a window
    exactly when it holds fewer than 10 candles, that is fewer than 9
    returns; from 10 candles on it passes the guard and produces its
    metrics over [length - 1] returns. *)
Theorem calculateRiskMetrics_guard (symbol : string) (data : list Candle)
    (confidence_levels : list num) (risk_free_rate : num) :
  ((length data < 10)%nat ->
   calculateRiskMetrics symbol data confidence_levels risk_free_rate
   = Throw (insufficient_risk_data symbol)) /\
  ((10 <= length data)%nat ->
   exists m,
     calculateRiskMetrics symbol data confidence_levels risk_free_rate
     = Ok m /\
     data_points m = len data /\
     return_count m = (len data - 1)%Z /\
     return_count m = len (calculateReturns data)).
Proof.
  unfold calculateRiskMetrics. split; intros H.
  - destruct (Z.ltb_spec (len data) 10) as [_|Hge]; [reflexivity|].
    unfold len in Hge. lia.
  - destruct (Z.ltb_spec (len data) 10) as [Hlt|_].
    + unfold len in Hlt. lia.
    + eexists. split; [reflexivity|]. cbn [data_points return_count].
      repeat split. unfold len. rewrite calculateReturns_length. lia.
Qed.

Lemma calculateRiskMetrics_guard_witness :
  calculateRiskMetrics "BTC" (Samples.rising 5)
    default_confidence_levels default_risk_free_rate
  = Throw (insufficient_risk_data "BTC") /\
  exists m,
    calculateRiskMetrics "BTC" (Samples.rising 11)
      default_confidence_levels default_risk_free_rate = Ok m /\
    data_points m = 11%Z /\ return_count m = 10%Z.
Proof.
  split.
  - apply (calculateRiskMetrics_guard "BTC" (Samples.rising 5)).
    unfold Samples.rising. rewrite length_map, length_seq. lia.
  - destruct (proj2 (calculateRiskMetrics_guard "BTC" (Samples.rising 11)
                       default_confidence_levels default_risk_free_rate))
      as [m [Hm [Hd [Hr _]]]].
    + unfold Samples.rising. rewrite length_map, length_seq. lia.
    + exists m. repeat split; [exact Hm | exact Hd | exact Hr].
Defined.

(** C2, the claim as worded fails: a window of exactly 10 candles yields 9
    returns and is accepted, not rejected. *)
Lemma calculateRiskMetrics_accepts_ten_candles :
  length (Samples.rising 10) = 10%nat /\
  length (calculateReturns (Samples.rising 10)) = 9%nat /\
  exists m,
    calculateRiskMetrics "BTC" (Samples.rising 10)
      default_confidence_levels default_risk_free_rate = Ok m.
Proof.
  split; [reflexivity|]. split.
  - rewrite calculateReturns_length. reflexivity.
  - unfold calculateRiskMetrics.
    replace (len (Samples.rising 10) <? 10)%Z with false by reflexivity.
    eexists. reflexivity.
Qed.

End RiskGuard.

(* ------------------------------------------------------------------ *)
(** ** Signal aggregation *)

Section Aggregation.

Import TechnicalAnalysis.

Lemma bullish_not_bearish (s : Signal) :
  is_bullish s = true -> is_bearish s = false.
Proof.
  unfold is_bullish, is_bearish. intros H.
  apply orb_true_iff in H. destruct H as [H|H];
    apply String.eqb_eq in H; rewrite H; reflexivity.
Qed.

(** The three accumulators of the [forEach] are three filtered sums. *)
Lemma score_fold (signals : list Signal) (acc : Scores) :
  fold_left score_step signals acc =
  mkScores
    (fold_left add (map weight (filter is_bullish signals)) (bullishScore acc))
    (fold_left add (map weight (filter is_bearish signals)) (bearishScore acc))
    (fold_left add (map weight signals) (totalWeight acc)).
Proof.
  revert acc. induction signals as [|s rest IH]; intros acc.
  - destruct acc; reflexivity.
  - simpl fold_left at 1. rewrite IH. unfold score_step. simpl filter.
    destruct (is_bullish s) eqn:Hb.
    + rewrite (bullish_not_bearish s Hb). reflexivity.
    + destruct (is_bearish s); reflexivity.
Qed.

Lemma overall_percentages (signals : list Signal) :
  let acc := fold_left score_step signals (mkScores (Fin 0) (Fin 0) (Fin 0)) in
  mul (div (bullishScore acc) (totalWeight acc)) (Fin 100)
  = bullish_percent signals /\
  mul (div (bearishScore acc) (totalWeight acc)) (Fin 100)
  = bearish_percent signals.
Proof.
  cbv zeta. rewrite score_fold. split; reflexivity.
Qed.

End Aggregation.
(* ------------------------------------------------------------------ *)
(** ** Signal aggregation in binary64 *)

Section AggregationBinary64.

Import PrimFloat.
#[local] Set Warnings "-inexact-float".
Local Open Scope float_scope.

(** The three accumulators of the [forEach] are the sums of the filtered
    weights, added in the order of the signals. *)
Lemma score_fold_b64 (signals : list B64.Signal) (b r t : float) :
  fold_left B64.score_step signals (B64.mkScores b r t)
  = B64.mkScores
      (fold_left add (map B64.weight (filter B64.is_bullish signals)) b)
      (fold_left add (map B64.weight (filter B64.is_bearish signals)) r)
      (fold_left add (map B64.weight signals) t).
Proof.
  revert b r t. induction signals as [|s l IH]; intros b r t;
    [reflexivity|].
  simpl fold_left at 1. unfold B64.score_step at 2.
  cbn [B64.bullishScore B64.bearishScore B64.totalWeight].
  assert (B64.is_bullish s = true -> B64.is_bearish s = false) as Hexcl.
  { unfold B64.is_bullish, B64.is_bearish. intros H.
    apply orb_true_iff in H.
    destruct H as [H | H]; apply String.eqb_eq in H; rewrite H;
      reflexivity. }
  destruct (B64.is_bullish s) eqn:Hb.
  - rewrite IH. simpl. rewrite Hb, (Hexcl eq_refl). reflexivity.
  - destruct (B64.is_bearish s) eqn:Hr; rewrite IH; simpl;
      rewrite Hb, Hr; reflexivity.
Qed.

(** C6 (on the percentages the code computes).  The aggregate is 'buy'
    exactly when the computed bullish percentage exceeds the strategy
    threshold, 'sell' exactly when it is not 'buy' and the computed
    bearish percentage exceeds it, 'hold' otherwise; the confidence is
    the absolute difference of the two, capped at 100; the thresholds are
    70, 60 and 55.  Bullish weights 0.3 and 0.39 beside a sideways 0.31
    give the computed percentage 69 and 'hold' under the conservative
    profile. *)
Theorem calculateOverallSignal_binary64_rule
    (signals : list B64.Signal) (strategy : string) :
  let r := B64.calculateOverallSignal signals strategy in
  let bp := B64.bullish_percent signals in
  let brp := B64.bearish_percent signals in
  let th := B64.getSignalThreshold strategy in
  (B64.overall_signal r = "buy"%string <-> (th <? bp) = true) /\
  (B64.overall_signal r = "sell"%string
   <-> (th <? bp) = false /\ (th <? brp) = true) /\
  (B64.overall_signal r = "hold"%string
   <-> (th <? bp) = false /\ (th <? brp) = false) /\
  B64.confidence r = B64.min (abs (bp - brp)) 100 /\
  B64.getSignalThreshold "conservative" = 70 /\
  B64.getSignalThreshold "moderate" = 60 /\
  B64.getSignalThreshold "aggressive" = 55 /\
  B64.bullish_percent B64.bullish_69 = 69 /\
  B64.overall_signal (B64.calculateOverallSignal B64.bullish_69
                        "conservative") = "hold"%string.
Proof.
  cbv zeta. unfold B64.calculateOverallSignal. rewrite score_fold_b64.
  cbn [B64.bullishScore B64.bearishScore B64.totalWeight
       B64.overall_signal B64.confidence].
  change (fold_left add (map B64.weight (filter B64.is_bullish signals)) 0
          / fold_left add (map B64.weight signals) 0 * 100)
    with (B64.bullish_percent signals).
  change (fold_left add (map B64.weight (filter B64.is_bearish signals)) 0
          / fold_left add (map B64.weight signals) 0 * 100)
    with (B64.bearish_percent signals).
  unfold B64.gt.
  repeat match goal with |- _ /\ _ => split end;
    try reflexivity; try (vm_compute; reflexivity).
  - destruct (B64.getSignalThreshold strategy <? B64.bullish_percent signals);
      [tauto|].
    destruct (B64.getSignalThreshold strategy <? B64.bearish_percent signals);
      split; intros; discriminate.
  - destruct (B64.getSignalThreshold strategy <? B64.bullish_percent signals).
    + split; [discriminate | intros [H _]; discriminate].
    + destruct (B64.getSignalThreshold strategy
                <? B64.bearish_percent signals);
        [tauto|]. split; [discriminate | intros [_ H]; discriminate].
  - destruct (B64.getSignalThreshold strategy <? B64.bullish_percent signals).
    + split; [discriminate | intros [H _]; discriminate].
    + destruct (B64.getSignalThreshold strategy
                <? B64.bearish_percent signals);
        [|tauto]. split; [discriminate | intros [_ H]; discriminate].
Qed.

(** C6, the claim as worded fails: with bullish weight 11 of 20 the
    bullish percentage is 55, which does not exceed the aggressive
    threshold 55, but the code computes (11 / 20) * 100 =
    55.00000000000001 and answers 'buy'. *)
Lemma calculateOverallSignal_buy_at_threshold :
  (11 / (11 + 9) * 100 = 55)%R /\
  B64.getSignalThreshold "aggressive" = 55 /\
  B64.bullish_percent B64.bullish_11_of_20 = 55.00000000000001 /\
  (55 <? 55.00000000000001) = true /\
  B64.overall_signal
    (B64.calculateOverallSignal B64.bullish_11_of_20 "aggressive")
  = "buy"%string.
Proof.
  split; [lra|]. repeat split; vm_compute; reflexivity.
Qed.

End AggregationBinary64.


(* ------------------------------------------------------------------ *)
(** ** Beta *)

Section Beta.

Import HistoricalAnalysis.

(** C4 (as the guard is written).  Series of different lengths are not
    trimmed: [calculateBeta] answers the default 1.  Series of one common
    length of at least 2 give covariance over benchmark variance, or 1
    when that variance is 0. *)
Theorem calculateBeta_by_length (returns benchmarkReturns : list num) :
  (length returns <> length benchmarkReturns ->
   calculateBeta returns benchmarkReturns = Fin 1) /\
  (length returns = length benchmarkReturns ->
   (2 <= length returns)%nat ->
   calculateBeta returns benchmarkReturns =
   if eqb (calculateVariance benchmarkReturns) (Fin 0) then Fin 1
   else div (calculateCovariance returns benchmarkReturns)
            (calculateVariance benchmarkReturns)).
Proof.
  unfold calculateBeta. split.
  - intros Hne.
    destruct (Z.eqb_spec (len returns) (len benchmarkReturns)) as [He|_];
      [|reflexivity].
    unfold len in He. lia.
  - intros Heq Hge.
    assert (len returns = len benchmarkReturns) as Hl
      by (unfold len; now rewrite Heq).
    rewrite <- Hl, Z.eqb_refl, Z.min_id. simpl negb.
    destruct (Z.ltb_spec (len returns) 2) as [Hlt|_];
      [unfold len in Hlt; lia|].
    simpl orb. rewrite slice_from_whole.
    rewrite Hl, slice_from_whole. reflexivity.
Qed.

Lemma calculateBeta_by_length_witness :
  calculateBeta Samples.asset_returns_3 Samples.benchmark_returns_2 = Fin 1 /\
  calculateBeta Samples.benchmark_returns_2 Samples.benchmark_returns_2 =
  if eqb (calculateVariance Samples.benchmark_returns_2) (Fin 0) then Fin 1
  else div (calculateCovariance Samples.benchmark_returns_2
              Samples.benchmark_returns_2)
           (calculateVariance Samples.benchmark_returns_2).
Proof.
  split.
  - apply (calculateBeta_by_length Samples.asset_returns_3
             Samples.benchmark_returns_2).
    simpl. lia.
  - apply (calculateBeta_by_length Samples.benchmark_returns_2
             Samples.benchmark_returns_2); simpl; lia.
Defined.

(** C4, the claim as worded fails: an asset series of 3 returns against a
    benchmark of 2 gets the default 1, although trimming the asset to its
    2 most recent returns would give covariance / variance = 2. *)
Lemma calculateBeta_mismatch_returns_default :
  calculateBeta Samples.asset_returns_3 Samples.benchmark_returns_2 = Fin 1 /\
  slice_from Samples.asset_returns_3 (-2) = [Fin 0.02; Fin 0.04] /\
  div (calculateCovariance (slice_from Samples.asset_returns_3 (-2))
         (slice_from Samples.benchmark_returns_2 (-2)))
      (calculateVariance (slice_from Samples.benchmark_returns_2 (-2)))
  = Fin 2.
Proof.
  split; [reflexivity|]. split; [reflexivity|].
  change (slice_from Samples.asset_returns_3 (-2))
    with [Fin 0.02; Fin 0.04].
  change (slice_from Samples.benchmark_returns_2 (-2))
    with [Fin 0.01; Fin 0.02].
  unfold calculateCovariance, calculateVariance, mean_of, pow2, JS.sum, getN.
  js_eval. f_equal. lra.
Qed.

End Beta.

(* ------------------------------------------------------------------ *)
(** ** Sorting, value at risk and expected shortfall *)

Section VaR.

Import HistoricalAnalysis.

Lemma fold_add_fin (l : list R) (a : R) :
  fold_left add (map Fin l) (Fin a) = Fin (fold_left Rplus l a).
Proof.
  revert a. induction l as [|x l IH]; intros a; simpl; [reflexivity|].
  apply IH.
Qed.

Lemma sum_finite (l : list R) : JS.sum (finite l) = Fin (Rsum l).
Proof. apply fold_add_fin. Qed.

Lemma fold_Rplus_shift (l : list R) (a : R) :
  fold_left Rplus l a = a + Rsum l.
Proof.
  unfold Rsum. revert a. induction l as [|x l IH]; intros a; simpl.
  - lra.
  - rewrite (IH (a + x)), (IH (0 + x)). lra.
Qed.

Lemma Rsum_cons (x : R) (l : list R) : Rsum (x :: l) = x + Rsum l.
Proof. unfold Rsum at 1. simpl. rewrite fold_Rplus_shift. lra. Qed.





End VaR.

(* ------------------------------------------------------------------ *)
(** ** Value at risk and expected shortfall in binary64 *)

Section ValueAtRiskBinary64.

Import PrimFloat.
#[local] Set Warnings "-inexact-float".
Local Open Scope float_scope.











End ValueAtRiskBinary64.


(* ------------------------------------------------------------------ *)
(** ** Correlation *)

Section Correlation.

Import HistoricalAnalysis.

Lemma sq_dev_cons (m x : R) (l : list R) :
  sq_dev m (x :: l) = (x - m) * (x - m) + sq_dev m l.
Proof. unfold sq_dev. simpl map. apply Rsum_cons. Qed.

Lemma sq_dev_nonneg (m : R) (l : list R) : 0 <= sq_dev m l.
Proof.
  induction l as [|x l IH].
  - unfold sq_dev, Rsum. simpl. lra.
  - rewrite sq_dev_cons.
    assert (0 <= (x - m) * (x - m)) by (apply Rle_0_sqr). lra.
Qed.



Lemma sq_dev_flat (m : R) (l : list R) :
  (forall a, In a l -> a = m) -> sq_dev m l = 0.
Proof.
  induction l as [|x l IH]; intros Hall.
  - unfold sq_dev, Rsum. reflexivity.
  - rewrite sq_dev_cons, IH by (intros a Ha; apply Hall; now right).
    rewrite (Hall x) by now left. lra.
Qed.

Lemma Rsum_flat (c : R) (l : list R) :
  (forall a, In a l -> a = c) -> Rsum l = INR (length l) * c.
Proof.
  induction l as [|x l IH]; intros Hall.
  - unfold Rsum. simpl. lra.
  - change (length (x :: l)) with (S (length l)). rewrite S_INR.
    rewrite Rsum_cons, IH by (intros a Ha; apply Hall; now right).
    rewrite (Hall x) by now left. lra.
Qed.

Lemma mean_of_finite (l : list R) :
  l <> [] -> mean_of (finite l) = Fin (Rsum l / INR (length l)).
Proof.
  intros Hne. unfold mean_of. rewrite sum_finite.
  unfold finite, ofZ. rewrite len_map. unfold len. rewrite <- INR_IZR_INZ.
  apply div_fin. apply not_0_INR. destruct l; [congruence | discriminate].
Qed.




End Correlation.
(* ------------------------------------------------------------------ *)
(** ** Correlation of a series with itself in binary64 *)

Section CorrelationBinary64.

Import PrimFloat.
#[local] Set Warnings "-inexact-float".
Local Open Scope float_scope.







End CorrelationBinary64.

(* ------------------------------------------------------------------ *)
(** ** Maximum drawdown *)

Section Drawdown.

Import HistoricalAnalysis.

Ltac order_cases :=
  simpl in *; unfold Rltb, Rleb in *;
  repeat match goal with
         | H : context [Rlt_dec ?a ?b] |- _ => destruct (Rlt_dec a b)
         | H : context [Rle_dec ?a ?b] |- _ => destruct (Rle_dec a b)
         | |- context [Rlt_dec ?a ?b] => destruct (Rlt_dec a b)
         | |- context [Rle_dec ?a ?b] => destruct (Rle_dec a b)
         end;
  try discriminate; try reflexivity; try lra.

Lemma gt_above_zero (m d : num) :
  le (Fin 0) m = true -> gt d m = true ->
  le (Fin 0) d = true /\ gt d (Fin 0) = true.
Proof.
  unfold gt. intros Hm Hd. destruct m, d; split; order_cases.
Qed.

Lemma gt_stays_below (a m d : num) :
  gt a m = false -> gt d m = true -> gt a d = false.
Proof.
  unfold gt. intros Ha Hd. destruct a, m, d; order_cases.
Qed.

Lemma le_zero_percent (m : num) :
  le (Fin 0) m = true -> le (Fin 0) (mul m (Fin 100)) = true.
Proof.
  intros Hm. destruct m; simpl in *; try discriminate.
  - apply Rleb_iff in Hm. apply Rleb_true. lra.
  - unfold signed_inf. rewrite Reqb_false, Rltb_true by lra. reflexivity.
Qed.

Lemma gt_zero_percent (m : num) :
  gt m (Fin 0) = true -> gt (mul m (Fin 100)) (Fin 0) = true.
Proof.
  unfold gt. intros Hm. destruct m; simpl in *; try discriminate.
  - apply Rltb_iff in Hm. apply Rltb_true. lra.
  - unfold signed_inf. rewrite Reqb_false, Rltb_true by lra. reflexivity.
Qed.

(** A price never declines from itself. *)
Lemma no_decline_at_peak (c : R) (m : num) :
  le (Fin 0) m = true -> gt (div (Fin (c - c)) (Fin c)) m = false.
Proof.
  intros Hm. simpl. replace (c - c) with 0 by lra.
  rewrite (Reqb_true 0 0 eq_refl).
  destruct (Reqb c 0); [unfold gt; now destruct m|].
  unfold Rdiv. rewrite Rmult_0_l. unfold gt.
  destruct m; simpl in *; try discriminate; try reflexivity.
  apply Rleb_iff in Hm. apply Rltb_false. exact Hm.
Qed.

Lemma strongly_sorted_nth {A : Type} (before : A -> A -> Prop)
    (l : list A) (p t : nat) (a b : A) :
  StronglySorted before l -> (p < t)%nat ->
  nth_error l p = Some a -> nth_error l t = Some b -> before a b.
Proof.
  intros Hs. revert p t. induction Hs as [|x l Hs IH Hall]; intros p t Hpt Ha Hb.
  - destruct p; discriminate.
  - destruct t as [|t]; [lia|]. simpl in Hb. destruct p as [|p].
    + simpl in Ha. injection Ha as <-.
      rewrite Forall_forall in Hall. apply Hall.
      eapply nth_error_In; exact Hb.
    + simpl in Ha. apply (IH p t); [lia | exact Ha | exact Hb].
Qed.

Lemma nth_closes (data : list Candle) (j : nat) (c : Candle) :
  nth_error data j = Some c -> nth j (map close data) 0 = close c.
Proof.
  intros H. erewrite nth_error_nth; [reflexivity|].
  now rewrite nth_error_map, H.
Qed.

Lemma get_closes (data : list Candle) (j : nat) (c : Candle) :
  nth_error data j = Some c ->
  get (closes data) (Z.of_nat j) = Some (Fin (close c)).
Proof.
  intros H. unfold closes. now rewrite get_map, get_nat, H.
Qed.

Lemma gt_irrefl (d : num) : gt d d = false.
Proof. unfold gt. destruct d; order_cases. Qed.

Lemma dd_inv_init (data : list Candle) (c0 : Candle) (rest : list Candle) :
  data = c0 :: rest ->
  dd_inv data 1
    (mkDD (Fin 0) (get (closes data) 0) 0 0 ""%string ""%string).
Proof.
  intros ->. unfold dd_inv. cbn [peakIndex peak maxDrawdown troughIndex
                                  maxDrawdownStart maxDrawdownEnd].
  split; [|split; [|split]].
  - exists 0%nat, c0. repeat split; try reflexivity. lia.
  - simpl. apply Rleb_true. lra.
  - intros j Hj. lia.
  - left. repeat split.
Qed.

Lemma dd_inv_step (data : list Candle) (k : nat) (st : DDState) :
  (1 <= k < length data)%nat ->
  dd_inv data k st ->
  dd_inv data (S k) (dd_step data (closes data) st (Z.of_nat k)).
Proof.
  intros Hk [[p [cp [Hpi [Hpk [Hnp [Hpeak Hrun]]]]]] [Hnn [Hworst Hrec]]].
  destruct (nth_error data k) as [ci|] eqn:Hci.
  2:{ apply nth_error_None in Hci. lia. }
  destruct k as [|k']; [lia|].
  replace (S k' - 1)%nat with k' in Hrun by lia.
  assert (nth (S k') (map close data) 0 = close ci) as Hnth
    by (apply nth_closes; exact Hci).
  destruct st as [m pk pidx tidx sd ed].
  cbn [peak maxDrawdown peakIndex troughIndex maxDrawdownStart
       maxDrawdownEnd] in Hpi, Hpeak, Hnn, Hworst, Hrec.
  subst pk pidx.
  unfold dd_step. cbn [peak maxDrawdown peakIndex troughIndex
                       maxDrawdownStart maxDrawdownEnd].
  unfold getN. rewrite (get_closes data (S k') ci Hci).
  unfold gtv. cbn [toNum].
  destruct (Rlt_dec (close cp) (close ci)) as [Hup|Hdown].
  - (* a new peak *)
    replace (gt (Fin (close ci)) (Fin (close cp))) with true
      by (symmetry; unfold gt; simpl; apply Rltb_true; exact Hup).
    cbn [peak maxDrawdown peakIndex troughIndex maxDrawdownStart
         maxDrawdownEnd toNum sub].
    rewrite no_decline_at_peak by exact Hnn.
    assert (running_peak (map close data) (S k') = close ci) as Hrp.
    { simpl running_peak. rewrite <- Hrun. fold (nth (S k') (map close data) 0).
      rewrite Hnth. apply Rmax_right. lra. }
    unfold dd_inv. cbn [peak maxDrawdown peakIndex troughIndex
                        maxDrawdownStart maxDrawdownEnd].
    split; [|split; [exact Hnn|split]].
    + exists (S k'), ci. replace (S (S k') - 1)%nat with (S k') by lia.
      repeat split; try assumption; try reflexivity; try lia.
      now rewrite Hrp.
    + intros j Hj. destruct (Nat.eq_dec j (S k')) as [->|Hne].
      * unfold decline_at. rewrite Hrp, Hnth.
        apply no_decline_at_peak. exact Hnn.
      * apply Hworst. lia.
    + destruct Hrec as [Hz|[q [t [cq [ct [Hqt Hr]]]]]]; [left; exact Hz|].
      right. exists q, t, cq, ct. split; [lia | exact Hr].
  - (* no new peak *)
    replace (gt (Fin (close ci)) (Fin (close cp))) with false
      by (symmetry; unfold gt; simpl; apply Rltb_false; lra).
    cbn [peak maxDrawdown peakIndex troughIndex maxDrawdownStart
         maxDrawdownEnd toNum sub].
    assert (running_peak (map close data) (S k') = close cp) as Hrp.
    { simpl running_peak. rewrite <- Hrun. fold (nth (S k') (map close data) 0).
      rewrite Hnth. apply Rmax_left. lra. }
    assert (decline_at (map close data) (S k')
            = div (Fin (close cp - close ci)) (Fin (close cp))) as Hdec.
    { unfold decline_at. now rewrite Hrp, Hnth. }
    rewrite <- Hdec.
    destruct (gt (decline_at (map close data) (S k')) m) eqn:Hgt.
    + destruct (gt_above_zero m _ Hnn Hgt) as [Hnn' Hpos].
      unfold dd_inv. cbn [peak maxDrawdown peakIndex troughIndex
                          maxDrawdownStart maxDrawdownEnd].
      split; [|split; [exact Hnn'|split]].
      * exists p, cp. replace (S (S k') - 1)%nat with (S k') by lia.
        repeat split; try assumption; try reflexivity; try lia.
        now rewrite Hrp.
      * intros j Hj. destruct (Nat.eq_dec j (S k')) as [->|Hne].
        -- apply gt_irrefl.
        -- apply (gt_stays_below _ m); [apply Hworst; lia | exact Hgt].
      * right. exists p, (S k'), cp, ci.
        unfold date_at. rewrite !get_nat, Hnp, Hci.
        repeat split; try assumption; try reflexivity; try lia.
        now rewrite Hrp.
    + unfold dd_inv. cbn [peak maxDrawdown peakIndex troughIndex
                          maxDrawdownStart maxDrawdownEnd].
      split; [|split; [exact Hnn|split]].
      * exists p, cp. replace (S (S k') - 1)%nat with (S k') by lia.
        repeat split; try assumption; try reflexivity; try lia.
        now rewrite Hrp.
      * intros j Hj. destruct (Nat.eq_dec j (S k')) as [->|Hne].
        -- exact Hgt.
        -- apply Hworst. lia.
      * destruct Hrec as [Hz|[q [t [cq [ct [Hqt Hr]]]]]]; [left; exact Hz|].
        right. exists q, t, cq, ct. split; [lia | exact Hr].
Qed.

Lemma dd_loop_inv (data : list Candle) :
  data <> [] -> dd_inv data (length data) (dd_loop data).
Proof.
  intros Hne. destruct data as [|c0 rest] eqn:Hd; [congruence|].
  rewrite <- Hd in *. unfold dd_loop.
  assert (len (closes data) = Z.of_nat (length data)) as Hl
    by (unfold closes; rewrite len_map; reflexivity).
  assert (1 <= length data)%nat as Hpos by (rewrite Hd; simpl; lia).
  pose proof (fold_range_inv (dd_step data (closes data))
                (fun i st => dd_inv data (Z.to_nat i) st)
                1 (len (closes data))
                (mkDD (Fin 0) (get (closes data) 0) 0 0 ""%string ""%string))
    as Hfold.
  rewrite Hl in *. rewrite Nat2Z.id in Hfold. apply Hfold.
  - lia.
  - apply (dd_inv_init data c0 rest Hd).
  - intros i st Hi Hinv.
    replace (Z.to_nat (i + 1)) with (S (Z.to_nat i)) by lia.
    replace i with (Z.of_nat (Z.to_nat i)) at 2 by lia.
    apply dd_inv_step; [lia | exact Hinv].
Qed.

Lemma mul_100_inf : mul PInf (Fin 100) = PInf /\ mul NInf (Fin 100) = NInf.
Proof.
  simpl. unfold signed_inf. rewrite Reqb_false, Rltb_true by lra.
  split; reflexivity.
Qed.

Lemma gt_percent (a m : num) :
  gt a m = false -> gt (mul a (Fin 100)) (mul m (Fin 100)) = false.
Proof.
  destruct mul_100_inf as [Hp Hn].
  unfold gt. intros H.
  destruct a, m; rewrite ?Hp, ?Hn; try reflexivity; try discriminate.
  simpl in *. apply Rltb_false.
  destruct (Rlt_dec r0 r) as [Hlt|Hge]; [|lra].
  rewrite Rltb_true in H by exact Hlt. discriminate.
Qed.

(** C7 (what the descriptor guarantees).  For a non-empty candle series,
    [max_drawdown_percent] is not negative and no decline from a running
    peak exceeds it.  Either it is 0 and both dates are empty, or it is
    positive and is the decline at a trough candle [t] from the running
    peak reached at an earlier candle [p]: [start_date] and [end_date] are
    the dates of [p] and [t], [trough_price] is the close at [t], and the
    start date comes before the end date under any order in which the
    candle dates ascend. *)
Theorem calculateMaxDrawdown_descriptor (data : list Candle) :
  data <> [] ->
  let r := calculateMaxDrawdown data in
  let cl := map close data in
  le (Fin 0) (max_drawdown_percent r) = true /\
  (forall j, (1 <= j < length data)%nat ->
     gt (mul (decline_at cl j) (Fin 100)) (max_drawdown_percent r) = false) /\
  ((max_drawdown_percent r = Fin 0 /\
    start_date r = ""%string /\ end_date r = ""%string) \/
   (exists p t cp ct,
       (p < t < length data)%nat /\
       nth_error data p = Some cp /\ nth_error data t = Some ct /\
       start_date r = date cp /\ end_date r = date ct /\
       trough_price r = Some (Fin (close ct)) /\
       close cp = running_peak cl t /\
       max_drawdown_percent r = mul (decline_at cl t) (Fin 100) /\
       gt (max_drawdown_percent r) (Fin 0) = true /\
       (forall before : string -> string -> Prop,
           StronglySorted before (map date data) ->
           before (start_date r) (end_date r)))).
Proof.
  intros Hne. cbv zeta.
  destruct (dd_loop_inv data Hne) as [_ [Hnn [Hworst Hrec]]].
  unfold calculateMaxDrawdown.
  cbn [max_drawdown_percent start_date end_date trough_price].
  split; [|split].
  - apply le_zero_percent. exact Hnn.
  - intros j Hj. apply gt_percent. apply Hworst. exact Hj.
  - destruct Hrec as [[Hz [Hs He]]|[q [t [cq [ct Hr]]]]].
    + left. rewrite Hz, Hs, He. repeat split. simpl. f_equal. lra.
    + destruct Hr as [Hqt [Ht [Hq [Hct [Hs [He [Hrun [Hm Hpos]]]]]]]].
      right. exists q, t, cq, ct.
      rewrite Ht, Hs, He, Hm, (get_closes data t ct Hct).
      repeat split; try assumption; try lia.
      * apply gt_zero_percent. now rewrite <- Hm.
      * intros before Hsorted.
        apply (strongly_sorted_nth before (map date data) q t);
          [exact Hsorted | lia | |]; rewrite nth_error_map.
        -- now rewrite Hq.
        -- now rewrite Hct.
Qed.

Lemma calculateMaxDrawdown_descriptor_witness :
  le (Fin 0)
     (max_drawdown_percent (calculateMaxDrawdown Samples.dip_then_high))
  = true.
Proof.
  destruct (calculateMaxDrawdown_descriptor Samples.dip_then_high)
    as [H _]; [discriminate | exact H].
Defined.

Lemma drawdown_rally :
  calculateMaxDrawdown Samples.rally =
  mkDrawdown (Fin (0 * 100)) (Some (Fin 110)) (Some (Fin 100))
             ""%string ""%string (Fin (-1)).
Proof.
  unfold calculateMaxDrawdown, dd_loop, Samples.rally, closes,
    Samples.candle_at.
  simpl. unfold dd_step, gtv, gt, date_at. js_eval.
  unfold get. simpl. reflexivity.
Qed.

Lemma drawdown_dip_then_high :
  calculateMaxDrawdown Samples.dip_then_high =
  mkDrawdown (Fin ((100 - 50) / 100 * 100)) (Some (Fin 200)) (Some (Fin 50))
             "2024-01-01"%string "2024-01-02"%string (Fin (-1)).
Proof.
  unfold calculateMaxDrawdown, dd_loop, Samples.dip_then_high, closes,
    Samples.candle_at.
  simpl. unfold dd_step, gtv, gt, date_at. js_eval.
  unfold get. simpl. reflexivity.
Qed.

(** C7, the claim as worded fails.  On two rising candles no decline is
    recorded: both dates are empty, so the descriptor names no peak candle
    before a trough candle, and [duration_days] is -1.  On a dip followed
    by a new high the dates are those of the dip, yet [peak_price] is the
    later high (200, not the 100 the decline started from) and
    [duration_days] is again -1. *)
Lemma calculateMaxDrawdown_not_a_decline :
  ~ describes_decline Samples.rally (calculateMaxDrawdown Samples.rally) /\
  duration_days (calculateMaxDrawdown Samples.rally) = Fin (-1) /\
  ~ describes_decline Samples.dip_then_high
      (calculateMaxDrawdown Samples.dip_then_high) /\
  peak_price (calculateMaxDrawdown Samples.dip_then_high) = Some (Fin 200) /\
  duration_days (calculateMaxDrawdown Samples.dip_then_high) = Fin (-1).
Proof.
  rewrite drawdown_rally, drawdown_dip_then_high.
  cbn [peak_price duration_days].
  split; [|split; [reflexivity|split; [|split; reflexivity]]].
  - intros [p [t [cp [ct [Hpt [Hp [Ht [Hs _]]]]]]]].
    cbn [start_date] in Hs. apply nth_error_In in Hp.
    unfold Samples.rally in Hp. simpl in Hp.
    destruct Hp as [<-|[<-|[]]]; discriminate Hs.
  - intros [p [t [cp [ct [Hpt [Hp [Ht [Hs [He [Hpk _]]]]]]]]]].
    cbn [start_date peak_price] in Hs, Hpk.
    apply nth_error_In in Hp. unfold Samples.dip_then_high in Hp.
    simpl in Hp. destruct Hp as [<-|[<-|[<-|[]]]]; try discriminate Hs.
    simpl in Hpk. injection Hpk. lra.
Qed.

End Drawdown.

(* ------------------------------------------------------------------ *)
(** ** RSI *)

Section RSI.

Import TechnicalAnalysis.

Lemma changes_length (prices : list num) :
  length (changes prices) = pred (length prices).
Proof.
  induction prices as [|p rest IH]; [reflexivity|].
  destruct rest as [|q rest']; [reflexivity|].
  change (changes (p :: q :: rest')) with (sub q p :: changes (q :: rest')).
  simpl length in *. now rewrite IH.
Qed.

(** Every change of a finite price series is a finite difference of two
    of its prices. *)
Lemma changes_finite (prices : list R) :
  Forall (fun x => exists a b, In a prices /\ In b prices /\ x = Fin (b - a))
         (changes (finite prices)).
Proof.
  induction prices as [|p rest IH]; [constructor|].
  destruct rest as [|q rest']; [constructor|].
  change (changes (finite (p :: q :: rest')))
    with (sub (Fin q) (Fin p) :: changes (finite (q :: rest'))).
  constructor.
  - exists p, q. simpl. tauto.
  - eapply Forall_impl; [|exact IH].
    intros x [a [b [Ha [Hb Hx]]]]. exists a, b.
    repeat split; [now right | now right | exact Hx].
Qed.

Lemma gain_of_nonneg (r : R) : nonneg (gain_of (Fin r)).
Proof.
  unfold gain_of, gt. simpl. unfold Rltb.
  destruct (Rlt_dec 0 r); [exists r | exists 0]; split; try reflexivity; lra.
Qed.

Lemma loss_of_nonneg (r : R) : nonneg (loss_of (Fin r)).
Proof.
  unfold loss_of. simpl. unfold Rltb.
  destruct (Rlt_dec r 0); [exists (Rabs r) | exists 0];
    split; try reflexivity; first [apply Rabs_pos | lra].
Qed.

Lemma Forall_firstn {A : Type} (P : A -> Prop) (n : nat) (l : list A) :
  Forall P l -> Forall P (firstn n l).
Proof.
  intros H. revert n. induction H as [|x l Hx Hl IH]; intros [|n]; simpl;
    constructor; auto.
Qed.

Lemma Forall_skipn {A : Type} (P : A -> Prop) (n : nat) (l : list A) :
  Forall P l -> Forall P (skipn n l).
Proof.
  intros H. revert n. induction H as [|x l Hx Hl IH]; intros [|n]; simpl;
    try constructor; auto.
Qed.

Lemma Forall_slice {A : Type} (P : A -> Prop) (l : list A) (s e : Z) :
  Forall P l -> Forall P (slice l s e).
Proof. intros H. unfold slice. now apply Forall_firstn, Forall_skipn. Qed.

Lemma Forall_getN (P : num -> Prop) (l : list num) (i : Z) :
  Forall P l -> (0 <= i < len l)%Z -> P (getN l i).
Proof.
  intros H Hi. unfold getN.
  replace i with (Z.of_nat (Z.to_nat i)) by lia. rewrite get_nat.
  destruct (nth_error l (Z.to_nat i)) as [x|] eqn:Hx.
  - simpl. rewrite Forall_forall in H. apply H.
    eapply nth_error_In; exact Hx.
  - apply nth_error_None in Hx. unfold len in Hi. lia.
Qed.

Lemma sum_nonneg (l : list num) : Forall nonneg l -> nonneg (JS.sum l).
Proof.
  unfold JS.sum. intros H.
  assert (forall a, 0 <= a -> nonneg (fold_left add l (Fin a))) as Hgen.
  { induction H as [|x l [r [-> Hr]] Hl IH]; intros a Ha.
    - exists a. now split.
    - simpl. apply IH. lra. }
  apply Hgen. lra.
Qed.

Lemma average_nonneg (s : num) (period : Z) :
  (1 <= period)%Z -> nonneg s -> nonneg (div s (ofZ period)).
Proof.
  intros Hp [r [-> Hr]].
  assert (1 <= IZR period) by (apply IZR_le; exact Hp).
  unfold ofZ. rewrite div_fin by lra.
  exists (r / IZR period). split; [reflexivity|].
  apply Rmult_le_pos; [exact Hr|].
  apply Rlt_le, Rinv_0_lt_compat. lra.
Qed.

Lemma smooth_nonneg (avg x : num) (period : Z) :
  (1 <= period)%Z -> nonneg avg -> nonneg x -> nonneg (smooth avg period x).
Proof.
  intros Hp [a [-> Ha]] [b [-> Hb]].
  assert (1 <= IZR period) by (apply IZR_le; exact Hp).
  unfold smooth. apply average_nonneg; [exact Hp|].
  unfold ofZ. simpl. exists (a * (IZR period - 1) + b).
  split; [reflexivity|]. nra.
Qed.

Lemma rsi_of_percent (g l : num) :
  nonneg g -> nonneg l -> percent (rsi_of g l).
Proof.
  intros [a [-> Ha]] [b [-> Hb]]. unfold rsi_of.
  assert (exists d, or_else (Fin b) (Fin 0.01) = Fin d /\ 0 < d) as [d [-> Hd]].
  { unfold or_else, truthy, Reqb.
    destruct (Req_dec_T b 0); simpl; [exists 0.01 | exists b];
      split; try reflexivity; lra. }
  rewrite div_fin by lra.
  assert (0 <= a / d)
    by (apply Rmult_le_pos; [exact Ha | apply Rlt_le, Rinv_0_lt_compat; lra]).
  simpl add. rewrite div_fin by lra. simpl sub.
  exists (100 - 100 / (1 + a / d)). split; [reflexivity|].
  assert (0 < / (1 + a / d) <= 1) as [Hi1 Hi2].
  { split; [apply Rinv_0_lt_compat; lra|].
    rewrite <- Rinv_1 at 2. apply Rinv_le_contravar; lra. }
  unfold Rdiv at 1 3. lra.
Qed.

(** The smoothing loop, for any property [Pn] of the averages that
    smoothing keeps and any property [Pv] it gives the pushed values. *)
Lemma rsi_loop (Pn Pv : num -> Prop) (period : Z)
    (gains losses : list num) (g0 l0 : num) :
  (forall a x, Pn a -> Pn x -> Pn (smooth a period x)) ->
  (forall g l, Pn g -> Pn l -> Pv (rsi_of g l)) ->
  Forall Pn gains -> Forall Pn losses -> len losses = len gains ->
  (0 <= period <= len gains)%Z -> Pn g0 -> Pn l0 ->
  let st := fold_left (rsi_step period gains losses)
              (range period (len gains)) (mkRSIState g0 l0 []) in
  Forall Pv (rsiValues st) /\
  len (rsiValues st) = (len gains - period)%Z.
Proof.
  intros Hsm Hrsi Hg Hl Hlen Hp Hg0 Hl0. cbv zeta.
  pose proof (fold_range_inv (rsi_step period gains losses)
                (fun i st => Pn (avgGain st) /\ Pn (avgLoss st) /\
                             Forall Pv (rsiValues st) /\
                             len (rsiValues st) = (i - period)%Z)
                period (len gains) (mkRSIState g0 l0 [])) as Hfold.
  destruct Hfold as [_ [_ [Hv Hn]]].
  - lia.
  - cbn [avgGain avgLoss rsiValues]. repeat split; try assumption.
    + constructor.
    + unfold len. simpl. lia.
  - intros i st Hi [Ha [Hb [Hv Hn]]]. unfold rsi_step.
    cbn [avgGain avgLoss rsiValues].
    assert (Pn (smooth (avgGain st) period (getN gains i))) as Ha'
      by (apply Hsm; [exact Ha | apply Forall_getN; [exact Hg | lia]]).
    assert (Pn (smooth (avgLoss st) period (getN losses i))) as Hb'
      by (apply Hsm; [exact Hb | apply Forall_getN; [exact Hl | lia]]).
    repeat split; try assumption.
    + apply Forall_app. split; [exact Hv|]. constructor; [|constructor].
      now apply Hrsi.
    + rewrite len_app, Hn. unfold len. simpl. lia.
  - split; assumption.
Qed.

Lemma closes_finite (data : list Candle) :
  closes data = finite (map close data).
Proof. unfold closes, finite. now rewrite map_map. Qed.

Lemma gains_losses_nonneg (data : list Candle) :
  (1 <= len data)%Z ->
  let cs := changes (closes data) in
  Forall nonneg (map gain_of cs) /\ Forall nonneg (map loss_of cs) /\
  len (map gain_of cs) = (len data - 1)%Z /\
  len (map loss_of cs) = len (map gain_of cs).
Proof.
  intros Hpos. cbv zeta. rewrite closes_finite.
  pose proof (changes_finite (map close data)) as Hc.
  repeat split.
  - apply Forall_map. eapply Forall_impl; [|exact Hc].
    intros x [a [b [_ [_ ->]]]]. apply gain_of_nonneg.
  - apply Forall_map. eapply Forall_impl; [|exact Hc].
    intros x [a [b [_ [_ ->]]]]. apply loss_of_nonneg.
  - rewrite len_map. unfold len, finite.
    rewrite changes_length, !length_map. unfold len in Hpos. lia.
  - now rewrite !len_map.
Qed.

Lemma rsi_class_undefined : rsi_class None = "neutral"%string.
Proof. reflexivity. Qed.

(** C5.  At exactly [period + 1] candles, the least the guard of
    [calculateRSI] admits, the smoothing loop does not run: the current
    value is undefined and the signal falls through to 'neutral'.  From
    [period + 2] candles on the current value is a number between 0 and
    100. *)
Theorem calculateRSI_current_value :
  (forall (data : list Candle) (period : Z),
      (0 <= period)%Z -> len data = (period + 1)%Z ->
      exists r,
        calculateRSI data period = Ok r /\
        current_value r = None /\ rsi_signal r = "neutral"%string) /\
  (forall (data : list Candle) (period : Z),
      (1 <= period)%Z -> (period + 2 <= len data)%Z ->
      exists r v,
        calculateRSI data period = Ok r /\
        current_value r = Some (Fin v) /\ 0 <= v <= 100).
Proof.
  split.
  - intros data period Hp Hlen. unfold calculateRSI.
    destruct (Z.ltb_spec (len data) (period + 1)); [lia|].
    destruct (gains_losses_nonneg data) as [_ [_ [Hg _]]]; [lia|].
    cbv zeta in Hg.
    rewrite Hg, Hlen, range_empty by lia.
    eexists. split; [reflexivity|]. split; reflexivity.
  - intros data period Hp Hlen. unfold calculateRSI.
    destruct (Z.ltb_spec (len data) (period + 1)); [lia|].
    destruct (gains_losses_nonneg data) as [Hgs [Hls [Hg Hl]]]; [lia|].
    cbv zeta in Hgs, Hls, Hg, Hl.
    set (gains := map gain_of (changes (closes data))) in *.
    set (losses := map loss_of (changes (closes data))) in *.
    destruct (rsi_loop nonneg percent period gains losses
                (div (JS.sum (slice gains 0 period)) (ofZ period))
                (div (JS.sum (slice losses 0 period)) (ofZ period)))
      as [Hv Hn].
    + intros a x. now apply smooth_nonneg.
    + exact rsi_of_percent.
    + exact Hgs.
    + exact Hls.
    + exact Hl.
    + lia.
    + apply average_nonneg; [exact Hp|]. now apply sum_nonneg, Forall_slice.
    + apply average_nonneg; [exact Hp|]. now apply sum_nonneg, Forall_slice.
    + set (st := fold_left (rsi_step period gains losses)
                   (range period (len gains)) _) in *.
      assert (percent (getN (rsiValues st) (len (rsiValues st) - 1))) as Hlast
        by (apply Forall_getN; [exact Hv | lia]).
      unfold getN in Hlast.
      destruct (get (rsiValues st) (len (rsiValues st) - 1)) as [x|] eqn:Hx.
      * destruct Hlast as [v [Hxv Hb]]. simpl in Hxv. subst x.
        eexists. exists v. split; [reflexivity|].
        cbn [current_value]. split; [reflexivity | exact Hb].
      * destruct Hlast as [v [Hxv _]]. discriminate.
Qed.

Lemma calculateRSI_current_value_witness :
  (exists r,
      calculateRSI Samples.scenario_candles 14 = Ok r /\
      current_value r = None /\ rsi_signal r = "neutral"%string) /\
  (exists r v,
      calculateRSI (Samples.rising 16) 14 = Ok r /\
      current_value r = Some (Fin v) /\ 0 <= v <= 100).
Proof.
  split.
  - apply (proj1 calculateRSI_current_value); [lia | reflexivity].
  - apply (proj2 calculateRSI_current_value); [lia|].
    unfold len, Samples.rising. rewrite length_map, length_seq. lia.
Defined.

Lemma sum_zero (l : list num) :
  Forall (fun x => x = Fin 0) l -> JS.sum l = Fin 0.
Proof.
  unfold JS.sum. induction 1 as [|x l -> Hl IH]; [reflexivity|].
  simpl. rewrite Rplus_0_l. exact IH.
Qed.

Lemma smooth_zero (period : Z) :
  (1 <= period)%Z -> smooth (Fin 0) period (Fin 0) = Fin 0.
Proof.
  intros Hp. assert (1 <= IZR period) by (apply IZR_le; exact Hp).
  unfold smooth, ofZ. simpl add. rewrite div_fin by lra.
  f_equal. unfold Rdiv. ring.
Qed.

Lemma rsi_of_zero : rsi_of (Fin 0) (Fin 0) = Fin 0.
Proof.
  unfold rsi_of, or_else, truthy. rewrite Reqb_true by reflexivity.
  simpl negb. cbv iota. rewrite div_fin by lra. simpl add.
  rewrite div_fin by lra. simpl. f_equal. lra.
Qed.

Lemma gains_losses_flat (data : list Candle) (c : R) :
  (forall d, In d data -> close d = c) ->
  let cs := changes (closes data) in
  Forall (fun x => x = Fin 0) (map gain_of cs) /\
  Forall (fun x => x = Fin 0) (map loss_of cs).
Proof.
  intros Hflat. cbv zeta. rewrite closes_finite.
  pose proof (changes_finite (map close data)) as Hc.
  assert (forall a, In a (map close data) -> a = c) as Hall.
  { intros a Ha. apply in_map_iff in Ha. destruct Ha as [d [<- Hd]].
    now apply Hflat. }
  split; apply Forall_map; (eapply Forall_impl; [|exact Hc]);
    intros x [a [b [Ha [Hb ->]]]];
    rewrite (Hall a Ha), (Hall b Hb).
  - unfold gain_of, gt. simpl. now rewrite Rltb_false by lra.
  - unfold loss_of. simpl. now rewrite Rltb_false by lra.
Qed.

(** C10.  On candles that all close at one price, at least [period + 2]
    of them, both averages stay 0, the 0.01 floor gives RS = 0, and
    [calculateRSI] reports the current value 0 with the signal
    'oversold'. *)
Theorem calculateRSI_flat_is_oversold (data : list Candle) (period : Z)
    (c : R) :
  (1 <= period)%Z -> (period + 2 <= len data)%Z ->
  (forall d, In d data -> close d = c) ->
  exists r,
    calculateRSI data period = Ok r /\
    current_value r = Some (Fin 0) /\
    rsi_signal r = "oversold"%string.
Proof.
  intros Hp Hlen Hflat. unfold calculateRSI.
  destruct (Z.ltb_spec (len data) (period + 1)); [lia|].
  destruct (gains_losses_nonneg data) as [_ [_ [Hg Hl]]]; [lia|].
  destruct (gains_losses_flat data c Hflat) as [Hgs Hls].
  cbv zeta in Hgs, Hls, Hg, Hl.
  set (gains := map gain_of (changes (closes data))) in *.
  set (losses := map loss_of (changes (closes data))) in *.
  rewrite (sum_zero (slice gains 0 period)) by now apply Forall_slice.
  rewrite (sum_zero (slice losses 0 period)) by now apply Forall_slice.
  assert (div (Fin 0) (ofZ period) = Fin 0) as Hz.
  { assert (1 <= IZR period) by (apply IZR_le; exact Hp).
    unfold ofZ. rewrite div_fin by lra. f_equal. unfold Rdiv. ring. }
  rewrite Hz.
  destruct (rsi_loop (fun x => x = Fin 0) (fun x => x = Fin 0)
              period gains losses (Fin 0) (Fin 0)) as [Hv Hn];
    try assumption; try reflexivity.
  - intros a x -> ->. now apply smooth_zero.
  - intros g l -> ->. exact rsi_of_zero.
  - lia.
  - set (st := fold_left (rsi_step period gains losses)
                 (range period (len gains)) _) in *.
    assert (getN (rsiValues st) (len (rsiValues st) - 1) = Fin 0) as Hlast
      by (apply (Forall_getN (fun x => x = Fin 0)); [exact Hv | lia]).
    unfold getN in Hlast.
    destruct (get (rsiValues st) (len (rsiValues st) - 1)) as [x|] eqn:Hx;
      [|discriminate].
    simpl in Hlast. subst x.
    eexists. split; [reflexivity|]. cbn [current_value rsi_signal].
    split; [reflexivity|].
    unfold rsi_class, gtv, ltv, gt. simpl.
    now rewrite Rltb_false, Rltb_true by lra.
Qed.

Lemma calculateRSI_flat_is_oversold_witness :
  exists r,
    calculateRSI (Samples.flat_candles 16) 14 = Ok r /\
    current_value r = Some (Fin 0) /\
    rsi_signal r = "oversold"%string.
Proof.
  apply (calculateRSI_flat_is_oversold (Samples.flat_candles 16) 14 100).
  - lia.
  - unfold len, Samples.flat_candles. rewrite repeat_length. lia.
  - intros d Hd. unfold Samples.flat_candles in Hd.
    apply repeat_spec in Hd. now subst d.
Defined.

End RSI.

(* ------------------------------------------------------------------ *)
(** ** Further properties: value at risk across confidence levels *)

Section VaRMonotone.

Import HistoricalAnalysis.






End VaRMonotone.

(* ------------------------------------------------------------------ *)
(** ** Further properties: indexed array passes *)

Section Indexed.

Lemma combine_range_indexed {A : Type} (l : list A) (lo : Z) :
  combine (range lo (lo + len l)) l = indexed_from lo l.
Proof.
  revert lo. induction l as [|a l IH]; intros lo.
  - rewrite range_empty by (unfold len; simpl; lia). reflexivity.
  - rewrite range_cons by (unfold len; simpl; lia). simpl. f_equal.
    rewrite <- IH. f_equal. f_equal. unfold len. simpl length. lia.
Qed.

Lemma indexed_from_get {A : Type} (l pre : list A) :
  Forall (fun ia => get (pre ++ l) (fst ia) = Some (snd ia))
         (indexed_from (len pre) l).
Proof.
  revert pre. induction l as [|a l IH]; intros pre; simpl; constructor.
  - simpl. apply get_app_last_cons.
  - replace (len pre + 1)%Z with (len (pre ++ [a]))
      by (rewrite len_app; reflexivity).
    replace (pre ++ a :: l) with ((pre ++ [a]) ++ l)
      by (rewrite <- app_assoc; reflexivity).
    apply IH.
Qed.

(** Each index paired with an element by [combine (range 0 n) l] reads
    that element back. *)
Lemma indexed_get {A : Type} (l : list A) (i : Z) (a : A) :
  In (i, a) (combine (range 0 (len l)) l) -> get l i = Some a.
Proof.
  intros Hin. rewrite <- (Z.add_0_l (len l)) in Hin.
  rewrite (combine_range_indexed l 0) in Hin.
  pose proof (indexed_from_get l []) as Hall. rewrite Forall_forall in Hall.
  apply (Hall (i, a)). exact Hin.
Qed.

Lemma map_snd_indexed {A : Type} (l : list A) (lo : Z) :
  map snd (indexed_from lo l) = l.
Proof.
  revert lo. induction l as [|a l IH]; intros lo; simpl; [reflexivity|].
  now rewrite IH.
Qed.


End Indexed.

(* ------------------------------------------------------------------ *)
(** ** Further properties: variance, volatility and beta *)

Section VarianceBeta.

Import HistoricalAnalysis.


Lemma sq_fold_finite (l : list R) (m a : R) :
  fold_left (fun s ret => add s (pow2 (sub ret (Fin m)))) (finite l) (Fin a)
  = Fin (a + sq_dev m l).
Proof.
  revert a. induction l as [|x l IH]; intros a.
  - unfold sq_dev, Rsum. simpl. now rewrite Rplus_0_r.
  - simpl. rewrite IH, sq_dev_cons. f_equal. lra.
Qed.

Lemma calculateVariance_finite (l : list R) :
  l <> [] ->
  calculateVariance (finite l)
  = Fin (sq_dev (Rsum l / INR (length l)) l / INR (length l)).
Proof.
  intros Hne. unfold calculateVariance.
  rewrite mean_of_finite by exact Hne. rewrite sq_fold_finite, Rplus_0_l.
  unfold finite, ofZ. rewrite len_map. unfold len. rewrite <- INR_IZR_INZ.
  apply div_fin. apply not_0_INR. destruct l; [congruence | discriminate].
Qed.




End VarianceBeta.

(* ------------------------------------------------------------------ *)
(** ** Further properties: tracking error *)

Section TrackingError.

Import HistoricalAnalysis.

(** [l.slice(-m)] keeps the last [m] elements. *)
Lemma slice_from_recent {A : Type} (l : list A) (m : Z) :
  (1 <= m <= len l)%Z ->
  slice_from l (- m) = skipn (Z.to_nat (len l - m)) l.
Proof.
  intros Hm. unfold slice_from, slice, rel_index.
  destruct (Z.ltb_spec (- m) 0); [|lia].
  destruct (Z.ltb_spec (len l) 0); [lia|].
  rewrite Z.min_id. replace (Z.max (len l + - m) 0) with (len l - m)%Z by lia.
  apply firstn_all2. rewrite length_skipn. unfold len in *. lia.
Qed.

Lemma volatility_of_nan (l : list num) :
  Forall (fun x => x = NaN) l -> calculateVolatility l = NaN.
Proof.
  intros Hall. unfold calculateVolatility, calculateVariance.
  destruct Hall as [|x l -> Hl].
  - unfold mean_of, JS.sum, len. simpl.
    now rewrite !Reqb_true by reflexivity.
  - assert (forall (f : num -> num -> num) (k : list num),
               (forall y, f NaN y = NaN) ->
               fold_left f k NaN = NaN) as Hnan.
    { intros f k Hf. induction k as [|y k IH]; simpl; [reflexivity|].
      now rewrite (Hf y). }
    assert (mean_of (NaN :: l) = NaN) as Hm.
    { unfold mean_of, JS.sum. simpl fold_left.
      rewrite (Hnan add l) by reflexivity. reflexivity. }
    rewrite Hm. simpl fold_left.
    rewrite (Hnan (fun s ret => add s (pow2 (sub ret NaN))) l)
      by reflexivity.
    reflexivity.
Qed.

Lemma volatility_flat (l : list R) (c : R) :
  l <> [] -> (forall a, In a l -> a = c) ->
  calculateVolatility (finite l) = Fin 0.
Proof.
  intros Hne Hc. unfold calculateVolatility.
  rewrite calculateVariance_finite by exact Hne.
  assert (Rsum l / INR (length l) = c) as Hm.
  { rewrite (Rsum_flat c) by exact Hc. field.
    apply not_0_INR. destruct l; [congruence | discriminate]. }
  rewrite Hm, (sq_dev_flat c) by exact Hc.
  unfold Rdiv. rewrite Rmult_0_l. unfold JS.sqrt.
  rewrite Rltb_false by lra. now rewrite sqrt_0.
Qed.

(** X5.  [calculateTrackingError] aligns two series of different lengths
    on their most recent ends: only the last [min] returns of the longer
    series enter the result.  With an empty series on either side the
    result is NaN. *)
Theorem calculateTrackingError_alignment (a b : list num) :
  ((1 <= length b <= length a)%nat ->
   calculateTrackingError a b
   = calculateTrackingError (skipn (length a - length b) a) b) /\
  ((1 <= length a <= length b)%nat ->
   calculateTrackingError a b
   = calculateTrackingError a (skipn (length b - length a) b)) /\
  (a = [] \/ b = [] -> calculateTrackingError a b = NaN).
Proof.
  split; [|split].
  - intros Hlen. unfold calculateTrackingError.
    set (a' := skipn (length a - length b) a).
    assert (length a' = length b) as Hl'
      by (unfold a'; rewrite length_skipn; lia).
    assert (len a' = len b) as Hz by (unfold len; now rewrite Hl').
    replace (Z.min (len a) (len b)) with (len b) by (unfold len; lia).
    rewrite Hz, Z.min_id.
    rewrite (slice_from_recent a (len b)) by (unfold len; lia).
    replace (Z.to_nat (len a - len b)) with (length a - length b)%nat
      by (unfold len; lia).
    fold a'.
    assert (slice_from a' (- len b) = a') as ->
      by (rewrite <- Hz; apply slice_from_whole).
    reflexivity.
  - intros Hlen. unfold calculateTrackingError.
    set (b' := skipn (length b - length a) b).
    assert (length b' = length a) as Hl'
      by (unfold b'; rewrite length_skipn; lia).
    assert (len b' = len a) as Hz by (unfold len; now rewrite Hl').
    replace (Z.min (len a) (len b)) with (len a) by (unfold len; lia).
    rewrite Hz, Z.min_id.
    rewrite (slice_from_recent b (len a)) by (unfold len; lia).
    replace (Z.to_nat (len b - len a)) with (length b - length a)%nat
      by (unfold len; lia).
    fold b'.
    assert (slice_from b' (- len a) = b') as ->
      by (rewrite <- Hz; apply slice_from_whole).
    reflexivity.
  - intros Hempty. unfold calculateTrackingError.
    assert (Z.min (len a) (len b) = 0%Z) as Hmin.
    { destruct Hempty as [-> | ->]; unfold len; simpl; lia. }
    rewrite Hmin. simpl Z.opp.
    rewrite volatility_of_nan; [reflexivity|].
    apply Forall_map.
    destruct Hempty as [-> | ->].
    + constructor.
    + apply Forall_forall. intros [i x] _. simpl.
      unfold getN, slice_from, slice. simpl. unfold get.
      destruct (i <? 0)%Z; [apply sub_nan_r|].
      destruct (Z.to_nat i); apply sub_nan_r.
Qed.

Lemma calculateTrackingError_alignment_witness :
  calculateTrackingError Samples.asset_returns_3 Samples.benchmark_returns_2
  = calculateTrackingError [Fin 0.02; Fin 0.04] Samples.benchmark_returns_2 /\
  calculateTrackingError Samples.asset_returns_3 [] = NaN.
Proof.
  split.
  - apply (proj1 (calculateTrackingError_alignment
                    Samples.asset_returns_3 Samples.benchmark_returns_2)).
    simpl. lia.
  - apply (calculateTrackingError_alignment Samples.asset_returns_3 []).
    now right.
Defined.

(** X6.  A non-empty finite series tracks itself without error. *)
Theorem calculateTrackingError_self (x : list R) :
  x <> [] -> calculateTrackingError (finite x) (finite x) = Fin 0.
Proof.
  intros Hne. unfold calculateTrackingError.
  rewrite Z.min_id, slice_from_whole.
  assert (map (fun ir : Z * num => sub (snd ir) (getN (finite x) (fst ir)))
              (combine (range 0 (len (finite x))) (finite x))
          = finite (map (fun _ => 0) x)) as Hd.
  { transitivity (map (fun ir : Z * num => sub (snd ir) (snd ir))
                      (combine (range 0 (len (finite x))) (finite x))).
    - apply map_ext_in. intros [i a] Hin. simpl. unfold getN.
      now rewrite (indexed_get (finite x) i a Hin).
    - rewrite <- (Z.add_0_l (len (finite x))).
      rewrite (combine_range_indexed (finite x) 0).
      rewrite <- (map_map snd (fun a => sub a a)), map_snd_indexed.
      unfold finite. rewrite !map_map. apply map_ext.
      intros r. simpl. f_equal. lra. }
  rewrite Hd.
  rewrite (volatility_flat (map (fun _ => 0) x) 0).
  - simpl. rewrite Rltb_false by lra. simpl. f_equal. lra.
  - destruct x; [congruence | discriminate].
  - intros a Ha. apply in_map_iff in Ha. destruct Ha as [_ [<- _]].
    reflexivity.
Qed.

Lemma calculateTrackingError_self_witness :
  calculateTrackingError (finite Samples.scenario_returns)
    (finite Samples.scenario_returns) = Fin 0.
Proof. apply calculateTrackingError_self. discriminate. Defined.

End TrackingError.

(* ------------------------------------------------------------------ *)
(** ** Further properties: drawdown of positive prices, risk score *)

Section DrawdownBound.

Import HistoricalAnalysis.

(** X7.  When every close is positive, the maximum drawdown is a finite
    percentage of at least 0 and at most 100; when in addition the closes
    never fall from one candle to the next, it is 0 and no dates are
    recorded. *)
Theorem calculateMaxDrawdown_positive (data : list Candle) :
  data <> [] ->
  (forall d, In d data -> 0 < close d) ->
  let r := calculateMaxDrawdown data in
  (exists v, max_drawdown_percent r = Fin v /\ 0 <= v <= 100) /\
  (StronglySorted Rle (map close data) ->
   max_drawdown_percent r = Fin 0 /\
   start_date r = ""%string /\ end_date r = ""%string).
Proof.
  intros Hne Hpos. cbv zeta.
  destruct (dd_loop_inv data Hne) as [_ [_ [_ Hrec]]].
  unfold calculateMaxDrawdown.
  cbn [max_drawdown_percent start_date end_date].
  destruct Hrec as [[Hz [Hs He]]|[q [t [cq [ct Hr]]]]].
  - rewrite Hz, Hs, He. simpl mul. rewrite Rmult_0_l.
    split; [exists 0; split; [reflexivity | lra] | intros _; repeat split].
  - destruct Hr as [Hqt [_ [Hq [Hct [_ [_ [Hrun [Hm Hgt]]]]]]]].
    assert (0 < close cq) as Hcq by (apply Hpos; eapply nth_error_In; eauto).
    assert (0 < close ct) as Hcct by (apply Hpos; eapply nth_error_In; eauto).
    rewrite Hm in Hgt |- *. unfold decline_at in *.
    rewrite <- Hrun, (nth_closes data t ct Hct) in *.
    rewrite div_fin in * by lra.
    unfold gt in Hgt. simpl in Hgt. apply Rltb_iff in Hgt.
    assert (/ close cq > 0) as Hinv by (apply Rinv_0_lt_compat; exact Hcq).
    assert ((close cq - close ct) / close cq < 1) as Hlt1.
    { apply Rmult_lt_reg_r with (close cq); [exact Hcq|].
      unfold Rdiv. rewrite Rmult_assoc, Rinv_l by lra. lra. }
    split.
    + exists ((close cq - close ct) / close cq * 100).
      split; [reflexivity | lra].
    + intros Hsorted. exfalso.
      assert (close cq <= close ct) as Hle.
      { apply (strongly_sorted_nth Rle (map close data) q t);
          [exact Hsorted | lia | |]; rewrite nth_error_map.
        - now rewrite Hq.
        - now rewrite Hct. }
      assert ((close cq - close ct) / close cq <= 0); [|lra].
      unfold Rdiv. 
      assert (0 <= (close ct - close cq) * / close cq)
        by (apply Rmult_le_pos; lra).
      lra.
Qed.

Lemma calculateMaxDrawdown_positive_witness :
  exists v,
    max_drawdown_percent (calculateMaxDrawdown Samples.dip_then_high) = Fin v /\
    0 <= v <= 100.
Proof.
  destruct (calculateMaxDrawdown_positive Samples.dip_then_high) as [H _].
  - discriminate.
  - intros d Hd. unfold Samples.dip_then_high in Hd. simpl in Hd.
    destruct Hd as [<-|[<-|[<-|[]]]]; simpl; lra.
  - exact H.
Defined.

(** X8.  Whatever the metrics (infinities and NaN included), the risk
    score is a finite number between 15 and 100, and the level is 'high'
    exactly above 70 and 'low' exactly below 40. *)
Theorem assessOverallRisk_score (vol mdd sharpe skew kurt : num) :
  let a := assessOverallRisk vol mdd sharpe skew kurt in
  exists s,
    risk_score a = Fin s /\ 15 <= s <= 100 /\
    (risk_level a = "high"%string <-> 70 < s) /\
    (risk_level a = "low"%string <-> s < 40) /\
    (risk_level a = "moderate"%string <-> 40 <= s <= 70).
Proof.
  cbv zeta. unfold assessOverallRisk. cbn [risk_score risk_level].
  destruct (gt vol (Fin 0.3)); destruct (lt vol (Fin 0.1));
    destruct (lt sharpe (Fin 0)); destruct (gt sharpe (Fin 1));
    destruct (gt mdd (Fin 50)); destruct (lt mdd (Fin 10));
    unfold gt; js_eval;
    eexists; (split; [reflexivity|]);
    (split; [lra|]);
    (split; [|split]);
    (split; intros Hlevel;
     first [reflexivity | discriminate Hlevel | lra]).
Qed.

End DrawdownBound.

(* ------------------------------------------------------------------ *)
(** ** Further properties: risk metrics of a flat market *)

Section FlatRisk.

Import HistoricalAnalysis.

Lemma returns_of_flat (c : R) (n : nat) :
  c <> 0 ->
  returns_of (finite (repeat c n)) = finite (repeat 0 (n - 1)).
Proof.
  intros Hc. induction n as [|n IH]; [reflexivity|].
  destruct n as [|n]; [reflexivity|].
  change (returns_of (finite (repeat c (S (S n)))))
    with (div (sub (Fin c) (Fin c)) (Fin c)
            :: returns_of (finite (repeat c (S n)))).
  rewrite IH. simpl sub. rewrite div_fin by exact Hc.
  replace (S (S n) - 1)%nat with (S (S n - 1)) by lia.
  simpl repeat. unfold finite. simpl map. f_equal. f_equal. now field.
Qed.

Lemma calculateReturns_flat (data : list Candle) (c : R) :
  c <> 0 -> (forall d, In d data -> close d = c) ->
  calculateReturns data = finite (repeat 0 (length data - 1)).
Proof.
  intros Hc Hflat. unfold calculateReturns.
  replace (closes data) with (finite (repeat c (length data))).
  - now apply returns_of_flat.
  - unfold closes, finite. induction data as [|d data IH]; [reflexivity|].
    simpl. rewrite (Hflat d) by now left. f_equal.
    apply IH. intros d' Hd'. apply Hflat. now right.
Qed.

Lemma pow_n_one (n : nat) : pow_n (Fin 1) n = Fin 1.
Proof.
  induction n as [|n IH]; [reflexivity|].
  destruct n as [|n]; [reflexivity|].
  change (pow_n (Fin 1) (S (S n))) with (mul (Fin 1) (pow_n (Fin 1) (S n))).
  rewrite IH. simpl. now rewrite Rmult_1_l.
Qed.

Lemma mean_of_zeros (k : nat) :
  (1 <= k)%nat -> mean_of (finite (repeat 0 k)) = Fin 0.
Proof.
  intros Hk. rewrite mean_of_finite by (destruct k; [lia | discriminate]).
  rewrite (Rsum_flat 0) by (intros a Ha; now apply repeat_spec in Ha).
  f_equal. unfold Rdiv. ring.
Qed.

Lemma downside_of_zeros (k : nat) :
  calculateDownsideDeviation (finite (repeat 0 k)) (Fin 0) = Fin 0.
Proof.
  unfold calculateDownsideDeviation.
  replace (filter (fun ret => lt ret (Fin 0)) (finite (repeat 0 k)))
    with (@nil num); [reflexivity|].
  induction k as [|k IH]; [reflexivity|].
  unfold finite in *. simpl. now rewrite Rltb_false by lra.
Qed.

(** X9.  On 10 or more candles that all close at one non-zero price, with
    a positive risk-free rate, [calculateRiskMetrics] reports volatility 0
    and divides by it: the Sharpe and Sortino ratios are both -Infinity,
    and the assessment lists 'negative_risk_adjusted_returns'.  On the
    same returns [calculateSharpeRatio] answers 0. *)
Theorem calculateRiskMetrics_flat (symbol : string) (data : list Candle)
    (confidence_levels : list num) (c f : R) :
  (10 <= length data)%nat -> c <> 0 -> 0 < f ->
  (forall d, In d data -> close d = c) ->
  exists m,
    calculateRiskMetrics symbol data confidence_levels (Fin f) = Ok m /\
    volatility m = Fin 0 /\
    sharpe_ratio m = NInf /\
    sortino_ratio m = NInf /\
    In "negative_risk_adjusted_returns"%string
       (key_concerns (risk_assessment m)) /\
    calculateSharpeRatio (calculateReturns data) (Fin 0.05) = Fin 0.
Proof.
  intros Hlen Hc Hf Hflat. unfold calculateRiskMetrics.
  destruct (Z.ltb_spec (len data) 10) as [Hlt|_];
    [unfold len in Hlt; lia|].
  rewrite (calculateReturns_flat data c Hc Hflat).
  set (k := (length data - 1)%nat). assert (1 <= k)%nat as Hk by (unfold k; lia).
  assert (calculateVolatility (finite (repeat 0 k)) = Fin 0) as Hvol.
  { apply (volatility_flat (repeat 0 k) 0).
    - destruct k; [lia | discriminate].
    - intros a Ha. now apply repeat_spec in Ha. }
  assert (JS.sqrt (Fin 365) = Fin (R_sqrt.sqrt 365)) as Hsq
    by (unfold JS.sqrt; now rewrite Rltb_false by lra).
  assert (sub (pow_n (add (Fin 1) (mean_of (finite (repeat 0 k)))) 365)
              (Fin 1) = Fin (1 - 1)) as Hann.
  { rewrite mean_of_zeros by exact Hk. simpl add. rewrite Rplus_0_r.
    now rewrite pow_n_one. }
  assert (forall z, z = 0 ->
            div (sub (mul (Fin (1 - 1)) (Fin 100)) (Fin f)) (Fin z) = NInf)
    as Hdiv.
  { intros z ->. simpl. rewrite (Reqb_true 0 0) by reflexivity.
    now rewrite Reqb_false, Rltb_false by lra. }
  eexists. split; [reflexivity|].
  cbn [volatility sharpe_ratio sortino_ratio risk_assessment].
  rewrite Hvol, Hsq, Hann, downside_of_zeros.
  split; [reflexivity|].
  assert (mul (mul (Fin 0) (Fin (R_sqrt.sqrt 365))) (Fin 100)
          = Fin (0 * R_sqrt.sqrt 365 * 100)) as Hz by reflexivity.
  rewrite !Hz, !Hdiv by ring.
  split; [reflexivity|]. split; [reflexivity|]. split.
  - unfold assessOverallRisk. cbn [key_concerns].
    unfold identifyKeyRiskConcerns.
    apply in_or_app. right. apply in_or_app. right.
    apply in_or_app. left. simpl. now left.
  - unfold calculateSharpeRatio. rewrite Hvol, Hsq. simpl mul.
    simpl eqb. now rewrite Reqb_true by ring.
Qed.

Lemma calculateRiskMetrics_flat_witness :
  exists m,
    calculateRiskMetrics "BTC" (Samples.flat_candles 12)
      default_confidence_levels default_risk_free_rate = Ok m /\
    sharpe_ratio m = NInf /\ sortino_ratio m = NInf.
Proof.
  destruct (calculateRiskMetrics_flat "BTC" (Samples.flat_candles 12)
              default_confidence_levels 100 5)
    as [m [Hm [_ [Hs [Ht _]]]]].
  - unfold Samples.flat_candles. rewrite repeat_length. lia.
  - lra.
  - lra.
  - intros d Hd. unfold Samples.flat_candles in Hd.
    apply repeat_spec in Hd. now subst d.
  - exists m. repeat split; assumption.
Defined.

End FlatRisk.

(* ------------------------------------------------------------------ *)
(** ** Further properties: moving averages *)

Section MovingAverages.

Import TechnicalAnalysis.

Lemma ema_multiplier (period : Z) :
  (1 <= period)%Z ->
  exists k, div (Fin 2) (add (ofZ period) (Fin 1)) = Fin k /\ 0 < k <= 1.
Proof.
  intros Hp. assert (1 <= IZR period) by (apply IZR_le; exact Hp).
  unfold ofZ. simpl add. rewrite div_fin by lra.
  exists (2 / (IZR period + 1)). split; [reflexivity|].
  assert (0 < / (IZR period + 1)) by (apply Rinv_0_lt_compat; lra).
  split; [unfold Rdiv; nra|].
  apply Rmult_le_reg_r with (IZR period + 1); [lra|].
  unfold Rdiv. rewrite Rmult_assoc, Rinv_l by lra. lra.
Qed.

Lemma ema_from_bounded (k prev lo hi : R) (prices : list R) :
  0 < k <= 1 -> lo <= prev <= hi ->
  (forall p, In p prices -> lo <= p <= hi) ->
  Forall (fun e => exists r, e = Fin r /\ lo <= r <= hi)
         (ema_from (Fin k) (Fin prev) (finite prices)).
Proof.
  intros Hk. revert prev. induction prices as [|p rest IH];
    intros prev Hprev Hall; simpl; constructor.
  - exists ((p - prev) * k + prev). split; [reflexivity|].
    assert (lo <= p <= hi) by (apply Hall; now left). nra.
  - apply IH.
    + assert (lo <= p <= hi) by (apply Hall; now left). nra.
    + intros q Hq. apply Hall. now right.
Qed.

(** X10.  For a period of at least 2, where the multiplier is at most
    2/3, and a non-empty finite price series, [calculateEMAValues] returns
    one finite value per price, each between the lowest and the highest
    price; on a series with a single price throughout, every value is
    that price. *)
Theorem calculateEMAValues_bounded (prices : list R) (period : Z)
    (lo hi : R) :
  prices <> [] -> (2 <= period)%Z ->
  (forall p, In p prices -> lo <= p <= hi) ->
  length (calculateEMAValues (finite prices) period) = length prices /\
  Forall (fun e => exists r, e = Fin r /\ lo <= r <= hi)
         (calculateEMAValues (finite prices) period) /\
  (lo = hi -> Forall (fun e => e = Fin lo)
                     (calculateEMAValues (finite prices) period)).
Proof.
  intros Hne Hp Hall.
  assert (Forall (fun e => exists r, e = Fin r /\ lo <= r <= hi)
                 (calculateEMAValues (finite prices) period)) as Hb.
  { destruct prices as [|p0 rest]; [congruence|].
    destruct (ema_multiplier period ltac:(lia)) as [k [Hk Hk01]].
    unfold calculateEMAValues. rewrite Hk. simpl finite.
    change (map Fin rest) with (finite rest).
    constructor.
    - exists p0. split; [reflexivity|]. apply Hall. now left.
    - apply ema_from_bounded; [exact Hk01 | apply Hall; now left |].
      intros q Hq. apply Hall. now right. }
  split; [|split; [exact Hb|]].
  - rewrite calculateEMAValues_length.
    + unfold finite. apply length_map.
    + destruct prices; [congruence | discriminate].
  - intros ->. eapply Forall_impl; [|exact Hb].
    intros e [r [-> Hr]]. f_equal. lra.
Qed.

Lemma calculateEMAValues_bounded_witness :
  Forall (fun e => e = Fin 100)
         (calculateEMAValues (finite (repeat 100 30)) 12).
Proof.
  apply (calculateEMAValues_bounded (repeat 100 30) 12 100 100);
    [discriminate | lia | | reflexivity].
  intros p Hp. apply repeat_spec in Hp. subst p. lra.
Defined.

(** The last value a loop over [lo .. hi - 1] pushes. *)
Lemma get_map_range_last {A : Type} (f : Z -> A) (lo hi : Z) :
  (lo < hi)%Z ->
  get (map f (range lo hi)) (len (map f (range lo hi)) - 1) = Some (f (hi - 1)%Z).
Proof.
  intros H. rewrite range_last by exact H. rewrite map_app. simpl map at 2.
  apply get_last_snoc.
Qed.

Lemma window_last (values : list num) (period : Z) :
  (1 <= period <= len values)%Z ->
  window values period (len values - 1)
  = skipn (Z.to_nat (len values - period)) values.
Proof.
  intros Hp. unfold window, slice, rel_index.
  replace (len values - 1 - period + 1)%Z with (len values - period)%Z by lia.
  replace (len values - 1 + 1)%Z with (len values) by lia.
  destruct (Z.ltb_spec (len values - period) 0); [lia|].
  destruct (Z.ltb_spec (len values) 0); [lia|].
  rewrite Z.min_id, Z.min_l by lia.
  apply firstn_all2. rewrite length_skipn. unfold len in *. lia.
Qed.

Lemma skipn_finite (n : nat) (l : list R) :
  skipn n (finite l) = finite (skipn n l).
Proof. unfold finite. apply skipn_map. Qed.

(** The current average is taken over the last [period] closes. *)
Lemma calculateSMA_last_window (data : list Candle) (period : Z) :
  (1 <= period <= len data)%Z ->
  exists trend,
    calculateSMA data period
    = let currentSMA :=
        Some (div (JS.sum (skipn (Z.to_nat (len data - period))
                                 (closes data)))
                  (ofZ period)) in
      let currentPrice := get (closes data) (len data - 1) in
      Ok (mkSMA currentSMA currentPrice
            (price_vs currentPrice currentSMA)
            (price_signal currentPrice currentSMA) trend).
Proof.
  intros Hp. unfold calculateSMA.
  destruct (Z.ltb_spec (len data) period); [lia|].
  assert (len (closes data) = len data) as Hl
    by (unfold closes; apply len_map).
  unfold sma_values. rewrite get_map_range_last by lia.
  unfold sma_at. rewrite window_last by lia. rewrite Hl.
  eexists. reflexivity.
Qed.

Lemma recent_closes (older recent : list Candle) :
  skipn (Z.to_nat (len (older ++ recent) - len recent))
        (closes (older ++ recent)) = closes recent /\
  (recent <> [] ->
   get (closes (older ++ recent)) (len (older ++ recent) - 1)
   = get (closes recent) (len recent - 1)).
Proof.
  unfold closes. rewrite map_app, len_app. split.
  - replace (Z.to_nat (len older + len recent - len recent))
      with (length (map (fun d => Fin (close d)) older))
      by (rewrite length_map; unfold len; lia).
    rewrite skipn_app, skipn_all, Nat.sub_diag. reflexivity.
  - intros Hne. unfold get, len.
    assert (0 < length recent)%nat
      by (destruct recent; [congruence | simpl; lia]).
    destruct (Z.ltb_spec (Z.of_nat (length older) + Z.of_nat (length recent)
                          - 1) 0); [lia|].
    destruct (Z.ltb_spec (Z.of_nat (length recent) - 1) 0); [lia|].
    rewrite nth_error_app2 by (rewrite length_map; lia).
    rewrite length_map. f_equal. lia.
Qed.

(** X11.  [calculateSMA] throws exactly when there are fewer candles than
    the period.  Otherwise, for a period of at least 1, what it reports
    about the present (the current average, the current price, the
    distance between them and the signal) is what it reports on the last
    [period] candles alone: older candles do not enter. *)
Theorem calculateSMA_current (older recent : list Candle) (period : Z) :
  ((len (older ++ recent) < period)%Z ->
   calculateSMA (older ++ recent) period
   = Throw "Insufficient data for SMA calculation") /\
  ((1 <= period)%Z -> len recent = period ->
   exists r r',
     calculateSMA (older ++ recent) period = Ok r /\
     calculateSMA recent period = Ok r' /\
     sma_current_value r = sma_current_value r' /\
     sma_current_price r = sma_current_price r' /\
     price_vs_sma r = price_vs_sma r' /\
     sma_signal r = sma_signal r').
Proof.
  split.
  - intros H. unfold calculateSMA.
    destruct (Z.ltb_spec (len (older ++ recent)) period);
      [reflexivity | lia].
  - intros Hp Hlen.
    assert (recent <> []) as Hne
      by (intros ->; unfold len in Hlen; simpl in Hlen; lia).
    destruct (calculateSMA_last_window (older ++ recent) period)
      as [t Hr]; [rewrite len_app; pose proof (len_nonneg older); lia|].
    destruct (calculateSMA_last_window recent period) as [t' Hr']; [lia|].
    cbv zeta in Hr, Hr'.
    destruct (recent_closes older recent) as [Hw Hlast].
    subst period. rewrite Hw, (Hlast Hne) in Hr.
    rewrite Z.sub_diag in Hr'. simpl skipn in Hr'.
    eexists. eexists. split; [exact Hr|]. split; [exact Hr'|].
    repeat split.
Qed.

Lemma calculateSMA_current_witness :
  exists r r',
    calculateSMA (Samples.rising 6 ++ Samples.rising 14) 14 = Ok r /\
    calculateSMA (Samples.rising 14) 14 = Ok r' /\
    sma_current_value r = sma_current_value r' /\
    sma_signal r = sma_signal r'.
Proof.
  destruct (proj2 (calculateSMA_current (Samples.rising 6)
                     (Samples.rising 14) 14))
    as [r [r' [Hr [Hr' [Hv [_ [_ Hs]]]]]]].
  - lia.
  - unfold len, Samples.rising. rewrite length_map, length_seq. lia.
  - exists r, r'. repeat split; assumption.
Defined.

End MovingAverages.

(* ------------------------------------------------------------------ *)
(** ** Further properties: Bollinger bands *)

Section Bollinger.

Import TechnicalAnalysis.

(** The last band of a finite series: mean and deviation of the last
    [period] prices. *)
Lemma band_at_last (values : list R) (period : Z) (k : R) :
  (1 <= period <= len values)%Z ->
  let w := skipn (Z.to_nat (len values - period)) values in
  let m := Rsum w / IZR period in
  let sd := R_sqrt.sqrt (sq_dev m w / IZR period) in
  band_at (finite values) period (Fin k) (len (finite values) - 1)
  = mkBand (Fin m) (Fin (m + sd * k)) (Fin (m - sd * k)).
Proof.
  intros Hp. cbv zeta.
  assert (len (finite values) = len values) as Hl
    by (unfold finite; apply len_map).
  assert (1 <= IZR period) as H1 by (apply IZR_le; lia).
  unfold band_at. rewrite window_last by (rewrite Hl; exact Hp).
  rewrite Hl, skipn_finite, sum_finite. unfold ofZ.
  rewrite div_fin by lra.
  set (w := skipn (Z.to_nat (len values - period)) values).
  set (m := Rsum w / IZR period).
  change (fold_left (fun s price => add s (sq (sub price (Fin m))))
            (finite w) (Fin 0))
    with (fold_left (fun s ret => add s (HistoricalAnalysis.pow2 (sub ret (Fin m))))
            (finite w) (Fin 0)).
  rewrite sq_fold_finite, Rplus_0_l, div_fin by lra.
  assert (0 <= sq_dev m w / IZR period) as Hv.
  { apply Rmult_le_pos; [apply sq_dev_nonneg|].
    apply Rlt_le, Rinv_0_lt_compat. lra. }
  unfold JS.sqrt. rewrite Rltb_false by exact Hv. reflexivity.
Qed.

(** X12.  For a period of at least 1 covered by the candles and a
    multiplier that is not negative, [calculateBollingerBands] reports
    finite bands with lower <= middle <= upper, and its middle band is
    the current value [calculateSMA] reports for the same candles and
    period. *)
Theorem calculateBollingerBands_order (data : list Candle) (period : Z)
    (k : R) :
  (1 <= period <= len data)%Z -> 0 <= k ->
  exists r lo mid up r',
    calculateBollingerBands data period (Fin k) = Ok r /\
    lower_band r = Some (Fin lo) /\ middle_band r = Some (Fin mid) /\
    upper_band r = Some (Fin up) /\
    lo <= mid <= up /\
    calculateSMA data period = Ok r' /\
    sma_current_value r' = middle_band r.
Proof.
  intros Hp Hk.
  destruct (calculateSMA_last_window data period Hp) as [trend Hsma].
  cbv zeta in Hsma. rewrite Hsma. clear Hsma.
  unfold calculateBollingerBands.
  destruct (Z.ltb_spec (len data) period); [lia|].
  rewrite closes_finite.
  assert (len (map close data) = len data) as Hl by apply len_map.
  assert (len (finite (map close data)) = len data) as Hl'
    by (unfold finite; rewrite len_map; exact Hl).
  rewrite get_map_range_last by lia.
  rewrite band_at_last by lia.
  rewrite skipn_finite, sum_finite, <- Hl.
  set (w := skipn (Z.to_nat (len (map close data) - period)) (map close data)).
  set (m := Rsum w / IZR period).
  set (sd := R_sqrt.sqrt (sq_dev m w / IZR period)).
  assert (0 <= sd) as Hsd by apply sqrt_pos.
  assert (1 <= IZR period) as H1 by (apply IZR_le; lia).
  unfold ofZ. rewrite div_fin by lra. fold m.
  eexists. exists (m - sd * k), m, (m + sd * k). eexists.
  split; [reflexivity|].
  cbn [lower_band middle_band upper_band option_map band_upper band_middle
       band_lower sma_current_value].
  split; [reflexivity|]. split; [reflexivity|]. split; [reflexivity|].
  assert (0 <= sd * k) by (apply Rmult_le_pos; assumption).
  split; [lra|]. split; reflexivity.
Qed.

Lemma calculateBollingerBands_order_witness :
  exists r lo mid up,
    calculateBollingerBands (Samples.rising 25) 20 (Fin 2) = Ok r /\
    lower_band r = Some (Fin lo) /\ middle_band r = Some (Fin mid) /\
    upper_band r = Some (Fin up) /\
    lo <= mid <= up.
Proof.
  destruct (calculateBollingerBands_order (Samples.rising 25) 20 2)
    as [r [lo [mid [up [r' [Hr [Hlo [Hmid [Hup [Hord _]]]]]]]]]].
  - unfold len, Samples.rising. rewrite length_map, length_seq. lia.
  - lra.
  - exists r, lo, mid, up. repeat split; try assumption; apply Hord.
Defined.

End Bollinger.

(* ------------------------------------------------------------------ *)
(** ** Further properties: MACD for any pair of periods *)

Section MACDGeneral.

Import TechnicalAnalysis.

Lemma lt_nan_r (a : num) : lt a NaN = false.
Proof. now destruct a. Qed.

Lemma macd_values_nan_last (fastEMA slowEMA : list num)
    (fastPeriod slowPeriod : Z) :
  (fastPeriod < slowPeriod)%Z -> (1 <= slowPeriod <= len fastEMA)%Z ->
  len slowEMA = len fastEMA ->
  exists body,
    macd_values fastEMA slowEMA fastPeriod slowPeriod = body ++ [NaN] /\
    len body = (len fastEMA - slowPeriod)%Z.
Proof.
  intros Hfs Hs Hl. unfold macd_values.
  rewrite range_last by lia. rewrite map_app. simpl map at 2.
  eexists. split.
  - f_equal. f_equal. unfold getN at 2. rewrite get_out by lia.
    simpl toNum. apply sub_nan_r.
  - rewrite len_map. unfold len at 1. rewrite range_length. lia.
Qed.

Lemma trend_of_nan_last (body : list num) :
  calculateTrendDirection (body ++ [NaN]) = "unknown"%string \/
  calculateTrendDirection (body ++ [NaN]) = "sideways"%string.
Proof.
  unfold calculateTrendDirection.
  destruct (len (body ++ [NaN]) <? 2)%Z; [now left|]. right.
  unfold getN. rewrite !get_last_snoc. simpl toNum.
  simpl sub. simpl div. reflexivity.
Qed.

Lemma crossover_of_nan_last (body sbody : list num) :
  detectMACDCrossover (body ++ [NaN]) (sbody ++ [NaN]) = "none"%string.
Proof.
  unfold detectMACDCrossover.
  destruct ((len (body ++ [NaN]) <? 2) || (len (sbody ++ [NaN]) <? 2))%Z;
    [reflexivity|].
  cbv zeta. unfold getN. rewrite !get_last_snoc. simpl toNum.
  unfold gt. change (lt NaN NaN) with false.
  rewrite !andb_false_r. reflexivity.
Qed.

Lemma divergence_of_nan_last (data : list Candle) (body : list num) :
  detectMACDDivergence data (body ++ [NaN]) = "none"%string.
Proof.
  unfold detectMACDDivergence.
  destruct (Z.ltb_spec (len data) 10) as [|Hd]; [reflexivity|].
  destruct (Z.ltb_spec (len (body ++ [NaN])) 10) as [|Hm]; [reflexivity|].
  simpl orb.
  assert (exists b', slice_from (body ++ [NaN]) (-10) = b' ++ [NaN])
    as [b' ->].
  { replace (slice_from (body ++ [NaN]) (-10))
      with (skipn (Z.to_nat (len (body ++ [NaN]) - 10)) (body ++ [NaN]))
      by (symmetry; apply (slice_from_recent (body ++ [NaN]) 10); lia).
    rewrite len_app in *. unfold len in *. simpl length in *.
    rewrite skipn_app.
    replace (Z.to_nat (Z.of_nat (length body) + Z.of_nat 1 - 10)
             - length body)%nat with 0%nat by lia.
    simpl skipn. eauto. }
  destruct (trend_of_nan_last b') as [-> | ->]; simpl String.eqb;
    now rewrite !andb_false_r.
Qed.

(** X13.  Whenever the fast period is below the slow one, the MACD loop
    reads the slow average past its end for the most recent candles: for
    every series long enough to pass the guard the whole result is fixed,
    with a NaN MACD line, signal line and histogram, the signal
    'bearish', and no crossover or divergence ever reported. *)
Theorem calculateMACD_degenerate (data : list Candle)
    (fastPeriod slowPeriod signalPeriod : Z) :
  (fastPeriod < slowPeriod)%Z -> (1 <= slowPeriod)%Z ->
  (0 <= signalPeriod)%Z -> (slowPeriod + signalPeriod <= len data)%Z ->
  calculateMACD data fastPeriod slowPeriod signalPeriod
  = Ok (mkMACD (Some NaN) (Some NaN) (Some NaN)
               "bearish" "none" "none").
Proof.
  intros Hfs Hs Hsig Hlen. unfold calculateMACD.
  destruct (Z.ltb_spec (len data) (slowPeriod + signalPeriod)); [lia|].
  assert (closes data <> []) as Hne.
  { unfold closes. destruct data; [unfold len in *; simpl in *; lia|].
    discriminate. }
  assert (forall p, len (calculateEMAValues (closes data) p) = len data)
    as Hema.
  { intros p. unfold len. rewrite calculateEMAValues_length by exact Hne.
    unfold closes. now rewrite length_map. }
  destruct (macd_values_nan_last
              (calculateEMAValues (closes data) fastPeriod)
              (calculateEMAValues (closes data) slowPeriod)
              fastPeriod slowPeriod) as [body [Hm Hb]].
  - exact Hfs.
  - rewrite Hema. lia.
  - now rewrite !Hema.
  - rewrite Hm. rewrite Hema in Hb.
    destruct (calculateEMAValues_nan_last body signalPeriod)
      as [sbody [Hsl Hsb]].
    rewrite Hsl.
    rewrite crossover_of_nan_last, divergence_of_nan_last.
    rewrite !get_last_snoc.
    unfold histogram_values.
    rewrite get_map_range_last
      by (rewrite len_app; unfold len in *; simpl length; lia).
    unfold getN at 1. rewrite get_last_snoc. reflexivity.
Qed.

Lemma calculateMACD_degenerate_witness :
  calculateMACD (Samples.rising 40) 5 10 3
  = Ok (mkMACD (Some NaN) (Some NaN) (Some NaN) "bearish" "none" "none").
Proof.
  apply calculateMACD_degenerate; try lia.
  unfold len, Samples.rising. rewrite length_map, length_seq. lia.
Defined.

End MACDGeneral.

(* ------------------------------------------------------------------ *)
(** ** Further properties: weights and percentages *)

Section WeightShares.

Import TechnicalAnalysis.

Lemma weight_is_value (s : Signal) :
  nonneg (weight s) -> weight s = Fin (weight_value s) /\ 0 <= weight_value s.
Proof. intros [r [Hr Hpos]]. unfold weight_value. rewrite Hr. now split. Qed.

Lemma weights_sum (l : list Signal) :
  Forall (fun s => nonneg (weight s)) l ->
  JS.sum (map weight l) = Fin (Rsum (map weight_value l)).
Proof.
  intros H. replace (map weight l) with (finite (map weight_value l)).
  - apply sum_finite.
  - unfold finite. rewrite map_map. apply map_ext_in. intros s Hs.
    rewrite Forall_forall in H. symmetry. apply weight_is_value. now apply H.
Qed.

Lemma Forall_filter {A : Type} (P : A -> Prop) (p : A -> bool) (l : list A) :
  Forall P l -> Forall P (filter p l).
Proof.
  intros H. apply Forall_forall. intros x Hx. apply filter_In in Hx.
  rewrite Forall_forall in H. now apply H.
Qed.

Lemma share_nonneg (p : Signal -> bool) (l : list Signal) :
  Forall (fun s => nonneg (weight s)) l ->
  0 <= Rsum (map weight_value (filter p l)).
Proof.
  induction 1 as [|s l Hs Hl IH]; [unfold Rsum; simpl; lra|].
  simpl. destruct (p s); [|exact IH].
  simpl map. rewrite Rsum_cons.
  destruct (weight_is_value s Hs) as [_ Hpos]. lra.
Qed.

(** A share grows with the set of signals it counts. *)
Lemma share_monotone (p q : Signal -> bool) (l : list Signal) :
  Forall (fun s => nonneg (weight s)) l ->
  (forall s, In s l -> p s = true -> q s = true) ->
  Rsum (map weight_value (filter p l))
  <= Rsum (map weight_value (filter q l)).
Proof.
  induction 1 as [|s l Hs Hl IH]; intros Hpq; [unfold Rsum; simpl; lra|].
  assert (Rsum (map weight_value (filter p l))
          <= Rsum (map weight_value (filter q l))) as Hrec
    by (apply IH; intros s' Hs' Hp; apply Hpq; [now right | exact Hp]).
  destruct (weight_is_value s Hs) as [_ Hpos].
  simpl. destruct (p s) eqn:Hp.
  - rewrite (Hpq s (or_introl eq_refl) Hp). simpl map.
    rewrite !Rsum_cons. lra.
  - destruct (q s); [|exact Hrec]. simpl map. rewrite Rsum_cons. lra.
Qed.

Lemma share_total (p : Signal -> bool) (l : list Signal) :
  Forall (fun s => nonneg (weight s)) l ->
  Rsum (map weight_value (filter p l)) <= Rsum (map weight_value l).
Proof.
  intros H.
  replace l with (filter (fun _ => true) l) at 2.
  - apply share_monotone; [exact H | reflexivity].
  - induction l as [|s l IH]; [reflexivity|]. simpl. f_equal. apply IH.
    now inversion H.
Qed.

Lemma shares_disjoint (l : list Signal) :
  Forall (fun s => nonneg (weight s)) l ->
  Rsum (map weight_value (filter is_bullish l))
  + Rsum (map weight_value (filter is_bearish l))
  <= Rsum (map weight_value l).
Proof.
  induction 1 as [|s l Hs Hl IH]; [unfold Rsum; simpl; lra|].
  destruct (weight_is_value s Hs) as [_ Hpos].
  simpl. rewrite Rsum_cons. destruct (is_bullish s) eqn:Hb.
  - rewrite (bullish_not_bearish s Hb). simpl map. rewrite Rsum_cons. lra.
  - destruct (is_bearish s); simpl map; rewrite ?Rsum_cons; lra.
Qed.

(** A percentage of the total weight, for a share counted by [p]. *)
Lemma percent_of_share (p : Signal -> bool) (l : list Signal) :
  Forall (fun s => nonneg (weight s)) l ->
  0 < Rsum (map weight_value l) ->
  mul (div (weight_of p l) (JS.sum (map weight l))) (Fin 100)
  = Fin (Rsum (map weight_value (filter p l))
         / Rsum (map weight_value l) * 100).
Proof.
  intros H Hpos. unfold weight_of.
  rewrite (weights_sum (filter p l)) by now apply Forall_filter.
  rewrite (weights_sum l) by exact H.
  rewrite div_fin by lra. reflexivity.
Qed.

(** When the signals that may count hold too small a share of the total
    weight, the percentage stays at or below the threshold. *)
Lemma share_below_threshold (p q : Signal -> bool) (l : list Signal)
    (th : R) :
  Forall (fun s => nonneg (weight s)) l ->
  (forall s, In s l -> p s = true -> q s = true) ->
  Rsum (map weight_value (filter q l)) * 100
  <= th * Rsum (map weight_value l) ->
  gt (mul (div (weight_of p l) (JS.sum (map weight l))) (Fin 100)) (Fin th)
  = false.
Proof.
  intros H Hpq Hsmall.
  pose proof (share_monotone p q l H Hpq) as Hmono.
  pose proof (share_nonneg p l H) as Hp0.
  pose proof (share_total p l H) as Hpt.
  destruct (Rle_lt_or_eq_dec 0 (Rsum (map weight_value l))) as [Hpos|Hzero].
  - lra.
  - rewrite percent_of_share by assumption.
    unfold gt. simpl. apply Rltb_false.
    set (B := Rsum (map weight_value (filter p l))) in *.
    set (T := Rsum (map weight_value l)) in *.
    assert (B / T <= th / 100); [|lra].
    apply Rmult_le_reg_r with T; [exact Hpos|].
    unfold Rdiv at 1. rewrite Rmult_assoc, Rinv_l by lra. lra.
  - unfold weight_of.
    rewrite (weights_sum (filter p l)) by now apply Forall_filter.
    rewrite (weights_sum l) by exact H.
    rewrite <- Hzero in *.
    replace (Rsum (map weight_value (filter p l))) with 0 by lra.
    simpl. rewrite Reqb_true by reflexivity. reflexivity.
Qed.

(** X14.  With weights that are finite and not negative and a positive
    total, the bullish and the bearish percentage are finite numbers
    between 0 and 100; the confidence is their absolute difference, which
    the cap at 100 never changes.  An empty signal list gives 'hold' with
    a NaN confidence. *)
Theorem calculateOverallSignal_shares (signals : list Signal)
    (strategy : string) :
  (Forall (fun s => nonneg (weight s)) signals ->
   0 < Rsum (map weight_value signals) ->
   exists b br,
     bullish_percent signals = Fin b /\ bearish_percent signals = Fin br /\
     0 <= b <= 100 /\ 0 <= br <= 100 /\
     confidence (calculateOverallSignal signals strategy)
     = Fin (Rabs (b - br)) /\
     Rabs (b - br) <= 100) /\
  calculateOverallSignal [] strategy = mkOverall "hold" NaN.
Proof.
  split.
  - intros H Hpos.
    pose proof (share_nonneg is_bullish signals H) as Hb0.
    pose proof (share_nonneg is_bearish signals H) as Hr0.
    pose proof (shares_disjoint signals H) as Hd.
    set (B := Rsum (map weight_value (filter is_bullish signals))) in *.
    set (Be := Rsum (map weight_value (filter is_bearish signals))) in *.
    set (T := Rsum (map weight_value signals)) in *.
    assert (0 < / T) as Hinv by (apply Rinv_0_lt_compat; exact Hpos).
    assert (B / T + Be / T <= 1) as Hsum.
    { apply Rmult_le_reg_r with T; [exact Hpos|].
      unfold Rdiv. rewrite Rmult_plus_distr_r, !Rmult_assoc, Rinv_l by lra.
      lra. }
    assert (0 <= B / T) as HbT by (apply Rmult_le_pos; lra).
    assert (0 <= Be / T) as HrT by (apply Rmult_le_pos; lra).
    exists (B / T * 100), (Be / T * 100).
    assert (Rabs (B / T * 100 - Be / T * 100) <= 100) as Habs
      by (apply Rabs_le; lra).
    split; [apply percent_of_share; assumption|].
    split; [apply percent_of_share; assumption|].
    split; [lra|]. split; [lra|].
    split; [|exact Habs].
    unfold calculateOverallSignal.
    destruct (overall_percentages signals) as [Hbp Hbr].
    cbv zeta in Hbp, Hbr. rewrite Hbp, Hbr. cbn [confidence].
    unfold bullish_percent, bearish_percent.
    rewrite !percent_of_share by assumption. fold B Be T.
    simpl. now rewrite Rltb_false by exact Habs.
  - unfold calculateOverallSignal. simpl fold_left.
    cbn [bullishScore bearishScore totalWeight]. simpl div.
    rewrite Reqb_true by reflexivity. simpl. unfold gt.
    now rewrite lt_nan_r.
Qed.

Lemma calculateOverallSignal_shares_witness :
  exists b br,
    bullish_percent Samples.bullish_69 = Fin b /\
    bearish_percent Samples.bullish_69 = Fin br /\
    0 <= b <= 100.
Proof.
  destruct (proj1 (calculateOverallSignal_shares Samples.bullish_69
                     "conservative"))
    as [b [br [Hb [Hbr [Hs _]]]]].
  - unfold Samples.bullish_69. repeat constructor;
      eexists; (split; [reflexivity | lra]).
  - unfold Samples.bullish_69, Rsum, weight_value. simpl. lra.
  - exists b, br. repeat split; try assumption; apply Hs.
Defined.

End WeightShares.

(* ------------------------------------------------------------------ *)
(** ** Further properties: the trading signal of one run *)

Section TradingSignal.

Import TechnicalAnalysis.

Lemma indicator_signal_of (strategy name : string) (d : IndicatorData)
    (sig : string) :
  data_signal d = Some sig -> data_error d = None -> sig <> ""%string ->
  indicator_signal strategy (name, d)
  = [mkSignal "technical_indicator" (toUpperCase name) sig
       (getIndicatorWeight name strategy)].
Proof.
  intros Hs He Hne. unfold indicator_signal. cbn [fst snd].
  rewrite Hs, He. destruct (String.eqb_spec sig ""); [contradiction|].
  reflexivity.
Qed.

Lemma indicator_signal_error (strategy name error : string) :
  indicator_signal strategy (name, ErrorData error) = [].
Proof. reflexivity. Qed.

(** The readings each indicator can give. *)
Lemma rsi_reading (data : list Candle) (period : Z) :
  (period + 1 <= len data)%Z ->
  exists r, calculateRSI data period = Ok r /\
    In (rsi_signal r) ["overbought"; "oversold"; "neutral"]%string.
Proof.
  intros Hlen. unfold calculateRSI.
  destruct (Z.ltb_spec (len data) (period + 1)); [lia|].
  eexists. split; [reflexivity|]. cbn [rsi_signal]. unfold rsi_class.
  match goal with |- context [gtv ?a ?b] => destruct (gtv a b) end;
    [simpl; tauto|].
  match goal with |- context [ltv ?a ?b] => destruct (ltv a b) end;
    simpl; tauto.
Qed.

Lemma macd_reading (data : list Candle) :
  (exists msg, calculateMACD_default data = Throw msg) \/
  (exists r, calculateMACD_default data = Ok r /\
     macd_signal r = "bearish"%string).
Proof.
  unfold calculateMACD_default, calculateMACD.
  destruct (Z.ltb_spec (len data) (26 + 9)) as [|Hlen]; [left; eauto|].
  right. eexists. split; [reflexivity|]. cbn [macd_signal].
  assert (closes data <> []) as Hne.
  { unfold closes. destruct data; [unfold len in *; simpl in *; lia|].
    discriminate. }
  assert (forall p, len (calculateEMAValues (closes data) p) = len data)
    as Hema.
  { intros p. unfold len. rewrite calculateEMAValues_length by exact Hne.
    unfold closes. now rewrite length_map. }
  destruct (macd_values_nan_last
              (calculateEMAValues (closes data) 12)
              (calculateEMAValues (closes data) 26) 12 26)
    as [body [Hm _]]; [lia | rewrite Hema; lia | now rewrite !Hema |].
  rewrite Hm.
  destruct (calculateEMAValues_nan_last body 9) as [sbody [Hsl _]].
  rewrite Hsl, !get_last_snoc. reflexivity.
Qed.

Lemma price_reading (p a : option num) :
  In (price_signal p a) ["bullish"; "bearish"]%string.
Proof. unfold price_signal. destruct (gtv p a); simpl; tauto. Qed.

Lemma sma_reading (data : list Candle) (period : Z) :
  (period <= len data)%Z ->
  exists r, calculateSMA data period = Ok r /\
    In (sma_signal r) ["bullish"; "bearish"]%string.
Proof.
  intros Hlen. unfold calculateSMA.
  destruct (Z.ltb_spec (len data) period); [lia|].
  eexists. split; [reflexivity|]. apply price_reading.
Qed.

Lemma ema_reading (data : list Candle) (period : Z) :
  In (ema_signal (calculateEMA data period)) ["bullish"; "bearish"]%string.
Proof. apply price_reading. Qed.

Lemma bollinger_reading (data : list Candle) (period : Z) (stdDev : num) :
  (period <= len data)%Z ->
  exists r, calculateBollingerBands data period stdDev = Ok r /\
    In (bb_signal r) ["overbought"; "oversold"; "neutral"]%string.
Proof.
  intros Hlen. unfold calculateBollingerBands.
  destruct (Z.ltb_spec (len data) period); [lia|].
  eexists. split; [reflexivity|]. cbn [bb_signal].
  match goal with |- context [gt ?a (Fin 80)] => destruct (gt a (Fin 80)) end;
    [simpl; tauto|].
  match goal with |- context [lt ?a (Fin 20)] => destruct (lt a (Fin 20)) end;
    simpl; tauto.
Qed.

Lemma volume_reading (values : list num) :
  In (calculateTrendDirection values)
     ["unknown"; "up"; "down"; "sideways"]%string.
Proof.
  unfold calculateTrendDirection.
  destruct (len values <? 2)%Z; [simpl; tauto|]. cbv zeta.
  match goal with |- context [gt ?a ?b] => destruct (gt a b) end;
    [simpl; tauto|].
  match goal with |- context [lt ?a ?b] => destruct (lt a b) end;
    simpl; tauto.
Qed.

(** The signal list of a run that passes both guards. *)
Lemma generateTradingSignals_shape (symbol strategy : string)
    (technicalCandles priceCandles : list Candle) :
  (19 <= len technicalCandles)%Z -> (20 <= len priceCandles)%Z ->
  exists rsi macd sma ema bollinger trend volume,
    In rsi ["overbought"; "oversold"; "neutral"]%string /\
    (macd = [] \/ macd = ["bearish"%string]) /\
    In bollinger ["overbought"; "oversold"; "neutral"]%string /\
    In volume ["unknown"; "up"; "down"; "sideways"]%string /\
    let signals :=
      run_signals strategy rsi macd sma ema bollinger trend volume in
    let overall := calculateOverallSignal signals strategy in
    generateTradingSignals symbol strategy technicalCandles priceCandles
    = Ok (mkTrading signals (overall_signal overall) (confidence overall)
            (generateActionableRecommendations overall)).
Proof.
  intros Ht Hp.
  destruct (rsi_reading technicalCandles 14) as [r1 [E1 H1]]; [lia|].
  destruct (sma_reading technicalCandles 14) as [r3 [E3 H3]]; [lia|].
  pose proof (ema_reading technicalCandles 14) as H4.
  destruct (bollinger_reading technicalCandles 14 (Fin 2)) as [r5 [E5 H5]];
    [lia|].
  assert (forall l, In l ["overbought"; "oversold"; "neutral"]%string ->
                    l <> ""%string) as Hthree
    by (intros l [<- | [<- | [<- | []]]]; discriminate).
  assert (forall l, In l ["bullish"; "bearish"]%string -> l <> ""%string)
    as Htwo by (intros l [<- | [<- | []]]; discriminate).
  exists (rsi_signal r1).
  exists (match calculateMACD_default technicalCandles with
          | Ok r => [macd_signal r]
          | Throw _ => []
          end).
  exists (sma_signal r3), (ema_signal (calculateEMA technicalCandles 14)),
    (bb_signal r5), (determineTrendDirection (closes priceCandles)),
    (calculateTrendDirection (slice_from (volumes priceCandles) (-10))).
  split; [exact H1|]. split.
  { destruct (macd_reading technicalCandles) as [[msg ->] | [r [-> ->]]];
      [now left | now right]. }
  split; [exact H5|]. split; [apply volume_reading|].
  cbv zeta. unfold generateTradingSignals, calculateTechnicalIndicators.
  destruct (Z.ltb_spec (len technicalCandles) (14 + 5)); [lia|].
  unfold analyzePriceAction.
  destruct (Z.ltb_spec (len priceCandles) 20); [lia|].
  cbn [trend_direction volume_analysis]. unfold analyzeVolumeProfile.
  cbn [volume_trend].
  assert (generateIndicatorSignals
            (fold_left
               (fun obj name =>
                  match compute_indicator technicalCandles 14 name with
                  | Some d => obj_set name d obj
                  | None => obj
                  end)
               ["rsi"; "macd"; "sma"; "ema"; "bollinger"]%string [])
            strategy
          = [mkSignal "technical_indicator" "RSI" (rsi_signal r1)
               (getIndicatorWeight "rsi" strategy)] ++
            map (fun m => mkSignal "technical_indicator" "MACD" m
                            (getIndicatorWeight "macd" strategy))
              (match calculateMACD_default technicalCandles with
               | Ok r => [macd_signal r]
               | Throw _ => []
               end) ++
            [mkSignal "technical_indicator" "SMA" (sma_signal r3)
               (getIndicatorWeight "sma" strategy);
             mkSignal "technical_indicator" "EMA"
               (ema_signal (calculateEMA technicalCandles 14))
               (getIndicatorWeight "ema" strategy);
             mkSignal "technical_indicator" "BOLLINGER" (bb_signal r5)
               (getIndicatorWeight "bollinger" strategy)]) as Hind.
  { cbn [fold_left]. unfold compute_indicator. cbn [String.eqb Ascii.eqb
      Bool.eqb andb]. rewrite E1, E3, E5. cbn [attempt obj_set String.eqb
      Ascii.eqb Bool.eqb andb].
    unfold generateIndicatorSignals. cbn [flat_map].
    rewrite (indicator_signal_of strategy "rsi" (RSIData r1) (rsi_signal r1))
      by (try reflexivity; now apply Hthree).
    rewrite (indicator_signal_of strategy "sma" (SMAData r3) (sma_signal r3))
      by (try reflexivity; now apply Htwo).
    rewrite (indicator_signal_of strategy "ema"
               (EMAData (calculateEMA technicalCandles 14))
               (ema_signal (calculateEMA technicalCandles 14)))
      by (try reflexivity; now apply Htwo).
    rewrite (indicator_signal_of strategy "bollinger" (BollingerData r5)
               (bb_signal r5))
      by (try reflexivity; now apply Hthree).
    destruct (macd_reading technicalCandles) as [[msg ->] | [r [-> Hr]]].
    - cbn [attempt]. rewrite indicator_signal_error. reflexivity.
    - cbn [attempt].
      rewrite (indicator_signal_of strategy "macd" (MACDData r)
                 (macd_signal r))
        by (try reflexivity; rewrite Hr; discriminate).
      reflexivity. }
  rewrite Hind. unfold run_signals. rewrite <- !app_assoc. reflexivity.
Qed.

Lemma run_signals_weights (strategy rsi : string) (macd : list string)
    (sma ema bollinger trend volume : string) :
  In strategy ["conservative"; "moderate"; "aggressive"]%string ->
  Forall (fun s => nonneg (weight s))
    (run_signals strategy rsi macd sma ema bollinger trend volume).
Proof.
  intros Hst. unfold run_signals. rewrite !Forall_app.
  assert (forall x, 0 <= x -> nonneg (Fin x)) as Hfin
    by (intros x Hx; exists x; now split).
  destruct Hst as [<- | [<- | [<- | []]]];
    (split; [repeat constructor; apply Hfin; lra|]);
    (split; [apply Forall_map, Forall_forall; intros m _; apply Hfin;
             cbn [weight]; lra|]);
    (split; [repeat constructor; apply Hfin; lra|]);
    (split; repeat constructor; apply Hfin; lra).
Qed.

(** The bullish percentage of a run stays at or below the threshold of
    its strategy. *)
Lemma run_signals_not_buy (strategy rsi : string) (macd : list string)
    (sma ema bollinger trend volume : string) :
  In strategy ["conservative"; "moderate"; "aggressive"]%string ->
  In rsi ["overbought"; "oversold"; "neutral"]%string ->
  (macd = [] \/ macd = ["bearish"%string]) ->
  In bollinger ["overbought"; "oversold"; "neutral"]%string ->
  In volume ["unknown"; "up"; "down"; "sideways"]%string ->
  overall_signal
    (calculateOverallSignal
       (run_signals strategy rsi macd sma ema bollinger trend volume)
       strategy)
  <> "buy"%string.
Proof.
  intros Hst Hrsi Hmacd Hbb Hvol.
  pose proof (run_signals_weights strategy rsi macd sma ema bollinger trend
                volume Hst) as Hw.
  set (l := run_signals strategy rsi macd sma ema bollinger trend volume)
    in *.
  assert (exists th, getSignalThreshold strategy = Fin th /\
            Rsum (map weight_value (filter can_be_bullish l)) * 100
            <= th * Rsum (map weight_value l)) as [th [Hth Hsmall]].
  { subst l.
    destruct Hst as [<- | [<- | [<- | []]]];
      destruct Hmacd as [-> | ->];
      eexists; (split; [reflexivity|]);
      unfold run_signals, Rsum, weight_value; simpl; lra. }
  assert (forall s, In s l -> is_bullish s = true -> can_be_bullish s = true)
    as Hcap.
  { subst l. unfold run_signals. intros s Hs.
    rewrite !in_app_iff in Hs.
    destruct Hs as [[<- | []] | [Hs | [[<- | [<- | [<- | []]]] | [Hs | Hs]]]].
    - destruct Hrsi as [<- | [<- | [<- | []]]]; discriminate.
    - destruct Hmacd as [-> | ->]; [destruct Hs|].
      destruct Hs as [<- | []]. discriminate.
    - reflexivity.
    - reflexivity.
    - destruct Hbb as [<- | [<- | [<- | []]]]; discriminate.
    - destruct Hs as [<- | []]. reflexivity.
    - destruct Hs as [<- | []].
      destruct Hvol as [<- | [<- | [<- | [<- | []]]]]; discriminate. }
  unfold calculateOverallSignal.
  destruct (overall_percentages l) as [Hbp _]. cbv zeta in Hbp.
  rewrite Hbp, Hth. unfold bullish_percent.
  rewrite (share_below_threshold is_bullish can_be_bullish l th Hw Hcap
             Hsmall).
  cbn [overall_signal].
  match goal with |- context [gt ?a ?b] => destruct (gt a b) end;
    discriminate.
Qed.

(** Under the conservative weights the bearish percentage cannot pass 70
    either. *)
Lemma run_signals_conservative_hold (rsi : string) (macd : list string)
    (sma ema bollinger trend volume : string) :
  In rsi ["overbought"; "oversold"; "neutral"]%string ->
  (macd = [] \/ macd = ["bearish"%string]) ->
  In bollinger ["overbought"; "oversold"; "neutral"]%string ->
  In volume ["unknown"; "up"; "down"; "sideways"]%string ->
  overall_signal
    (calculateOverallSignal
       (run_signals "conservative" rsi macd sma ema bollinger trend volume)
       "conservative")
  = "hold"%string.
Proof.
  intros Hrsi Hmacd Hbb Hvol.
  pose proof (run_signals_not_buy "conservative" rsi macd sma ema bollinger
                trend volume (or_introl eq_refl) Hrsi Hmacd Hbb Hvol)
    as Hbuy.
  pose proof (run_signals_weights "conservative" rsi macd sma ema bollinger
                trend volume (or_introl eq_refl)) as Hw.
  set (l := run_signals "conservative" rsi macd sma ema bollinger trend
              volume) in *.
  assert (Rsum (map weight_value (filter directional l)) * 100
          <= 70 * Rsum (map weight_value l)) as Hsmall.
  { subst l. destruct Hmacd as [-> | ->];
      unfold run_signals, Rsum, weight_value; simpl; lra. }
  assert (forall s, In s l -> is_bearish s = true -> directional s = true)
    as Hcap.
  { subst l. unfold run_signals. intros s Hs.
    rewrite !in_app_iff in Hs.
    destruct Hs as [[<- | []] | [Hs | [[<- | [<- | [<- | []]]] | [Hs | Hs]]]].
    - destruct Hrsi as [<- | [<- | [<- | []]]]; discriminate.
    - destruct Hmacd as [-> | ->]; [destruct Hs|].
      destruct Hs as [<- | []]. reflexivity.
    - reflexivity.
    - reflexivity.
    - destruct Hbb as [<- | [<- | [<- | []]]]; discriminate.
    - destruct Hs as [<- | []]. reflexivity.
    - destruct Hs as [<- | []].
      destruct Hvol as [<- | [<- | [<- | [<- | []]]]]; discriminate. }
  revert Hbuy. unfold calculateOverallSignal.
  destruct (overall_percentages l) as [Hbp Hbr]. cbv zeta in Hbp, Hbr.
  rewrite Hbp, Hbr. unfold bearish_percent.
  change (getSignalThreshold "conservative") with (Fin 70).
  rewrite (share_below_threshold is_bearish directional l 70 Hw Hcap Hsmall).
  cbn [overall_signal].
  destruct (gt (bullish_percent l) (Fin 70)); [intros H; now elim H|].
  reflexivity.
Qed.

(** X15.  A run of [generateTradingSignals] on at least 19 indicator
    candles and 20 price candles returns a result whose overall signal is
    never 'buy', for each of the three strategies: the RSI, Bollinger and
    volume readings are never 'bullish', the MACD reading is 'bearish' or
    missing, and the weights left to the SMA, EMA and trend signals stay
    under the threshold.  The one recommendation is therefore never
    'Consider buying', and the conservative strategy always answers
    'hold'. *)
Theorem generateTradingSignals_never_buy (symbol strategy : string)
    (technicalCandles priceCandles : list Candle) :
  In strategy ["conservative"; "moderate"; "aggressive"]%string ->
  (19 <= len technicalCandles)%Z -> (20 <= len priceCandles)%Z ->
  exists r,
    generateTradingSignals symbol strategy technicalCandles priceCandles
    = Ok r /\
    ts_overall_signal r <> "buy"%string /\
    (ts_overall_signal r = "sell"%string \/
     ts_overall_signal r = "hold"%string) /\
    (map action (ts_recommendations r) = ["Consider selling"%string] \/
     map action (ts_recommendations r) = ["Hold position"%string]) /\
    (strategy = "conservative"%string ->
     ts_overall_signal r = "hold"%string /\
     map action (ts_recommendations r) = ["Hold position"%string]).
Proof.
  intros Hst Ht Hp.
  destruct (generateTradingSignals_shape symbol strategy technicalCandles
              priceCandles Ht Hp)
    as [rsi [macd [sma [ema [bollinger [trend [volume
         [Hrsi [Hmacd [Hbb [Hvol Hrun]]]]]]]]]]].
  cbv zeta in Hrun. eexists. split; [exact Hrun|].
  cbn [ts_overall_signal ts_recommendations].
  pose proof (run_signals_not_buy strategy rsi macd sma ema bollinger trend
                volume Hst Hrsi Hmacd Hbb Hvol) as Hbuy.
  assert (forall o,
            overall_signal o <> "buy"%string ->
            (overall_signal o = "sell"%string \/
             overall_signal o = "hold"%string) ->
            (map action (generateActionableRecommendations o)
             = ["Consider selling"%string] \/
             map action (generateActionableRecommendations o)
             = ["Hold position"%string]) /\
            (overall_signal o = "hold"%string ->
             map action (generateActionableRecommendations o)
             = ["Hold position"%string])) as Hrec.
  { intros o Hnb Hcases. unfold generateActionableRecommendations.
    destruct Hcases as [-> | ->]; simpl; split; auto; discriminate. }
  assert (forall l st,
            overall_signal (calculateOverallSignal l st) = "buy"%string \/
            overall_signal (calculateOverallSignal l st) = "sell"%string \/
            overall_signal (calculateOverallSignal l st) = "hold"%string)
    as Hdom.
  { intros l st. unfold calculateOverallSignal. cbn [overall_signal].
    match goal with |- context [if ?c then "buy"%string else _] =>
      destruct c end; [now left|].
    match goal with |- context [if ?c then "sell"%string else _] =>
      destruct c end; [right; now left | right; now right]. }
  set (o := calculateOverallSignal
              (run_signals strategy rsi macd sma ema bollinger trend volume)
              strategy) in *.
  assert (overall_signal o = "sell"%string \/
          overall_signal o = "hold"%string) as Hcases.
  { subst o.
    destruct (Hdom (run_signals strategy rsi macd sma ema bollinger trend
                      volume) strategy) as [Hb | Hc];
      [contradiction | exact Hc]. }
  destruct (Hrec o Hbuy Hcases) as [Hr1 Hr2].
  split; [exact Hbuy|]. split; [exact Hcases|]. split; [exact Hr1|].
  intros ->.
  assert (overall_signal o = "hold"%string) as Hhold
    by (subst o; now apply run_signals_conservative_hold).
  split; [exact Hhold | now apply Hr2].
Qed.

Lemma generateTradingSignals_never_buy_witness :
  exists r,
    generateTradingSignals "BTC" "moderate" (Samples.rising 20)
      (Samples.rising 20) = Ok r /\
    ts_overall_signal r <> "buy"%string.
Proof.
  destruct (generateTradingSignals_never_buy "BTC" "moderate"
              (Samples.rising 20) (Samples.rising 20))
    as [r [Hr [Hb _]]].
  - simpl. tauto.
  - unfold len, Samples.rising. rewrite length_map, length_seq. lia.
  - unfold len, Samples.rising. rewrite length_map, length_seq. lia.
  - exists r. split; assumption.
Defined.

End TradingSignal.

(* ------------------------------------------------------------------ *)
(** ** Further properties: guards and the indicator set *)

Section IndicatorSet.

Import TechnicalAnalysis.

(** X16.  With fewer than 19 indicator candles a run of
    [generateTradingSignals] fails with the message of the indicator
    guard wrapped in both prefixes; with enough of them but fewer than 20
    price candles it fails with the wrapped message of the price-action
    guard. *)
Theorem generateTradingSignals_insufficient (symbol strategy : string)
    (technicalCandles priceCandles : list Candle) :
  ((len technicalCandles < 19)%Z ->
   generateTradingSignals symbol strategy technicalCandles priceCandles
   = Throw ("Failed to generate trading signals for " ++ symbol ++
            ": Error: Failed to calculate technical indicators for " ++
            symbol ++
            ": Error: Insufficient data for calculation. " ++
            "Need at least 19 data points.")%string) /\
  ((19 <= len technicalCandles)%Z -> (len priceCandles < 20)%Z ->
   generateTradingSignals symbol strategy technicalCandles priceCandles
   = Throw ("Failed to generate trading signals for " ++ symbol ++
            ": Error: Failed to analyze price action for " ++ symbol ++
            ": Error: Insufficient data for price action analysis")%string).
Proof.
  split.
  - intros Hlen. unfold generateTradingSignals, calculateTechnicalIndicators.
    destruct (Z.ltb_spec (len technicalCandles) (14 + 5)); [|lia].
    reflexivity.
  - intros Ht Hp.
    unfold generateTradingSignals, calculateTechnicalIndicators.
    destruct (Z.ltb_spec (len technicalCandles) (14 + 5)); [lia|].
    unfold analyzePriceAction.
    destruct (Z.ltb_spec (len priceCandles) 20); [|lia].
    reflexivity.
Qed.

Lemma generateTradingSignals_insufficient_witness :
  generateTradingSignals "BTC" "moderate" (Samples.rising 8)
    (Samples.rising 8)
  = Throw ("Failed to generate trading signals for BTC: Error: " ++
           "Failed to calculate technical indicators for BTC: Error: " ++
           "Insufficient data for calculation. " ++
           "Need at least 19 data points.")%string /\
  generateTradingSignals "BTC" "moderate" (Samples.rising 19)
    (Samples.rising 19)
  = Throw ("Failed to generate trading signals for BTC: Error: " ++
           "Failed to analyze price action for BTC: Error: " ++
           "Insufficient data for price action analysis")%string.
Proof.
  split.
  - apply (proj1 (generateTradingSignals_insufficient "BTC" "moderate"
                    (Samples.rising 8) (Samples.rising 8))).
    unfold len, Samples.rising. rewrite length_map, length_seq. lia.
  - apply (proj2 (generateTradingSignals_insufficient "BTC" "moderate"
                    (Samples.rising 19) (Samples.rising 19))).
    + unfold len, Samples.rising. rewrite length_map, length_seq. lia.
    + unfold len, Samples.rising. rewrite length_map, length_seq. lia.
Defined.

(** The names the [switch] of [calculateTechnicalIndicators] knows. *)
Lemma compute_indicator_known (data : list Candle) (period : Z)
    (name : string) :
  compute_indicator data period name <> None <->
  In name ["rsi"; "macd"; "sma"; "ema"; "bollinger"; "volume_sma"]%string.
Proof.
  unfold compute_indicator. simpl In.
  destruct (String.eqb_spec name "rsi"); [split; [auto | discriminate]|].
  destruct (String.eqb_spec name "macd"); [split; [auto | discriminate]|].
  destruct (String.eqb_spec name "sma"); [split; [auto 6 | discriminate]|].
  destruct (String.eqb_spec name "ema"); [split; [auto 6 | discriminate]|].
  destruct (String.eqb_spec name "bollinger");
    [split; [auto 7 | discriminate]|].
  destruct (String.eqb_spec name "volume_sma");
    [split; [auto 8 | discriminate]|].
  split; [intros H; now elim H|].
  intros [H | [H | [H | [H | [H | [H | []]]]]]]; congruence.
Qed.

Lemma obj_set_keys {V : Type} (key : string) (v : V)
    (obj : list (string * V)) :
  NoDup (map fst obj) ->
  NoDup (map fst (obj_set key v obj)) /\
  (forall k, In k (map fst (obj_set key v obj)) <->
             In k (map fst obj) \/ k = key).
Proof.
  induction obj as [|[k0 old] rest IH]; intros Hnd.
  - simpl. split; [repeat constructor; simpl; tauto|].
    intros k. split; [intros [<- | []]; now right|].
    intros [[] | ->]. now left.
  - simpl in Hnd. inversion Hnd as [|? ? Hnot Hrest]; subst.
    destruct (IH Hrest) as [IHnd IHin]. simpl.
    destruct (String.eqb_spec k0 key) as [-> | Hneq]; simpl.
    + split; [now constructor|]. intros k. intuition congruence.
    + split.
      * constructor; [|exact IHnd]. rewrite IHin. intros [H | H];
          [contradiction | congruence].
      * intros k. rewrite IHin. tauto.
Qed.

(** X18.  Past its guard, [calculateTechnicalIndicators] returns one
    entry for each requested name that the [switch] knows, however often
    the name is requested, and no entry for any other name. *)
Theorem calculateTechnicalIndicators_keys (symbol : string)
    (historicalData : list Candle) (indicators : list string) (period : Z) :
  (period + 5 <= len historicalData)%Z ->
  exists obj,
    calculateTechnicalIndicators symbol historicalData indicators period
    = Ok obj /\
    NoDup (map fst obj) /\
    forall name,
      In name (map fst obj) <->
      In name indicators /\
      In name ["rsi"; "macd"; "sma"; "ema"; "bollinger";
               "volume_sma"]%string.
Proof.
  intros Hlen. unfold calculateTechnicalIndicators.
  destruct (Z.ltb_spec (len historicalData) (period + 5)); [lia|].
  eexists. split; [reflexivity|].
  set (known := ["rsi"; "macd"; "sma"; "ema"; "bollinger";
                 "volume_sma"]%string).
  set (step := fun (obj : list (string * IndicatorData)) name =>
                 match compute_indicator historicalData period name with
                 | Some d => obj_set name d obj
                 | None => obj
                 end).
  assert (forall names obj,
            NoDup (map fst obj) ->
            NoDup (map fst (fold_left step names obj)) /\
            forall name,
              In name (map fst (fold_left step names obj)) <->
              In name (map fst obj) \/ (In name names /\ In name known))
    as Hfold.
  { induction names as [|n names IH]; intros obj Hnd.
    - simpl. split; [exact Hnd|]. intros name. tauto.
    - simpl fold_left.
      pose proof (compute_indicator_known historicalData period n) as Hk.
      fold known in Hk.
      assert (NoDup (map fst (step obj n)) /\
              forall k, In k (map fst (step obj n)) <->
                        In k (map fst obj) \/ (k = n /\ In n known))
        as [Hnd' Hin'].
      { unfold step.
        destruct (compute_indicator historicalData period n) as [d|].
        - destruct (obj_set_keys n d obj Hnd) as [H1 H2].
          split; [exact H1|]. intros k. rewrite H2.
          assert (In n known) as Hn by (apply Hk; discriminate). tauto.
        - split; [exact Hnd|]. intros k.
          assert (~ In n known) as Hn
            by (intros Hn; apply Hk in Hn; now elim Hn).
          tauto. }
      destruct (IH (step obj n) Hnd') as [H1 H2].
      split; [exact H1|]. intros name. rewrite H2, Hin'. simpl In.
      split.
      + intros [[Ha | [-> Ha]] | [Ha Hb]]; auto.
      + intros [Ha | [[<- | Ha] Hb]]; auto. }
  destruct (Hfold indicators [] (NoDup_nil _)) as [H1 H2].
  split; [exact H1|]. intros name. rewrite H2. simpl. tauto.
Qed.

Lemma calculateTechnicalIndicators_keys_witness :
  exists obj,
    calculateTechnicalIndicators "BTC" (Samples.rising 20)
      ["sma"; "foo"; "rsi"; "sma"]%string 14 = Ok obj /\
    NoDup (map fst obj).
Proof.
  destruct (calculateTechnicalIndicators_keys "BTC" (Samples.rising 20)
              ["sma"; "foo"; "rsi"; "sma"]%string 14)
    as [obj [Hobj [Hnd _]]].
  - unfold len, Samples.rising. rewrite length_map, length_seq. lia.
  - exists obj. split; assumption.
Defined.

End IndicatorSet.

(* ------------------------------------------------------------------ *)
(** ** Further properties: downside deviation *)

Section Downside.

Import HistoricalAnalysis.



End Downside.

(* ------------------------------------------------------------------ *)
(** ** Further properties: volume profile and RSI history *)

Section VolumeAndHistory.

Import TechnicalAnalysis.





(** [l.slice(-m)] for a positive [m], shorter lists included. *)
Lemma slice_from_last {A : Type} (l : list A) (m : Z) :
  (1 <= m)%Z ->
  slice_from l (- m) = skipn (Z.to_nat (len l - m)) l.
Proof.
  intros Hm. unfold slice_from, slice, rel_index.
  pose proof (len_nonneg l) as Hn.
  destruct (Z.ltb_spec (- m) 0); [|lia].
  destruct (Z.ltb_spec (len l) 0); [lia|].
  rewrite Z.min_id.
  replace (Z.to_nat (Z.max (len l + - m) 0)) with (Z.to_nat (len l - m))
    by lia.
  apply firstn_all2. rewrite length_skipn. unfold len in *. lia.
Qed.

Lemma get_skipn_last {A : Type} (l : list A) (k : nat) :
  (k < length l)%nat ->
  get (skipn k l) (len (skipn k l) - 1) = get l (len l - 1).
Proof.
  intros Hk. unfold len. rewrite length_skipn.
  replace (Z.of_nat (length l - k) - 1)%Z
    with (Z.of_nat (length l - k - 1)) by lia.
  replace (Z.of_nat (length l) - 1)%Z
    with (Z.of_nat (length l - 1)) by lia.
  rewrite !get_nat, nth_error_skipn. f_equal. lia.
Qed.

(** X21.  From [period + 2] candles on, the RSI history holds the last
    10 values of the smoothing loop, or all of them when there are fewer;
    each lies between 0 and 100, the last one is the current value, and
    the strength lies between 0 and 1. *)
Theorem calculateRSI_history (data : list Candle) (period : Z) :
  (1 <= period)%Z -> (period + 2 <= len data)%Z ->
  exists r s,
    calculateRSI data period = Ok r /\
    Forall percent (historical_values r) /\
    len (historical_values r) = Z.min 10 (len data - 1 - period) /\
    get (historical_values r) (len (historical_values r) - 1)
    = current_value r /\
    strength r = Fin s /\ 0 <= s <= 1.
Proof.
  intros Hp Hlen. unfold calculateRSI.
  destruct (Z.ltb_spec (len data) (period + 1)); [lia|].
  destruct (gains_losses_nonneg data) as [Hgs [Hls [Hg Hl]]]; [lia|].
  cbv zeta in Hgs, Hls, Hg, Hl.
  set (gains := map gain_of (changes (closes data))) in *.
  set (losses := map loss_of (changes (closes data))) in *.
  destruct (rsi_loop nonneg percent period gains losses
              (div (JS.sum (slice gains 0 period)) (ofZ period))
              (div (JS.sum (slice losses 0 period)) (ofZ period)))
    as [Hv Hn].
  - intros a x. now apply smooth_nonneg.
  - exact rsi_of_percent.
  - exact Hgs.
  - exact Hls.
  - exact Hl.
  - lia.
  - apply average_nonneg; [exact Hp|]. now apply sum_nonneg, Forall_slice.
  - apply average_nonneg; [exact Hp|]. now apply sum_nonneg, Forall_slice.
  - set (st := fold_left (rsi_step period gains losses)
                 (range period (len gains)) _) in *.
    assert (percent (getN (rsiValues st) (len (rsiValues st) - 1))) as Hlast
      by (apply Forall_getN; [exact Hv | lia]).
    destruct Hlast as [v [Hxv Hb]].
    eexists. exists (Rabs (50 - v) / 50). split; [reflexivity|].
    cbn [historical_values current_value strength].
    replace (slice_from (rsiValues st) (-10))
      with (skipn (Z.to_nat (len (rsiValues st) - 10)) (rsiValues st))
      by (symmetry; apply (slice_from_last _ 10); lia).
    split; [now apply Forall_skipn|]. split.
    { unfold len in *. rewrite length_skipn. lia. }
    split.
    { apply get_skipn_last. unfold len in *. lia. }
    unfold getN in Hxv. rewrite Hxv. simpl sub. simpl abs.
    rewrite div_fin by lra. split; [reflexivity|].
    assert (0 <= Rabs (50 - v)) by apply Rabs_pos.
    assert (Rabs (50 - v) <= 50) by (apply Rabs_le; lra).
    split.
    + apply Rmult_le_pos; lra.
    + apply Rmult_le_reg_r with 50; [lra|].
      unfold Rdiv. rewrite Rmult_assoc, Rinv_l by lra. lra.
Qed.

Lemma calculateRSI_history_witness :
  exists r,
    calculateRSI (Samples.rising 30) 14 = Ok r /\
    len (historical_values r) = 10%Z.
Proof.
  destruct (calculateRSI_history (Samples.rising 30) 14)
    as [r [s [Hr [_ [Hn _]]]]].
  - lia.
  - unfold len, Samples.rising. rewrite length_map, length_seq. lia.
  - exists r. split; [exact Hr|]. rewrite Hn.
    unfold len, Samples.rising. rewrite length_map, length_seq. lia.
Defined.

End VolumeAndHistory.

(* ------------------------------------------------------------------ *)
(** ** Further properties: current sentiment and strength score *)

Section CurrentAnalysisFacts.

Import TechnicalAnalysis.

Lemma obj_get_set {V : Type} (key k : string) (v : V)
    (obj : list (string * V)) :
  obj_get k (obj_set key v obj)
  = if String.eqb key k then Some v else obj_get k obj.
Proof.
  induction obj as [|[k0 old] rest IH].
  - unfold obj_get. simpl. now destruct (String.eqb key k).
  - simpl obj_set. destruct (String.eqb_spec k0 key) as [-> | Hneq].
    + unfold obj_get. simpl. now destruct (String.eqb key k).
    + unfold obj_get in *. simpl.
      destruct (String.eqb_spec k0 k) as [-> | Hk].
      * destruct (String.eqb_spec key k) as [-> | _];
          [now elim Hneq | reflexivity].
      * exact IH.
Qed.

(** What the loop of [calculateTechnicalIndicators] leaves under a key. *)
Lemma indicators_get (data : list Candle) (period : Z) (k : string)
    (names : list string) (obj : list (string * IndicatorData)) :
  obj_get k
    (fold_left
       (fun obj name =>
          match compute_indicator data period name with
          | Some d => obj_set name d obj
          | None => obj
          end)
       names obj)
  = match (if existsb (String.eqb k) names
           then compute_indicator data period k else None) with
    | Some d => Some d
    | None => obj_get k obj
    end.
Proof.
  revert obj. induction names as [|n names IH]; intros obj;
    [reflexivity|].
  simpl fold_left. rewrite IH. simpl existsb.
  destruct (String.eqb_spec k n) as [<- | Hkn]; simpl orb.
  - destruct (existsb (String.eqb k) names).
    + destruct (compute_indicator data period k); [reflexivity|].
      reflexivity.
    + destruct (compute_indicator data period k) as [d|]; [|reflexivity].
      rewrite obj_get_set. now rewrite String.eqb_refl.
  - assert (obj_get k
              match compute_indicator data period n with
              | Some d => obj_set n d obj
              | None => obj
              end = obj_get k obj) as ->.
    { destruct (compute_indicator data period n) as [d|]; [|reflexivity].
      rewrite obj_get_set.
      destruct (String.eqb_spec n k) as [-> | _];
        [now elim Hkn | reflexivity]. }
    reflexivity.
Qed.

Lemma rsi_entry_signal (data : list Candle) (period : Z) :
  In (data_signal (attempt RSIData (calculateRSI data period)))
     [None; Some "overbought"; Some "oversold"; Some "neutral"]%string.
Proof.
  unfold calculateRSI. destruct (len data <? period + 1)%Z;
    [simpl; tauto|].
  cbn [attempt data_signal rsi_signal]. unfold rsi_class.
  match goal with |- context [gtv ?a ?b] => destruct (gtv a b) end;
    [simpl; tauto|].
  match goal with |- context [ltv ?a ?b] => destruct (ltv a b) end;
    simpl; tauto.
Qed.

Lemma macd_entry (data : list Candle) :
  if (len data <? 35)%Z
  then exists msg, calculateMACD_default data = Throw msg
  else exists r, calculateMACD_default data = Ok r /\
                 macd_signal r = "bearish"%string.
Proof.
  destruct (Z.ltb_spec (len data) 35) as [Hlt | Hge].
  - unfold calculateMACD_default, calculateMACD.
    destruct (Z.ltb_spec (len data) (26 + 9)); [eauto | lia].
  - destruct (macd_reading data) as [[msg H] | H]; [|exact H].
    exfalso. unfold calculateMACD_default, calculateMACD in H.
    destruct (Z.ltb_spec (len data) (26 + 9)); [lia | discriminate].
Qed.

(** X22.  The sentiment that [calculateTechnicalIndicators] attaches to
    its result reads the RSI and MACD entries only.  The RSI never reads
    'bullish' and the MACD reads 'bearish' whenever it is computed, so the
    sentiment is never 'bullish'; it is 'bearish' exactly when MACD was
    requested on at least 35 candles, and 'neutral' otherwise. *)
Theorem analyzeCurrentTechnicals_sentiment (symbol : string)
    (historicalData : list Candle) (indicators : list string) (period : Z) :
  (period + 5 <= len historicalData)%Z ->
  exists obj,
    calculateTechnicalIndicators symbol historicalData indicators period
    = Ok obj /\
    overall_sentiment (analyzeCurrentTechnicals obj) <> "bullish"%string /\
    (overall_sentiment (analyzeCurrentTechnicals obj) = "bearish"%string
     <-> In "macd"%string indicators /\ (35 <= len historicalData)%Z) /\
    (overall_sentiment (analyzeCurrentTechnicals obj) = "neutral"%string
     <-> ~ (In "macd"%string indicators /\ (35 <= len historicalData)%Z)).
Proof.
  intros Hlen. unfold calculateTechnicalIndicators.
  destruct (Z.ltb_spec (len historicalData) (period + 5)); [lia|].
  eexists. split; [reflexivity|].
  unfold analyzeCurrentTechnicals. cbn [overall_sentiment].
  rewrite !indicators_get.
  assert (existsb (String.eqb "macd") indicators = true
          <-> In "macd"%string indicators) as Hin.
  { rewrite existsb_exists. split.
    - intros [x [Hx Heq]]. apply String.eqb_eq in Heq. now subst x.
    - intros Hmem. exists "macd"%string. split; [exact Hmem|].
      apply String.eqb_refl. }
  change (compute_indicator historicalData period "rsi")
    with (Some (attempt RSIData (calculateRSI historicalData period))).
  change (compute_indicator historicalData period "macd")
    with (Some (attempt MACDData (calculateMACD_default historicalData))).
  change (@obj_get IndicatorData "rsi" []) with (@None IndicatorData).
  change (@obj_get IndicatorData "macd" []) with (@None IndicatorData).
  pose proof (rsi_entry_signal historicalData period) as Hrsi.
  pose proof (macd_entry historicalData) as Hmacd.
  destruct (existsb (String.eqb "macd") indicators) eqn:Em.
  - assert (In "macd"%string indicators) as Hm by now apply Hin.
    destruct (Z.ltb_spec (len historicalData) 35) as [Hlt | Hge].
    + destruct Hmacd as [msg ->]. cbn [attempt].
      destruct (existsb (String.eqb "rsi") indicators);
        [simpl in Hrsi; destruct Hrsi as [<- | [<- | [<- | [<- | []]]]]|];
        unfold calculateOverallSentiment; simpl;
        repeat split; intros; try discriminate; try reflexivity;
        try (intuition lia).
    + destruct Hmacd as [r [-> Hr]]. cbn [attempt data_signal].
      rewrite Hr.
      destruct (existsb (String.eqb "rsi") indicators);
        [simpl in Hrsi; destruct Hrsi as [<- | [<- | [<- | [<- | []]]]]|];
        unfold calculateOverallSentiment; simpl;
        repeat split; intros; try discriminate; try reflexivity;
        try assumption; try (intuition lia).
  - assert (~ In "macd"%string indicators) as Hm
      by (intros Hmem; apply Hin in Hmem; discriminate).
    destruct (existsb (String.eqb "rsi") indicators);
      [simpl in Hrsi; destruct Hrsi as [<- | [<- | [<- | [<- | []]]]]|];
      unfold calculateOverallSentiment; simpl;
      repeat split; intros; try discriminate; try reflexivity;
      try (intuition lia).
Qed.

Lemma analyzeCurrentTechnicals_sentiment_witness :
  exists obj,
    calculateTechnicalIndicators "BTC" (Samples.rising 40)
      ["rsi"; "macd"]%string 14 = Ok obj /\
    overall_sentiment (analyzeCurrentTechnicals obj) = "bearish"%string.
Proof.
  assert (len (Samples.rising 40) = 40%Z) as Hl
    by (unfold len, Samples.rising; rewrite length_map, length_seq; lia).
  destruct (analyzeCurrentTechnicals_sentiment "BTC" (Samples.rising 40)
              ["rsi"; "macd"]%string 14)
    as [obj [Hobj [_ [Hbear _]]]].
  - rewrite Hl. lia.
  - exists obj. split; [exact Hobj|]. apply Hbear. split.
    + simpl. tauto.
    + rewrite Hl. lia.
Defined.

(** The current RSI value past the first smoothing step. *)
Lemma rsi_current_percent (data : list Candle) (period : Z) :
  (1 <= period)%Z -> (period + 2 <= len data)%Z ->
  exists r v,
    calculateRSI data period = Ok r /\
    current_value r = Some (Fin v) /\ 0 <= v <= 100.
Proof.
  intros Hp Hlen. unfold calculateRSI.
  destruct (Z.ltb_spec (len data) (period + 1)); [lia|].
  destruct (gains_losses_nonneg data) as [Hgs [Hls [Hg Hl]]]; [lia|].
  cbv zeta in Hgs, Hls, Hg, Hl.
  set (gains := map gain_of (changes (closes data))) in *.
  set (losses := map loss_of (changes (closes data))) in *.
  destruct (rsi_loop nonneg percent period gains losses
              (div (JS.sum (slice gains 0 period)) (ofZ period))
              (div (JS.sum (slice losses 0 period)) (ofZ period)))
    as [Hv Hn];
    [intros a x; now apply smooth_nonneg | exact rsi_of_percent
    | exact Hgs | exact Hls | exact Hl | lia
    | apply average_nonneg; [exact Hp|];
      now apply sum_nonneg, Forall_slice
    | apply average_nonneg; [exact Hp|];
      now apply sum_nonneg, Forall_slice |].
  set (st := fold_left (rsi_step period gains losses)
               (range period (len gains)) _) in *.
  assert (percent (getN (rsiValues st) (len (rsiValues st) - 1))) as Hlast
    by (apply Forall_getN; [exact Hv | lia]).
  destruct Hlast as [v [Hxv Hb]]. unfold getN in Hxv.
  destruct (get (rsiValues st) (len (rsiValues st) - 1)) as [x|] eqn:Hx;
    [|discriminate].
  simpl in Hxv. subst x.
  eexists. exists v. split; [reflexivity|].
  cbn [current_value]. split; [reflexivity | exact Hb].
Qed.

Lemma clamp_inside (x : R) :
  0 <= x <= 100 -> JS.max (Fin 0) (JS.min (Fin 100) (Fin x)) = Fin x.
Proof.
  intros Hx. destruct (Rlt_dec x 100) as [Hlt | Hge].
  - replace (JS.min (Fin 100) (Fin x)) with (Fin x)
      by (unfold JS.min, lt; now rewrite Rltb_true by exact Hlt).
    unfold JS.max, lt. destruct (Req_dec_T x 0) as [-> | Hnz].
    + now rewrite Rltb_false by lra.
    + now rewrite Rltb_true by lra.
  - assert (x = 100) as -> by lra.
    replace (JS.min (Fin 100) (Fin 100)) with (Fin 100)
      by (unfold JS.min, lt; now rewrite Rltb_false by lra).
    unfold JS.max, lt. now rewrite Rltb_true by lra.
Qed.

(** X23.  For one symbol of [compareTechnicalStrength], on at least 19
    indicator candles and 20 price candles, the strength score is a
    number between 30.5 and 72 that the clamp to [0, 100] never changes.
    The MACD never adds to it: with at least 35 candles it takes 7.5
    away and the score stays at or below 64.5.  The momentum is 'strong'
    only under a bullish trend. *)
Theorem calculateTechnicalStrengthScore_range (symbol : string)
    (technicalCandles priceCandles : list Candle) :
  (19 <= len technicalCandles)%Z -> (20 <= len priceCandles)%Z ->
  exists obj pa s,
    calculateTechnicalIndicators symbol technicalCandles
      ["rsi"; "macd"; "sma"; "ema"]%string 14 = Ok obj /\
    analyzePriceAction symbol priceCandles = Ok pa /\
    overall_score (calculateTechnicalStrengthScore obj pa) = Fin s /\
    30.5 <= s <= 72 /\
    ((35 <= len technicalCandles)%Z -> s <= 64.5) /\
    (momentum (calculateTechnicalStrengthScore obj pa) = "strong"%string ->
     trend_direction pa = "bullish"%string).
Proof.
  intros Ht Hp.
  destruct (rsi_current_percent technicalCandles 14) as [r1 [v [E1 [Hv Hb]]]];
    [lia | lia |].
  pose proof (macd_entry technicalCandles) as Hmacd.
  unfold calculateTechnicalIndicators.
  destruct (Z.ltb_spec (len technicalCandles) (14 + 5)); [lia|].
  unfold analyzePriceAction.
  destruct (Z.ltb_spec (len priceCandles) 20); [lia|].
  cbn [fold_left]. unfold compute_indicator.
  cbn [String.eqb Ascii.eqb Bool.eqb andb]. rewrite E1.
  cbn [attempt obj_set String.eqb Ascii.eqb Bool.eqb andb].
  set (dir := determineTrendDirection (closes priceCandles)).
  assert (Rabs (v - 50) <= 50) as Habs by (apply Rabs_le; lra).
  pose proof (Rabs_pos (v - 50)) as Habs0.
  assert (forall x, 0 <= x <= 100 ->
            (if gt (Fin x) (Fin 60) then "strong"%string
             else if lt (Fin x) (Fin 40) then "weak"%string
             else "moderate"%string) = "strong"%string -> 60 < x)
    as Hstrong.
  { intros x Hx. unfold gt, lt.
    destruct (Rlt_dec 60 x) as [Hlt | Hge]; [intros _; exact Hlt|].
    rewrite (Rltb_false 60 x) by lra.
    destruct (Rltb x 40); discriminate. }
  destruct (Z.ltb_spec (len technicalCandles) 35) as [Hshort | Hlong];
    [destruct Hmacd as [msg ->] | destruct Hmacd as [r [-> Hr]]];
    cbn [attempt];
    destruct (String.eqb dir "bullish") eqn:Ed1;
    destruct (String.eqb dir "bearish") eqn:Ed2;
    (eexists; eexists; eexists; split; [reflexivity|];
     split; [reflexivity|]);
    unfold calculateTechnicalStrengthScore, obj_get, has_no_error;
    cbn [find fst snd String.eqb Ascii.eqb Bool.eqb andb data_error
         data_current_value data_signal option_map trend_direction
         overall_score momentum String.append];
    rewrite Hv, ?Hr, ?Ed1, ?Ed2;
    cbn [toNum String.eqb Ascii.eqb Bool.eqb andb];
    simpl sub; simpl mul; simpl add;
    (rewrite clamp_inside by lra);
    (split; [reflexivity|]); (split; [lra|]);
    (split; [intros; first [lia | lra]|]);
    intros Hs; first [now apply String.eqb_eq
                     | apply Hstrong in Hs; lra].
Qed.

Lemma calculateTechnicalStrengthScore_range_witness :
  exists obj pa s,
    calculateTechnicalIndicators "BTC" (Samples.rising 20)
      ["rsi"; "macd"; "sma"; "ema"]%string 14 = Ok obj /\
    analyzePriceAction "BTC" (Samples.rising 20) = Ok pa /\
    overall_score (calculateTechnicalStrengthScore obj pa) = Fin s /\
    30.5 <= s <= 72.
Proof.
  assert (len (Samples.rising 20) = 20%Z) as Hl
    by (unfold len, Samples.rising; rewrite length_map, length_seq; lia).
  destruct (calculateTechnicalStrengthScore_range "BTC" (Samples.rising 20)
              (Samples.rising 20))
    as [obj [pa [s [Hobj [Hpa [Hs [Hb _]]]]]]].
  - rewrite Hl. lia.
  - rewrite Hl. lia.
  - exists obj, pa, s. repeat split; try assumption; apply Hb.
Defined.

End CurrentAnalysisFacts.
